(** * Cursor pagination, category resolution and cart upsert of the
      catalogue backend: a shallow embedding of
      [backend/controllers/product.controller.js] and
      [backend/controllers/cart.controller.js].

    JavaScript numbers that hold counts, quantities and timestamps are
    integers [Z], and arithmetic on them is exact.  A number that comes
    out of [Number(..)] on a request value is a [Js.Num] (NaN, the
    infinities, or a rational); one that comes out of [parseInt] is a
    [Js.Integer] (NaN, the infinities, or an integer), and the page
    number and the depth bound made from it are a [Js.Count], an integer
    or Infinity.
    Exceptions are explicit: every function that can throw returns a
    [Result].  The Node, ECMAScript and mongoose built-ins the controllers
    call ([Buffer], [JSON], [Date], [ObjectId], [Number]) are the fields of
    a [Platform] record; [Node.platform] is an executable instance.

    After the pagination, the category resolver and the cart upsert come
    the other handlers of the two controllers: the cart handlers that
    change a quantity, remove an item and clear a cart; the filter
    [listProducts] builds and the route handlers that call it; the
    helpers [escapeRegex] and [normalizeArray]; and [deleteProductImage]
    and [deleteProduct] with [getPublicIdFromUrl] of
    [utils/cloudinary.js]. *)

From Stdlib Require Import ZArith List String Ascii Bool Lia QArith Qround.
From Stdlib Require Import Permutation Sorted.
Import ListNotations.
Local Open Scope string_scope.
Local Open Scope list_scope.
Local Open Scope Z_scope.

Set Implicit Arguments.
Set Warnings "-register-all".

(* ================================================================== *)
(** * JavaScript values and exceptions *)
(* ================================================================== *)

Module Js.

(** A JavaScript number as the request layer sees it. *)
Inductive Num : Type :=
| NaN
| PosInf
| NegInf
| Fin (q : Q).

(** What [parseInt] returns: NaN, an integer, or an infinity, which is
    the double nearest to a number that the digits of a long text spell
    beyond the range of the doubles. *)
Inductive Integer : Type :=
| IntNaN
| IntNegInf
| IntPosInf
| IntOf (z : Z).

(** A count that can be infinite: a page number, a number of documents
    to skip, a depth. *)
Inductive Count : Type :=
| Finite (z : Z)
| Infinity.

(** The values [JSON.parse] and the body parser can produce, and
    [undefined]. *)
Inductive Value : Type :=
| Undefined
| Null
| Bool (b : bool)
| Number (n : Num)
| Str (s : string)
| Arr (items : list Value)
| Obj (fields : list (string * Value)).

(** A [Date] object: a time value in milliseconds, or Invalid Date. *)
Inductive Date : Type :=
| InvalidDate
| TimeValue (t : Z).

Definition string_nonempty (s : string) : bool :=
  match s with EmptyString => false | String _ _ => true end.

(** ToBoolean. *)
Definition truthy (v : Value) : bool :=
  match v with
  | Undefined | Null => false
  | Bool b => b
  | Number NaN => false
  | Number (Fin q) => negb (Qeq_bool q 0)
  | Number _ => true
  | Str s => string_nonempty s
  | Arr _ | Obj _ => true
  end.

Fixpoint lookup (k : string) (fields : list (string * Value)) : Value :=
  match fields with
  | [] => Undefined
  | (k', v) :: rest => if String.eqb k k' then v else lookup k rest
  end.

(** [v?.k] for the keys the controllers read ([createdAt], [id]), which
    no prototype defines: an own property of an object, else
    [undefined]. *)
Definition get (v : Value) (k : string) : Value :=
  match v with
  | Obj fields => lookup k fields
  | _ => Undefined
  end.

(** Number.isFinite *)
Definition isFinite (n : Num) : bool :=
  match n with Fin _ => true | _ => false end.

(** What can be thrown: the application's [ApiError(statusCode, message)]
    or any other error object ([SyntaxError], [TypeError], [RangeError],
    a driver error with its [code]). *)
Inductive Exn : Type :=
| ApiError (statusCode : Z) (message : string)
| JsError (name : string)
| MongoError (code : Z).

Definition instanceof_ApiError (e : Exn) : bool :=
  match e with ApiError _ _ => true | _ => false end.

Inductive Result (A : Type) : Type :=
| Ok (a : A)
| Throw (e : Exn).
Arguments Ok {A} a.
Arguments Throw {A} e.

Definition bind {A B} (m : Result A) (k : A -> Result B) : Result B :=
  match m with
  | Ok a => k a
  | Throw e => Throw e
  end.

(** What a call of a built-in does: it returns, or it throws an error
    object of its own class ([SyntaxError], [TypeError], [RangeError],
    [BSONError]); a built-in never throws the application's
    [ApiError]. *)
Inductive Native (A : Type) : Type :=
| Returns (a : A)
| Raises (name : string).
Arguments Returns {A} a.
Arguments Raises {A} name.

Definition call {A} (n : Native A) : Result A :=
  match n with
  | Returns a => Ok a
  | Raises name => Throw (JsError name)
  end.

(** [try { body } catch (error) { handler }] *)
Definition try_catch {A} (body : Result A) (handler : Exn -> Result A)
  : Result A :=
  match body with
  | Ok a => Ok a
  | Throw e => handler e
  end.

End Js.

Import Js.

Declare Scope js_scope.
Delimit Scope js_scope with js.
Notation "x <- m ;; k" := (Js.bind m (fun x => k))
  (at level 61, m at next level, right associativity) : js_scope.
Notation "v ?. k" := (Js.get v k) (at level 9, k at level 0) : js_scope.
Local Open Scope js_scope.

(** A MongoDB ObjectId: twelve bytes, ordered bytewise, that is as the
    big-endian number they spell. *)
Definition ObjectId : Type := Z.

(* ================================================================== *)
(** * The built-ins the controllers call *)
(* ================================================================== *)

Record Platform : Type := {
  (** [Buffer.from(s).toString('base64')] *)
  base64_of_utf8 : string -> string;
  (** [Buffer.from(v, 'base64').toString('utf8')]; [Buffer.from] throws a
      [TypeError] on a value it cannot take *)
  utf8_of_base64 : Js.Value -> Native string;
  JSON_stringify : Js.Value -> string;
  (** [JSON.parse] throws a [SyntaxError] *)
  JSON_parse : string -> Native Js.Value;
  (** [new Date(v)] *)
  Date_new : Js.Value -> Js.Date;
  (** [Date.prototype.toISOString] of the date with time value [t];
      throws a [RangeError] outside the range of [Date] *)
  Date_toISOString : Z -> Native string;
  (** [mongoose.isValidObjectId] *)
  isValidObjectId : Js.Value -> bool;
  (** [new mongoose.Types.ObjectId(v)] *)
  ObjectId_new : Js.Value -> Native ObjectId;
  (** [ObjectId.prototype.toString] *)
  ObjectId_toString : ObjectId -> string;
  (** [Number(v)] *)
  ToNumber : Js.Value -> Js.Num;
  (** [parseInt(v, 10)] *)
  parseInt10 : Js.Value -> Js.Integer;
  (** whether the store takes [n] as the argument of [.skip(n)]: the
      server reads a skip as a 64-bit integer and answers a number it
      cannot read so with an error *)
  skip_accepted : Js.Count -> bool
}.

(* ================================================================== *)
(** * The document store: filters, sort specifications, [find] *)
(* ================================================================== *)

Module Mongo.

(** Field values of a stored document. *)
Inductive Value : Type :=
| VNull
| VBool (b : bool)
| VNum (n : Z)
| VStr (s : string)
| VDate (t : Z)
| VId (o : ObjectId).

(** A lean document of a collection with [timestamps: true]. *)
Record Doc : Type := {
  _id : ObjectId;
  createdAt : Z;
  fields : list (string * Value)
}.

Fixpoint assoc (k : string) (l : list (string * Value)) : option Value :=
  match l with
  | [] => None
  | (k', v) :: rest => if String.eqb k k' then Some v else assoc k rest
  end.

Definition getField (k : string) (d : Doc) : option Value :=
  if String.eqb k "_id" then Some (VId d.(_id))
  else if String.eqb k "createdAt" then Some (VDate d.(createdAt))
  else assoc k d.(fields).

(** BSON comparison order between types, then inside a type. *)
Definition type_rank (v : Value) : Z :=
  match v with
  | VNull => 1 | VNum _ => 2 | VStr _ => 3
  | VId _ => 4 | VBool _ => 5 | VDate _ => 6
  end.

Definition compare_value (a b : Value) : comparison :=
  match a, b with
  | VNull, VNull => Eq
  | VBool x, VBool y => Bool.compare x y
  | VNum x, VNum y => Z.compare x y
  | VStr x, VStr y => String.compare x y
  | VDate x, VDate y => Z.compare x y
  | VId x, VId y => Z.compare x y
  | _, _ => Z.compare (type_rank a) (type_rank b)
  end.

Definition same_type (a b : Value) : bool :=
  Z.eqb (type_rank a) (type_rank b).

(** [$lt], [$lte], [$gt], [$gte] *)
Inductive Op : Type := Lt_ | Lte_ | Gt_ | Gte_.

Definition op_test (op : Op) (c : comparison) : bool :=
  match op, c with
  | Lt_, Lt => true
  | Lte_, (Lt | Eq) => true
  | Gt_, Gt => true
  | Gte_, (Gt | Eq) => true
  | _, _ => false
  end.

(** A comparison operator matches only a field of the operand's type. *)
Definition op_holds (op : Op) (fv : option Value) (v : Value) : bool :=
  match fv with
  | Some a => same_type a v && op_test op (compare_value a v)
  | None => false
  end.

Definition eq_holds (fv : option Value) (v : Value) : bool :=
  match fv with
  | Some a =>
      match compare_value a v with Eq => true | _ => false end
  | None => match v with VNull => true | _ => false end
  end.

(** The condition put on one field of a filter object. *)
Inductive Cond : Type :=
| Is (v : Value)                     (* { field: v } *)
| Ops (ops : list (Op * Value))      (* { field: { $gte: a, $lte: b } } *)
| In_ (vs : list Value)              (* { field: { $in: vs } } *)
| Regex (test : string -> bool).     (* { field: /re/i }, by its test *)

Definition cond_holds (c : Cond) (fv : option Value) : bool :=
  match c with
  | Is v => eq_holds fv v
  | Ops ops => forallb (fun ov => op_holds (fst ov) fv (snd ov)) ops
  | In_ vs => existsb (eq_holds fv) vs
  | Regex test =>
      match fv with Some (VStr s) => test s | _ => false end
  end.

(** A filter object: field conditions, [{ $and: [...] }], [{ $or: [...] }]. *)
Inductive Query : Type :=
| Fields (conds : list (string * Cond))
| And_ (qs : list Query)
| Or_ (qs : list Query).

Definition keys_length (q : Query) : nat :=
  match q with
  | Fields conds => List.length conds
  | And_ _ | Or_ _ => 1%nat
  end.

Fixpoint matches (q : Query) (d : Doc) : bool :=
  match q with
  | Fields conds =>
      forallb (fun kc => cond_holds (snd kc) (getField (fst kc) d)) conds
  | And_ qs =>
      (fix all (l : list Query) : bool :=
         match l with
         | [] => true
         | q' :: r => matches q' d && all r
         end) qs
  | Or_ qs =>
      (fix any (l : list Query) : bool :=
         match l with
         | [] => false
         | q' :: r => matches q' d || any r
         end) qs
  end.

(** [find(null)] and [find({})] select every document. *)
Definition matches_opt (q : option Query) (d : Doc) : bool :=
  match q with
  | Some q' => matches q' d
  | None => true
  end.

(** A sort specification [{ k1: 1, k2: -1 }], keys in order. *)
Definition SortSpec : Type := list (string * Z).

Definition compare_field (a b : option Value) : comparison :=
  match a, b with
  | None, None => Eq
  | None, Some _ => Lt
  | Some _, None => Gt
  | Some x, Some y => compare_value x y
  end.

Fixpoint compare_by (spec : SortSpec) (a b : Doc) : comparison :=
  match spec with
  | [] => Eq
  | (k, dir) :: rest =>
      match compare_field (getField k a) (getField k b) with
      | Eq => compare_by rest a b
      | c => if Z.ltb dir 0 then CompOpp c else c
      end
  end.

Definition leb_by (spec : SortSpec) (a b : Doc) : bool :=
  match compare_by spec a b with Gt => false | _ => true end.

(** Insertion into a sorted list, before the first element that is not
    smaller. *)
Fixpoint insert_by (leb : Doc -> Doc -> bool) (x : Doc) (l : list Doc)
  : list Doc :=
  match l with
  | [] => [x]
  | y :: r => if leb x y then x :: y :: r else y :: insert_by leb x r
  end.

Definition sort_by (leb : Doc -> Doc -> bool) (l : list Doc) : list Doc :=
  fold_right (insert_by leb) [] l.

(** [.sort(spec)]: documents the specification does not tell apart stay
    in the order the collection yields them. *)
Definition sort (spec : SortSpec) (l : list Doc) : list Doc :=
  sort_by (leb_by spec) l.

(** [Model.find(q).sort(spec).skip(skip).limit(limit)] *)
Definition find (coll : list Doc) (q : option Query) (spec : SortSpec)
    (skip limit : Z) : list Doc :=
  firstn (Z.to_nat limit)
    (skipn (Z.to_nat skip) (sort spec (filter (matches_opt q) coll))).

(** [Model.find(q).sort(spec).skip(skip).limit(limit)] for a skip that
    can be infinite: then every document is skipped. *)
Definition find_from (coll : list Doc) (q : option Query) (spec : SortSpec)
    (skip : Js.Count) (limit : Z) : list Doc :=
  match skip with
  | Finite k => find coll q spec k limit
  | Infinity => []
  end.

(** [Model.countDocuments(q)] *)
Definition countDocuments (coll : list Doc) (q : option Query) : Z :=
  Z.of_nat (List.length (filter (matches_opt q) coll)).

End Mongo.

Import Mongo.

(* ================================================================== *)
(** * Cursor codec *)
(* ================================================================== *)

(** What the lister reads of a lean document. *)
Record Cursor : Type := { createdAt : Z; id : ObjectId }.

Section Codec.

Variable P : Platform.

Definition invalidCursor : Exn := ApiError 400 "Invalid cursor".

(** [encodeCursor(doc)], of the document's [createdAt] and [_id]. *)
Definition encodeCursor (doc_createdAt : Z) (doc_id : ObjectId)
  : Result string :=
  iso <- call (P.(Date_toISOString) doc_createdAt) ;;
  let payload :=
    Obj [ ("createdAt", Str iso);
          ("id", Str (P.(ObjectId_toString) doc_id)) ] in
  Ok (P.(base64_of_utf8) (P.(JSON_stringify) payload)).

Definition decodeCursor (value : Js.Value) : Result Cursor :=
  try_catch
    (text <- call (P.(utf8_of_base64) value) ;;
     decoded <- call (P.(JSON_parse) text) ;;
     if negb (truthy decoded?."createdAt") || negb (truthy decoded?."id")
     then Throw invalidCursor
     else
       match P.(Date_new) decoded?."createdAt" with
       | InvalidDate => Throw invalidCursor
       | TimeValue t =>
           if negb (P.(isValidObjectId) decoded?."id")
           then Throw invalidCursor
           else
             oid <- call (P.(ObjectId_new) decoded?."id") ;;
             Ok {| createdAt := t; id := oid |}
       end)
    (fun error =>
       if instanceof_ApiError error then Throw error
       else Throw invalidCursor).

End Codec.

(* ================================================================== *)
(** * Query composer *)
(* ================================================================== *)

(** [v === 'literal'] *)
Definition is_string (v : Js.Value) (lit : string) : bool :=
  match v with
  | Str s => String.eqb s lit
  | _ => false
  end.

Definition buildCursorFilter (cursor : option Cursor) (sortKey : Js.Value)
  : option Query :=
  match cursor with
  | None => None
  | Some cursor =>
      let isOldest := is_string sortKey "oldest" in
      Some
        (if isOldest
         then Or_ [ Fields [ ("createdAt", Ops [ (Gt_, VDate cursor.(createdAt)) ]) ];
                    Fields [ ("createdAt", Is (VDate cursor.(createdAt)));
                             ("_id", Ops [ (Gt_, VId cursor.(id)) ]) ] ]
         else Or_ [ Fields [ ("createdAt", Ops [ (Lt_, VDate cursor.(createdAt)) ]) ];
                    Fields [ ("createdAt", Is (VDate cursor.(createdAt)));
                             ("_id", Ops [ (Lt_, VId cursor.(id)) ]) ] ])
  end.

Definition combineQuery (baseQuery extraQuery : option Query)
  : option Query :=
  match extraQuery with
  | None => baseQuery
  | Some extra =>
      match baseQuery with
      | None => extraQuery
      | Some base =>
          if Nat.eqb (keys_length base) 0 then extraQuery
          else Some (And_ [base; extra])
      end
  end.

Definition buildSort (sortKey : Js.Value) : SortSpec :=
  if is_string sortKey "price_asc" then [ ("price", 1) ]
  else if is_string sortKey "price_desc" then [ ("price", -1) ]
  else if is_string sortKey "rating_desc" then [ ("rating", -1) ]
  else if is_string sortKey "oldest" then [ ("createdAt", 1) ]
  else [ ("createdAt", -1) ].

(* ================================================================== *)
(** * Paginated lister *)
(* ================================================================== *)

(** [req.query] of a list request. *)
Record ListQuery : Type := {
  page : Js.Value;
  limit : Js.Value;
  sort : Js.Value;
  cursor : Js.Value
}.

(** The [pagination] object of the response. *)
Inductive Pagination : Type :=
| CursorMode (limit : Z) (nextCursor : option string) (hasNextPage : bool)
| OffsetMode (total : Z) (page : Js.Count) (limit totalPages : Z).

(** The data of a 200 response. *)
Record Listing : Type := {
  items : list Doc;
  pagination : Pagination
}.

Definition unsupportedSort : Exn :=
  ApiError 400 "Cursor pagination supports only newest or oldest sorting".

(** [Math.ceil(a / b)] for a positive [b] *)
Definition ceil_div (a b : Z) : Z := - ((- a) / b).

Section Lister.

Variable P : Platform.

(** [Math.max(n || dflt, 1)] on the result [n] of [parseInt], for a
    positive [dflt]: NaN and 0 are falsy and give [dflt]; the maximum
    with -Infinity is 1, the maximum with Infinity is Infinity. *)
Definition or_default_max_1 (n : Js.Integer) (dflt : Z) : Js.Count :=
  match n with
  | IntNaN => Finite (Z.max dflt 1)
  | IntNegInf => Finite 1
  | IntPosInf => Infinity
  | IntOf z => Finite (Z.max (if Z.eqb z 0 then dflt else z) 1)
  end.

(** [Math.min(c, m)] *)
Definition at_most (c : Js.Count) (m : Z) : Z :=
  match c with
  | Finite z => Z.min z m
  | Infinity => m
  end.

Definition parsePagination (page limit : Js.Value) : Js.Count * Z :=
  let pageNumber := or_default_max_1 (P.(parseInt10) page) 1 in
  let limitNumber :=
    at_most (or_default_max_1 (P.(parseInt10) limit) 10) 100 in
  (pageNumber, limitNumber).

(** [(pageNumber - 1) * limitNumber] for a positive [limitNumber].  The
    product is exact; the double that the handler computes differs from
    it only from [2 ^ 53] on, and what the store makes of such a skip is
    for [skip_accepted] to say. *)
Definition skip_of (pageNumber : Js.Count) (limitNumber : Z) : Js.Count :=
  match pageNumber with
  | Finite p => Finite ((p - 1) * limitNumber)
  | Infinity => Infinity
  end.

(** What the driver throws when the server answers with an error. *)
Definition serverError : Exn := JsError "MongoServerError".

Definition cursorSortOf (sortKey : Js.Value) : SortSpec :=
  if is_string sortKey "oldest"
  then [ ("createdAt", 1); ("_id", 1) ]
  else [ ("createdAt", -1); ("_id", -1) ].

(** The pagination both list handlers run once the filter is built:
    [listProducts] from [if (cursorValue)] on, and the body of
    [getCartItemController].  [offsetSort] is the sort specification of
    the offset branch, the only place where the two differ. *)
Definition paginate (coll : list Doc) (query : option Query)
    (offsetSort : SortSpec) (req : ListQuery) : Result Listing :=
  let '(pageNumber, limitNumber) := parsePagination req.(page) req.(limit) in
  let sortKey := req.(sort) in
  let cursorValue := req.(cursor) in
  if truthy cursorValue then
    if truthy sortKey && negb (is_string sortKey "oldest")
    then Throw unsupportedSort
    else
      cursor <- decodeCursor P cursorValue ;;
      let cursorFilter := buildCursorFilter (Some cursor) sortKey in
      let finalQuery := combineQuery query cursorFilter in
      let cursorSort := cursorSortOf sortKey in
      let products := find coll finalQuery cursorSort 0 (limitNumber + 1) in
      let hasNextPage := Z.ltb limitNumber (Z.of_nat (List.length products)) in
      let products := if hasNextPage then removelast products else products in
      nextCursor <-
        (if hasNextPage then
           match rev products with
           | lastDoc :: _ =>
               c <- encodeCursor P lastDoc.(Mongo.createdAt) lastDoc.(_id) ;;
               Ok (Some c)
           | [] => Throw (JsError "TypeError")
           end
         else Ok None) ;;
      Ok {| items := products;
            pagination := CursorMode limitNumber nextCursor hasNextPage |}
  else
    let skip := skip_of pageNumber limitNumber in
    if negb (P.(skip_accepted) skip) then Throw serverError
    else
      let products := find_from coll query offsetSort skip limitNumber in
      let total := countDocuments coll query in
      Ok {| items := products;
            pagination := OffsetMode total pageNumber limitNumber
                            (ceil_div total limitNumber) |}.

(** [listProducts], given the filter [buildProductQuery] returned for
    the request. *)
Definition listProducts (coll : list Doc) (query : Query)
    (req : ListQuery) : Result Listing :=
  paginate coll (Some query) (buildSort req.(sort)) req.

(** [getCartItemController] for the signed-in user [req_user_id]. *)
Definition getCartItemController (coll : list Doc) (req_user_id : ObjectId)
    (req : ListQuery) : Result Listing :=
  let baseQuery := Fields [ ("userId", Is (VId req_user_id)) ] in
  paginate coll (Some baseQuery) [ ("createdAt", -1) ] req.

(** [parsePositiveInt(value, label)]; [None] is [undefined].  The test
    [Number.isNaN(parsed) || parsed < 1] refuses NaN, -Infinity and the
    integers below 1, and lets Infinity through. *)
Definition parsePositiveInt (value : Js.Value) (label : string)
  : Result (option Js.Count) :=
  match value with
  | Undefined | Null | Str EmptyString => Ok None
  | _ =>
      match P.(parseInt10) value with
      | IntNaN | IntNegInf =>
          Throw (ApiError 400 (label ++ " must be a positive integer")%string)
      | IntPosInf => Ok (Some Infinity)
      | IntOf parsed =>
          if Z.ltb parsed 1
          then Throw (ApiError 400 (label ++ " must be a positive integer")%string)
          else Ok (Some (Finite parsed))
      end
  end.

End Lister.

(* ================================================================== *)
(** * Category tree resolver *)
(* ================================================================== *)

Record Category : Type := {
  category_id : ObjectId;
  parentCategoryId : option ObjectId
}.

(** [Category.find({ parentCategoryId: { $in: queue } }, '_id')], then
    [children.map((child) => child._id)]. *)
Definition findChildIds (categories : list Category) (queue : list ObjectId)
  : list ObjectId :=
  map category_id
    (filter (fun c =>
               match c.(parentCategoryId) with
               | Some p => existsb (Z.eqb p) queue
               | None => false
               end) categories).

(** What the resolver returns, with the final value of its [depth]
    counter: the number of frontier expansions it made. *)
Record Descendants : Type := {
  ids : list ObjectId;
  depth : Z
}.

(** [maxDepth && depth >= maxDepth]; [None] is [undefined].  The
    counter [depth] is finite, so it never reaches an infinite
    [maxDepth]. *)
Definition depth_reached (maxDepth : option Js.Count) (depth : Z) : bool :=
  match maxDepth with
  | None => false
  | Some (Finite m) => negb (Z.eqb m 0) && Z.leb m depth
  | Some Infinity => false
  end.

(** The [while] loop of [getDescendantCategoryIds]; each unit of [fuel]
    pays for one test of the loop condition and [None] means the fuel ran
    out before the loop ended. *)
Fixpoint descend (fuel : nat) (categories : list Category)
    (maxDepth : option Js.Count) (ids queue : list ObjectId) (depth : Z)
  : option Descendants :=
  match fuel with
  | O => None
  | S fuel' =>
      if Nat.ltb 0 (List.length queue) then
        if depth_reached maxDepth depth
        then Some {| ids := ids; depth := depth |}
        else
          let childIds := findChildIds categories queue in
          if Nat.eqb (List.length childIds) 0
          then Some {| ids := ids; depth := depth |}
          else descend fuel' categories maxDepth
                 (ids ++ childIds) childIds (depth + 1)
      else Some {| ids := ids; depth := depth |}
  end.

Definition getDescendantCategoryIds (fuel : nat) (categories : list Category)
    (ancestorId : ObjectId) (maxDepth : option Js.Count)
    (includeSelf : bool) : option Descendants :=
  let ids := if includeSelf then [ancestorId] else [] in
  descend fuel categories maxDepth ids [ancestorId] 0.

(* ================================================================== *)
(** * Cart: add an item or raise its quantity *)
(* ================================================================== *)

Module Cart.

Record CartItem : Type := {
  _id : ObjectId;
  userId : ObjectId;
  productId : ObjectId;
  quantity : Z
}.

Record Product : Type := {
  product_id : ObjectId;
  countInstock : Z
}.

Record User : Type := {
  user_id : ObjectId;
  shopping_cart : list ObjectId
}.

(** The three collections the handler touches, and the next [_id] the
    driver hands out. *)
Record Store : Type := {
  cartproducts : list CartItem;
  products : list Product;
  users : list User;
  nextId : ObjectId
}.

(** A write this request made to the store. *)
Inductive Write : Type :=
| Created (item : CartItem)
| Saved (item_id : ObjectId) (quantity : Z)
| AddedToSet (user : ObjectId) (cartItemId : ObjectId).

(** What happens while the request waits on one store call: other
    requests change the store, and the call itself may be rejected
    before it reaches the store (a lost connection, a timeout), with an
    error object named by its class. *)
Record Await : Type := {
  concurrent : Store -> Store;
  rejection : option string
}.

Definition quiet : Await := {| concurrent := fun s => s; rejection := None |}.

Record State : Type := {
  store : Store;
  writes : list Write;
  schedule : list Await
}.

(** An async computation: it threads the store and may throw. *)
Definition Async (A : Type) : Type := State -> Result A * State.

Definition ret {A} (a : A) : Async A := fun st => (Ok a, st).
Definition throw {A} (e : Exn) : Async A := fun st => (Throw e, st).
Definition bind {A B} (m : Async A) (k : A -> Async B) : Async B :=
  fun st =>
    match m st with
    | (Ok a, st') => k a st'
    | (Throw e, st') => (Throw e, st')
    end.
Definition lift {A} (r : Result A) : Async A := fun st => (r, st).

(** [try { body } catch (error) { handler }]: what [body] wrote before
    it threw stays written. *)
Definition try_catch {A} (body : Async A) (handler : Exn -> Async A)
  : Async A :=
  fun st =>
    match body st with
    | (Ok a, st') => (Ok a, st')
    | (Throw e, st') => handler e st'
    end.

(** [await op]: the other requests scheduled for this wait run first,
    then the call runs on the store in one step. *)
Definition await {A} (op : Store -> Result A * Store * list Write)
  : Async A :=
  fun st =>
    let '(now, later) :=
      match st.(schedule) with
      | [] => (quiet, [])
      | a :: rest => (a, rest)
      end in
    let s1 := now.(concurrent) st.(store) in
    match now.(rejection) with
    | Some name =>
        (Throw (JsError name),
         {| store := s1; writes := st.(writes); schedule := later |})
    | None =>
        let '(r, s2, ws) := op s1 in
        (r, {| store := s2; writes := st.(writes) ++ ws; schedule := later |})
    end.

(** ** Store calls *)

(** [Product.findById(productId).select('countInstock')] *)
Definition Product_findById (pid : ObjectId) (s : Store)
  : Result (option Product) * Store * list Write :=
  (Ok (List.find (fun p => Z.eqb p.(product_id) pid) s.(products)), s, []).

Definition same_pair (uid pid : ObjectId) (c : CartItem) : bool :=
  Z.eqb c.(userId) uid && Z.eqb c.(productId) pid.

(** [CartProduct.findOne({ userId, productId })] *)
Definition CartProduct_findOne (uid pid : ObjectId) (s : Store)
  : Result (option CartItem) * Store * list Write :=
  (Ok (List.find (same_pair uid pid) s.(cartproducts)), s, []).

Definition duplicateKey : Exn := MongoError 11000.

(** The validator of [quantity] in [model/cartproduct.model.js]:
    [required: true, min: 1]; the handlers always give a quantity.  It
    runs when a document is created and when a changed [quantity] is
    saved, before the store is called.  [userId] and [productId] are
    required too, and always given. *)
Definition quantity_valid (qty : Z) : bool := Z.leb 1 qty.

Definition validationError : Exn := JsError "ValidationError".

(** [CartProduct.create({ userId, productId, quantity })].  The schema
    of [model/cartproduct.model.js] validates the document first; its
    unique index [{ userId: 1, productId: 1 }] then makes the store
    refuse a second document for the pair with the duplicate key error,
    the driver error with [code] 11000 that the handler catches. *)
Definition CartProduct_create (uid pid : ObjectId) (qty : Z) (s : Store)
  : Result CartItem * Store * list Write :=
  if negb (quantity_valid qty)
  then (Throw validationError, s, [])
  else if existsb (same_pair uid pid) s.(cartproducts)
  then (Throw duplicateKey, s, [])
  else
    let item := {| _id := s.(nextId); userId := uid;
                   productId := pid; quantity := qty |} in
    (Ok item,
     {| cartproducts := s.(cartproducts) ++ [item];
        products := s.(products);
        users := s.(users);
        nextId := s.(nextId) + 1 |},
     [Created item]).

Definition set_quantity (item_id : ObjectId) (qty : Z) (c : CartItem)
  : CartItem :=
  if Z.eqb c.(_id) item_id
  then {| _id := c.(_id); userId := c.(userId);
          productId := c.(productId); quantity := qty |}
  else c.

(** [item.quantity = qty; await item.save()]: the changed [quantity] is
    validated, then the stored document with the item's [_id] is
    updated; the call rejects when that document is gone. *)
Definition CartItem_save (item : CartItem) (qty : Z) (s : Store)
  : Result CartItem * Store * list Write :=
  if negb (quantity_valid qty)
  then (Throw validationError, s, [])
  else if existsb (fun c => Z.eqb c.(_id) item.(_id)) s.(cartproducts)
  then
    (Ok {| _id := item.(_id); userId := item.(userId);
           productId := item.(productId); quantity := qty |},
     {| cartproducts := map (set_quantity item.(_id) qty) s.(cartproducts);
        products := s.(products);
        users := s.(users);
        nextId := s.(nextId) |},
     [Saved item.(_id) qty])
  else (Throw (JsError "DocumentNotFoundError"), s, []).

Definition add_to_set (x : ObjectId) (l : list ObjectId) : list ObjectId :=
  if existsb (Z.eqb x) l then l else l ++ [x].

(** [User.findByIdAndUpdate(uid, { $addToSet: { shopping_cart: id } })] *)
Definition User_addToSet (uid cartItemId : ObjectId) (s : Store)
  : Result unit * Store * list Write :=
  (Ok tt,
   {| cartproducts := s.(cartproducts);
      products := s.(products);
      users :=
        map (fun u =>
               if Z.eqb u.(user_id) uid
               then {| user_id := u.(user_id);
                       shopping_cart := add_to_set cartItemId u.(shopping_cart) |}
               else u) s.(users);
      nextId := s.(nextId) |},
   [AddedToSet uid cartItemId]).

(** The body of a response: status, data, message. *)
Record Response : Type := {
  status : Z;
  data : CartItem;
  message : string
}.

Definition stockExceeded : Exn :=
  ApiError 400 "Requested quantity exceeds available stock".

Notation "x <~ m ;; k" := (bind m (fun x => k))
  (at level 61, m at next level, right associativity).

(** The add-or-increment half of [addToCartItemController]: all of the
    handler that follows the product lookup, with [pid] the product id
    as the store casts it, [normalizedQuantity] the quantity to add and
    [product] the product that was read. *)
Definition addOrIncrement (req_user_id pid : ObjectId)
    (normalizedQuantity : Z) (product : Product) : Async Response :=
  existingCartItem <~ await (CartProduct_findOne req_user_id pid) ;;
  match existingCartItem with
  | Some existingCartItem =>
      let updatedQuantity :=
        existingCartItem.(quantity) + normalizedQuantity in
      if Z.gtb updatedQuantity product.(countInstock)
      then throw stockExceeded
      else
        saved <~ await (CartItem_save existingCartItem updatedQuantity) ;;
        ret {| status := 200; data := saved;
               message := "Cart item quantity updated" |}
  | None =>
      if Z.gtb normalizedQuantity product.(countInstock)
      then throw stockExceeded
      else
        try_catch
          (cartItem <~ await (CartProduct_create req_user_id pid
                                normalizedQuantity) ;;
           _ <~ await (User_addToSet req_user_id cartItem.(_id)) ;;
           ret {| status := 201; data := cartItem;
                  message := "Item added to cart" |})
          (fun error =>
             match error with
             | MongoError 11000 =>
                 conflictItem <~ await (CartProduct_findOne req_user_id pid) ;;
                 match conflictItem with
                 | None => throw (ApiError 409 "Cart item already exists")
                 | Some conflictItem =>
                     let updatedQuantity :=
                       conflictItem.(quantity) + normalizedQuantity in
                     if Z.gtb updatedQuantity product.(countInstock)
                     then throw stockExceeded
                     else
                       saved <~ await (CartItem_save conflictItem
                                         updatedQuantity) ;;
                       ret {| status := 200; data := saved;
                              message := "Cart item quantity updated" |}
                 end
             | _ => throw (ApiError 500 "Failed to add item to cart")
             end)
  end.

Section Controller.

Variable P : Platform.

(** [null] is [None]. *)
Definition normalizeQuantity (value : Js.Value) : option Z :=
  match P.(ToNumber) value with
  | Fin q => Some (Qfloor q)
  | _ => None
  end.

(** [a ?? b] *)
Definition nullish_or (a : option Z) (b : Z) : Z :=
  match a with Some z => z | None => b end.

(** [req_productId] and [req_quantity] are the two fields read off
    [req.body]; [pid] is [productId] as the store casts it. *)
Definition addToCartItemController (req_user_id : ObjectId)
    (req_productId req_quantity : Js.Value) : Async Response :=
  let normalizedQuantity := nullish_or (normalizeQuantity req_quantity) 1 in
  if negb (P.(isValidObjectId) req_productId)
  then throw (ApiError 400 "Invalid product id")
  else if Z.eqb normalizedQuantity 0 || Z.ltb normalizedQuantity 1
  then throw (ApiError 400 "Quantity must be at least 1")
  else
    pid <~ lift (call (P.(ObjectId_new) req_productId)) ;;
    product <~ await (Product_findById pid) ;;
    match product with
    | None => throw (ApiError 404 "Product not found")
    | Some product =>
        addOrIncrement req_user_id pid normalizedQuantity product
    end.

End Controller.

End Cart.

(* ================================================================== *)
(** * An executable platform *)
(* ================================================================== *)

(** The built-ins, written out for byte strings, to run the handlers on
    concrete requests.  A [string] stands for the UTF-8 bytes of a
    JavaScript string.  The instance is narrower than Node in these
    places: [Number] reads decimal literals, not the [0x], [0o] and [0b]
    forms, and keeps a finite number as an exact rational, without the
    rounding of a double; [Date] parses the ISO format [toISOString]
    writes (with the shorter date-only and offset forms) and takes a day
    that the month does not have, and every other date format, as
    invalid; [isValidObjectId] and [ObjectId] take the strings of 24
    hexadecimal digits, not the other values mongoose can cast (a
    number, a string of 12 characters).  [parseInt] rounds to the
    nearest double as Node does.  The properties stated for a
    [Platform] do not depend on this instance. *)
Module Node.

Local Open Scope list_scope.

Definition chars (s : string) : list ascii := list_ascii_of_string s.
Definition text (l : list ascii) : string := string_of_list_ascii l.
Definition code (c : ascii) : Z := Z.of_N (N_of_ascii c).
Definition char (n : Z) : ascii := ascii_of_N (Z.to_N n).

Definition between (lo hi : Z) (c : ascii) : bool :=
  Z.leb lo (code c) && Z.leb (code c) hi.

Definition is_digit (c : ascii) : bool := between 48 57 c.
Definition digit_value (c : ascii) : Z := code c - 48.

Definition is_space (c : ascii) : bool :=
  Z.eqb (code c) 32 || between 9 13 c.

(** The value of a hexadecimal digit. *)
Definition hex_value (c : ascii) : option Z :=
  if is_digit c then Some (code c - 48)
  else if between 97 102 c then Some (code c - 87)
  else if between 65 70 c then Some (code c - 55)
  else None.

Definition hex_digit (n : Z) : ascii :=
  if Z.ltb n 10 then char (48 + n) else char (87 + n).

(** The number a list of decimal digits spells. *)
Definition decimal (ds : list ascii) : Z :=
  fold_left (fun acc c => 10 * acc + digit_value c) ds 0.

(** The [width] low decimal digits of [n], zero-padded. *)
Fixpoint pad (width : nat) (n : Z) : list ascii :=
  match width with
  | O => []
  | S w => pad w (n / 10) ++ [char (48 + n mod 10)]
  end.

Fixpoint digits_fuel (fuel : nat) (n : Z) : list ascii :=
  match fuel with
  | O => []
  | S f =>
      if Z.ltb n 10 then [char (48 + n)]
      else digits_fuel f (n / 10) ++ [char (48 + n mod 10)]
  end.

(** The decimal digits of a natural number. *)
Definition digits (n : Z) : list ascii :=
  digits_fuel (S (Z.to_nat (Z.log2 n))) n.

Fixpoint span (p : ascii -> bool) (l : list ascii)
  : list ascii * list ascii :=
  match l with
  | c :: r =>
      if p c then let '(a, b) := span p r in (c :: a, b) else ([], l)
  | [] => ([], [])
  end.

Fixpoint drop_while (p : ascii -> bool) (l : list ascii) : list ascii :=
  match l with
  | c :: r => if p c then drop_while p r else l
  | [] => []
  end.

Definition trim (l : list ascii) : list ascii :=
  rev (drop_while is_space (rev (drop_while is_space l))).

(** ** Base64 *)

Definition base64_alphabet : list ascii :=
  chars "ABCDEFGHIJKLMNOPQRSTUVWXYZabcdefghijklmnopqrstuvwxyz0123456789+/".

Definition sextet_char (n : Z) : ascii :=
  nth (Z.to_nat n) base64_alphabet "="%char.

Fixpoint base64_encode (bytes : list ascii) : list ascii :=
  match bytes with
  | a :: b :: c :: rest =>
      let n := code a * 65536 + code b * 256 + code c in
      sextet_char (n / 262144) :: sextet_char (n / 4096 mod 64)
        :: sextet_char (n / 64 mod 64) :: sextet_char (n mod 64)
        :: base64_encode rest
  | [a; b] =>
      let n := code a * 65536 + code b * 256 in
      [ sextet_char (n / 262144); sextet_char (n / 4096 mod 64);
        sextet_char (n / 64 mod 64); "="%char ]
  | [a] =>
      let n := code a * 65536 in
      [ sextet_char (n / 262144); sextet_char (n / 4096 mod 64);
        "="%char; "="%char ]
  | [] => []
  end.

(** The sextet of a character of the standard or the URL-safe alphabet. *)
Definition sextet_of (c : ascii) : option Z :=
  if between 65 90 c then Some (code c - 65)
  else if between 97 122 c then Some (code c - 71)
  else if is_digit c then Some (code c + 4)
  else if Z.eqb (code c) 43 || Z.eqb (code c) 45 then Some 62
  else if Z.eqb (code c) 47 || Z.eqb (code c) 95 then Some 63
  else None.

(** The sextets up to the first padding character; characters outside
    the alphabet are skipped. *)
Fixpoint sextets (l : list ascii) : list Z :=
  match l with
  | [] => []
  | c :: r =>
      if Z.eqb (code c) 61 then []
      else match sextet_of c with
           | Some n => n :: sextets r
           | None => sextets r
           end
  end.

Fixpoint base64_bytes (l : list Z) : list ascii :=
  match l with
  | a :: b :: c :: d :: rest =>
      let n := a * 262144 + b * 4096 + c * 64 + d in
      char (n / 65536) :: char (n / 256 mod 256) :: char (n mod 256)
        :: base64_bytes rest
  | [a; b; c] =>
      let n := a * 262144 + b * 4096 + c * 64 in
      [ char (n / 65536); char (n / 256 mod 256) ]
  | [a; b] =>
      let n := a * 262144 + b * 4096 in
      [ char (n / 65536) ]
  | _ => []
  end.

Definition base64_decode (l : list ascii) : list ascii :=
  base64_bytes (sextets l).

Definition base64_of_utf8 (s : string) : string :=
  text (base64_encode (chars s)).

Definition byte_of_value (v : Js.Value) : ascii :=
  match v with
  | Number (Fin q) => char (Qfloor q mod 256)
  | _ => char 0
  end.

Definition utf8_of_base64 (v : Js.Value) : Native string :=
  match v with
  | Str s => Returns (text (base64_decode (chars s)))
  | Arr items => Returns (text (map byte_of_value items))
  | _ => Raises "TypeError"
  end.

(** ** JSON *)

Definition dquote : ascii := char 34.
Definition backslash : ascii := char 92.

Definition escape (c : ascii) : list ascii :=
  let n := code c in
  if Z.eqb n 34 then [backslash; dquote]
  else if Z.eqb n 92 then [backslash; backslash]
  else if Z.eqb n 10 then [backslash; "n"%char]
  else if Z.eqb n 13 then [backslash; "r"%char]
  else if Z.eqb n 9 then [backslash; "t"%char]
  else if Z.eqb n 8 then [backslash; "b"%char]
  else if Z.eqb n 12 then [backslash; "f"%char]
  else if Z.ltb n 32
  then [backslash; "u"%char; "0"%char; "0"%char;
        hex_digit (n / 16); hex_digit (n mod 16)]
  else [c].

Definition quote (s : string) : list ascii :=
  dquote :: flat_map escape (chars s) ++ [dquote].

Fixpoint fraction (fuel : nat) (r d : Z) : list ascii :=
  match fuel with
  | O => []
  | S f =>
      if Z.eqb r 0 then []
      else char (48 + (10 * r) / d) :: fraction f ((10 * r) mod d) d
  end.

Definition number_text (q : Q) : list ascii :=
  let n := Qnum q in
  let d := Z.pos (Qden q) in
  let a := Z.abs n in
  (if Z.ltb n 0 then ["-"%char] else [])
    ++ digits (a / d)
    ++ (if Z.eqb (a mod d) 0 then []
        else "."%char :: fraction 20 (a mod d) d).

Fixpoint stringify (v : Js.Value) : list ascii :=
  match v with
  | Undefined | Null => chars "null"
  | Bool true => chars "true"
  | Bool false => chars "false"
  | Number (Fin q) => number_text q
  | Number _ => chars "null"
  | Str s => quote s
  | Arr items =>
      "["%char ::
        (fix elements (l : list Js.Value) : list ascii :=
           match l with
           | [] => []
           | [x] => stringify x
           | x :: r => stringify x ++ ","%char :: elements r
           end) items ++ ["]"%char]
  | Obj fields =>
      "{"%char ::
        (fix members (first : bool) (l : list (string * Js.Value))
           : list ascii :=
           match l with
           | [] => []
           | (_, Undefined) :: r => members first r
           | (k, x) :: r =>
               (if first then [] else [","%char])
                 ++ quote k ++ ":"%char :: stringify x ++ members false r
           end) true fields ++ ["}"%char]
  end.

Definition JSON_stringify (v : Js.Value) : string := text (stringify v).

Definition is_json_space (c : ascii) : bool :=
  let n := code c in
  Z.eqb n 32 || Z.eqb n 9 || Z.eqb n 10 || Z.eqb n 13.

Definition skip_ws (l : list ascii) : list ascii := drop_while is_json_space l.

(** The UTF-8 bytes of a code point of the basic plane. *)
Definition utf8 (cp : Z) : list ascii :=
  if Z.ltb cp 128 then [char cp]
  else if Z.ltb cp 2048 then [char (192 + cp / 64); char (128 + cp mod 64)]
  else [char (224 + cp / 4096); char (128 + cp / 64 mod 64);
        char (128 + cp mod 64)].

Definition unescape (e : ascii) : option ascii :=
  let n := code e in
  if Z.eqb n 34 || Z.eqb n 92 || Z.eqb n 47 then Some e
  else if Z.eqb n 110 then Some (char 10)
  else if Z.eqb n 114 then Some (char 13)
  else if Z.eqb n 116 then Some (char 9)
  else if Z.eqb n 98 then Some (char 8)
  else if Z.eqb n 102 then Some (char 12)
  else None.

Definition hex4 (a b c d : ascii) : option Z :=
  match hex_value a, hex_value b, hex_value c, hex_value d with
  | Some w, Some x, Some y, Some z => Some (((w * 16 + x) * 16 + y) * 16 + z)
  | _, _, _, _ => None
  end.

(** The characters of a string literal after its opening quote, up to
    the closing one; [acc] holds them in reverse. *)
Fixpoint string_body (l acc : list ascii) : option (string * list ascii) :=
  match l with
  | [] => None
  | c :: r =>
      if Z.eqb (code c) 34 then Some (text (rev acc), r)
      else if Z.eqb (code c) 92 then
        match r with
        | e :: r' =>
            match unescape e with
            | Some x => string_body r' (x :: acc)
            | None =>
                if Z.eqb (code e) 117 then
                  match r' with
                  | h1 :: h2 :: h3 :: h4 :: r'' =>
                      match hex4 h1 h2 h3 h4 with
                      | Some cp => string_body r'' (rev (utf8 cp) ++ acc)
                      | None => None
                      end
                  | _ => None
                  end
                else None
            end
        | [] => None
        end
      else if Z.ltb (code c) 32 then None
      else string_body r (c :: acc)
  end.

(** A decimal literal taken apart: sign, integer digits, fraction digits
    when there is a point, exponent. *)
Record Decimal : Type := {
  negative : bool;
  explicit_plus : bool;
  int_digits : list ascii;
  frac_digits : option (list ascii);
  exponent : Z
}.

Definition scan_decimal (l : list ascii) : option (Decimal * list ascii) :=
  let '(neg, plus, l1) :=
    match l with
    | c :: r =>
        if Z.eqb (code c) 45 then (true, false, r)
        else if Z.eqb (code c) 43 then (false, true, r)
        else (false, false, l)
    | [] => (false, false, l)
    end in
  let '(ip, l2) := span is_digit l1 in
  let '(fp, l3) :=
    match l2 with
    | c :: r =>
        if Z.eqb (code c) 46
        then let '(f, r') := span is_digit r in (Some f, r')
        else (None, l2)
    | [] => (None, l2)
    end in
  let no_digits :=
    match ip, fp with
    | [], None | [], Some [] => true
    | _, _ => false
    end in
  if no_digits then None
  else
    let with_exp (e : Z) (rest : list ascii) :=
      Some ({| negative := neg; explicit_plus := plus; int_digits := ip;
               frac_digits := fp; exponent := e |}, rest) in
    match l3 with
    | c :: r =>
        if Z.eqb (code c) 101 || Z.eqb (code c) 69 then
          let '(eneg, r1) :=
            match r with
            | s :: r' =>
                if Z.eqb (code s) 45 then (true, r')
                else if Z.eqb (code s) 43 then (false, r')
                else (false, r)
            | [] => (false, r)
            end in
          let '(ed, r2) := span is_digit r1 in
          match ed with
          | [] => None
          | _ => with_exp (if eneg then - decimal ed else decimal ed) r2
          end
        else with_exp 0 l3
    | [] => with_exp 0 l3
    end.

Definition decimal_value (d : Decimal) : Q :=
  let f := match d.(frac_digits) with Some f => f | None => [] end in
  let m := decimal (d.(int_digits) ++ f) in
  let m := if d.(negative) then - m else m in
  let e := d.(exponent) - Z.of_nat (List.length f) in
  Qred (if Z.leb 0 e then Qmake (m * 10 ^ e) 1
        else Qmake m (Z.to_pos (10 ^ (- e)))).

(** The number grammar of JSON: no plus sign, no leading zero, digits on
    both sides of a point. *)
Definition json_number (l : list ascii) : option (Q * list ascii) :=
  match scan_decimal l with
  | Some (d, rest) =>
      let int_ok :=
        match d.(int_digits) with
        | [] => false
        | [_] => true
        | c :: _ => negb (Z.eqb (code c) 48)
        end in
      let frac_ok :=
        match d.(frac_digits) with Some [] => false | _ => true end in
      if negb d.(explicit_plus) && int_ok && frac_ok
      then Some (decimal_value d, rest)
      else None
  | None => None
  end.

(** A duplicate key keeps its first place and takes the later value. *)
Fixpoint set_field (k : string) (v : Js.Value)
    (fields : list (string * Js.Value)) : list (string * Js.Value) :=
  match fields with
  | [] => [(k, v)]
  | (k', v') :: r =>
      if String.eqb k k' then (k, v) :: r else (k', v') :: set_field k v r
  end.

Definition literal (word : string) (l : list ascii) : option (list ascii) :=
  let w := chars word in
  if list_eq_dec ascii_dec (firstn (List.length w) l) w
  then Some (skipn (List.length w) l)
  else None.

Fixpoint parse_value (fuel : nat) (l : list ascii)
  : option (Js.Value * list ascii) :=
  match fuel with
  | O => None
  | S f =>
      match skip_ws l with
      | [] => None
      | c :: r =>
          let n := code c in
          if Z.eqb n 34 then
            match string_body r [] with
            | Some (s, rest) => Some (Str s, rest)
            | None => None
            end
          else if Z.eqb n 91 then
            match skip_ws r with
            | c' :: r' =>
                if Z.eqb (code c') 93 then Some (Arr [], r')
                else parse_elements f r []
            | [] => None
            end
          else if Z.eqb n 123 then
            match skip_ws r with
            | c' :: r' =>
                if Z.eqb (code c') 125 then Some (Obj [], r')
                else parse_members f r []
            | [] => None
            end
          else if Z.eqb n 110 then
            match literal "null" (c :: r) with
            | Some rest => Some (Null, rest)
            | None => None
            end
          else if Z.eqb n 116 then
            match literal "true" (c :: r) with
            | Some rest => Some (Bool true, rest)
            | None => None
            end
          else if Z.eqb n 102 then
            match literal "false" (c :: r) with
            | Some rest => Some (Bool false, rest)
            | None => None
            end
          else
            match json_number (c :: r) with
            | Some (q, rest) => Some (Number (Fin q), rest)
            | None => None
            end
      end
  end

with parse_elements (fuel : nat) (l : list ascii) (acc : list Js.Value)
  : option (Js.Value * list ascii) :=
  match fuel with
  | O => None
  | S f =>
      match parse_value f l with
      | Some (v, rest) =>
          match skip_ws rest with
          | c :: r =>
              if Z.eqb (code c) 44 then parse_elements f r (acc ++ [v])
              else if Z.eqb (code c) 93 then Some (Arr (acc ++ [v]), r)
              else None
          | [] => None
          end
      | None => None
      end
  end

with parse_members (fuel : nat) (l : list ascii)
    (acc : list (string * Js.Value)) : option (Js.Value * list ascii) :=
  match fuel with
  | O => None
  | S f =>
      match skip_ws l with
      | q :: r =>
          if Z.eqb (code q) 34 then
            match string_body r [] with
            | Some (k, rest) =>
                match skip_ws rest with
                | colon :: r1 =>
                    if Z.eqb (code colon) 58 then
                      match parse_value f r1 with
                      | Some (v, rest') =>
                          match skip_ws rest' with
                          | c :: r2 =>
                              if Z.eqb (code c) 44
                              then parse_members f r2 (set_field k v acc)
                              else if Z.eqb (code c) 125
                              then Some (Obj (set_field k v acc), r2)
                              else None
                          | [] => None
                          end
                      | None => None
                      end
                    else None
                | [] => None
                end
            | None => None
            end
          else None
      | [] => None
      end
  end.

Definition JSON_parse (s : string) : Native Js.Value :=
  let l := chars s in
  match parse_value (S (List.length l)) l with
  | Some (v, rest) =>
      match skip_ws rest with
      | [] => Returns v
      | _ => Raises "SyntaxError"
      end
  | None => Raises "SyntaxError"
  end.

(** ** Date *)

(** The calendar counts in eras of 400 years (146097 days) and in years
    that begin on a 1 March.  Month and day of the day [doy] of such a
    year, and back. *)
Definition month_day (doy : Z) : Z * Z :=
  let mp := (5 * doy + 2) / 153 in
  (if Z.ltb mp 10 then mp + 3 else mp - 9, doy - (153 * mp + 2) / 5 + 1).

Definition day_of_year (m d : Z) : Z :=
  (153 * (if Z.ltb 2 m then m - 3 else m + 9) + 2) / 5 + d - 1.

(** Year of the era, month and day of the day [doe] of an era, and
    back. *)
Definition civil_of_doe (doe : Z) : Z * Z * Z :=
  let yoe := (doe - doe / 1460 + doe / 36524 - doe / 146096) / 365 in
  let doy := doe - (365 * yoe + yoe / 4 - yoe / 100) in
  let '(m, d) := month_day doy in
  (yoe, m, d).

Definition doe_of_civil (yoe m d : Z) : Z :=
  yoe * 365 + yoe / 4 - yoe / 100 + day_of_year m d.

(** Days since 1970-01-01 of a date of the proleptic Gregorian
    calendar, and back. *)
Definition days_from_civil (y m d : Z) : Z :=
  let y' := if Z.leb m 2 then y - 1 else y in
  let era := y' / 400 in
  era * 146097 + doe_of_civil (y' - era * 400) m d - 719468.

Definition civil_from_days (z : Z) : Z * Z * Z :=
  let z' := z + 719468 in
  let era := z' / 146097 in
  let '(yoe, m, d) := civil_of_doe (z' - era * 146097) in
  let y := yoe + era * 400 in
  (if Z.leb m 2 then y + 1 else y, m, d).

Definition msPerDay : Z := 86400000.
Definition maxTime : Z := 8640000000000000.

Definition year_text (y : Z) : list ascii :=
  if Z.leb 0 y && Z.leb y 9999 then pad 4 y
  else (if Z.ltb y 0 then "-"%char else "+"%char) :: pad 6 (Z.abs y).

Definition Date_toISOString (t : Z) : Native string :=
  if Z.ltb maxTime (Z.abs t) then Raises "RangeError"
  else
    let ms := t mod msPerDay in
    let '(y, m, d) := civil_from_days (t / msPerDay) in
    Returns (text
          (year_text y ++ "-"%char :: pad 2 m ++ "-"%char :: pad 2 d
             ++ "T"%char :: pad 2 (ms / 3600000)
             ++ ":"%char :: pad 2 (ms / 60000 mod 60)
             ++ ":"%char :: pad 2 (ms / 1000 mod 60)
             ++ "."%char :: pad 3 (ms mod 1000) ++ ["Z"%char])).

(** Exactly [n] digits, as a number. *)
Definition take_digits (n : nat) (l : list ascii)
  : option (Z * list ascii) :=
  let ds := firstn n l in
  if Nat.eqb (List.length ds) n && forallb is_digit ds
  then Some (decimal ds, skipn n l)
  else None.

(** The character with code [n], when it comes next. *)
Definition expect (n : Z) (l : list ascii) : option (list ascii) :=
  match l with
  | c :: r => if Z.eqb (code c) n then Some r else None
  | [] => None
  end.

Definition is_leap (y : Z) : bool :=
  Z.eqb (y mod 4) 0 && (negb (Z.eqb (y mod 100) 0) || Z.eqb (y mod 400) 0).

Definition days_in_month (y m : Z) : Z :=
  if Z.eqb m 2 then (if is_leap y then 29 else 28)
  else if Z.eqb m 4 || Z.eqb m 6 || Z.eqb m 9 || Z.eqb m 11 then 30
  else 31.

Definition parse_year (l : list ascii) : option (Z * list ascii) :=
  match l with
  | c :: r =>
      if Z.eqb (code c) 43 then take_digits 6 r
      else if Z.eqb (code c) 45 then
        match take_digits 6 r with
        | Some (y, rest) => if Z.eqb y 0 then None else Some (- y, rest)
        | None => None
        end
      else take_digits 4 l
  | [] => None
  end.

(** [YYYY], [YYYY-MM] or [YYYY-MM-DD] *)
Definition parse_date (l : list ascii) : option (Z * list ascii) :=
  match parse_year l with
  | Some (y, l1) =>
      match expect 45 l1 with
      | Some l2 =>
          match take_digits 2 l2 with
          | Some (m, l3) =>
              if Z.leb 1 m && Z.leb m 12 then
                match expect 45 l3 with
                | Some l4 =>
                    match take_digits 2 l4 with
                    | Some (d, l5) =>
                        if Z.leb 1 d && Z.leb d (days_in_month y m)
                        then Some (days_from_civil y m d, l5)
                        else None
                    | None => None
                    end
                | None => Some (days_from_civil y m 1, l3)
                end
              else None
          | None => None
          end
      | None => Some (days_from_civil y 1 1, l1)
      end
  | None => None
  end.

(** [Z] or [+HH:mm] or [-HH:mm], in milliseconds to subtract; a time
    without offset is local time, read here as UTC. *)
Definition parse_offset (l : list ascii) : option (Z * list ascii) :=
  match l with
  | [] => Some (0, [])
  | c :: r =>
      if Z.eqb (code c) 90 then Some (0, r)
      else if Z.eqb (code c) 43 || Z.eqb (code c) 45 then
        match take_digits 2 r with
        | Some (h, r1) =>
            match expect 58 r1 with
            | Some r2 =>
                match take_digits 2 r2 with
                | Some (m, r3) =>
                    if Z.leb h 23 && Z.leb m 59 then
                      let off := h * 3600000 + m * 60000 in
                      Some (if Z.eqb (code c) 43 then off else - off, r3)
                    else None
                | None => None
                end
            | None => None
            end
        | None => None
        end
      else None
  end.

(** [THH:mm], [THH:mm:ss] or [THH:mm:ss.sss], then the offset. *)
Definition parse_time (l : list ascii) : option (Z * list ascii) :=
  match take_digits 2 l with
  | Some (h, l1) =>
      match expect 58 l1 with
      | Some l2 =>
          match take_digits 2 l2 with
          | Some (mi, l3) =>
              let '(sec, l4) :=
                match expect 58 l3 with
                | Some r =>
                    match take_digits 2 r with
                    | Some (x, r') => (Some x, r')
                    | None => (None, l3)
                    end
                | None => (Some 0, l3)
                end in
              let '(ms, l5) :=
                match expect 46 l4 with
                | Some r =>
                    match take_digits 3 r with
                    | Some (x, r') => (Some x, r')
                    | None => (None, l4)
                    end
                | None => (Some 0, l4)
                end in
              match sec, ms with
              | Some sec, Some ms =>
                  let in_day := ((h * 60 + mi) * 60 + sec) * 1000 + ms in
                  if Z.leb mi 59 && Z.leb sec 59
                     && (Z.leb h 23 || Z.eqb in_day msPerDay) then
                    match parse_offset l5 with
                    | Some (off, rest) => Some (in_day - off, rest)
                    | None => None
                    end
                  else None
              | _, _ => None
              end
          | None => None
          end
      | None => None
      end
  | None => None
  end.

Definition Date_parse (s : string) : Js.Date :=
  match parse_date (chars s) with
  | Some (days, rest) =>
      let finish (t : Z) :=
        if Z.leb (Z.abs t) maxTime then TimeValue t else InvalidDate in
      match rest with
      | [] => finish (days * msPerDay)
      | c :: r =>
          if Z.eqb (code c) 84 then
            match parse_time r with
            | Some (ms, []) => finish (days * msPerDay + ms)
            | _ => InvalidDate
            end
          else InvalidDate
      end
  | None => InvalidDate
  end.

(** [new Date(v)]: a string is parsed, a primitive is taken as a time
    value. *)
Definition Date_new (v : Js.Value) : Js.Date :=
  match v with
  | Str s => Date_parse s
  | Number (Fin q) =>
      let t := Z.quot (Qnum q) (Z.pos (Qden q)) in
      if Z.leb (Z.abs t) maxTime then TimeValue t else InvalidDate
  | Bool b => TimeValue (if b then 1 else 0)
  | Null => TimeValue 0
  | _ => InvalidDate
  end.

(** ** ObjectId *)

Definition is_hex (c : ascii) : bool :=
  match hex_value c with Some _ => true | None => false end.

Definition hex_number (l : list ascii) : Z :=
  fold_left
    (fun acc c => 16 * acc + match hex_value c with Some n => n | None => 0 end)
    l 0.

Fixpoint hex_pad (width : nat) (n : Z) : list ascii :=
  match width with
  | O => []
  | S w => hex_pad w (n / 16) ++ [hex_digit (n mod 16)]
  end.

(** A string of 24 hexadecimal digits. *)
Definition isValidObjectId (v : Js.Value) : bool :=
  match v with
  | Str s => Nat.eqb (List.length (chars s)) 24 && forallb is_hex (chars s)
  | _ => false
  end.

Definition ObjectId_new (v : Js.Value) : Native ObjectId :=
  match v with
  | Str s =>
      if isValidObjectId v then Returns (hex_number (chars s))
      else Raises "BSONError"
  | _ => Raises "BSONError"
  end.

Definition ObjectId_toString (o : ObjectId) : string :=
  text (hex_pad 24 (o mod 2 ^ 96)).

(** ** Number and parseInt *)

Definition StringToNumber (s : string) : Js.Num :=
  let l := trim (chars s) in
  match l with
  | [] => Fin 0
  | _ =>
      if list_eq_dec ascii_dec l (chars "Infinity") then PosInf
      else if list_eq_dec ascii_dec l (chars "+Infinity") then PosInf
      else if list_eq_dec ascii_dec l (chars "-Infinity") then NegInf
      else
        match scan_decimal l with
        | Some (d, []) => Fin (decimal_value d)
        | _ => NaN
        end
  end.

Definition ToNumber (v : Js.Value) : Js.Num :=
  match v with
  | Undefined => NaN
  | Null => Fin 0
  | Bool b => Fin (if b then 1 else 0)
  | Number n => n
  | Str s => StringToNumber s
  | Arr [] => Fin 0
  | Arr [Number n] => n
  | Arr [Str s] => StringToNumber s
  | Arr _ | Obj _ => NaN
  end.

(** The double nearest to an integer, ties to even: an integer that
    takes at most 53 bits is a double; of a longer one the leading 53
    bits are kept and rounded; from [2 ^ 1024] on the result is an
    infinity. *)
Definition nearest_double (z : Z) : Js.Integer :=
  let a := Z.abs z in
  if Z.ltb a (2 ^ 53) then IntOf z
  else
    let e := Z.log2 a - 52 in
    let q := Z.shiftr a e in
    let r := a - Z.shiftl q e in
    let half := 2 ^ (e - 1) in
    let q' :=
      if Z.ltb r half then q
      else if Z.ltb half r then q + 1
      else if Z.even q then q else q + 1 in
    let v := Z.shiftl q' e in
    if Z.leb (2 ^ 1024) v
    then (if Z.ltb z 0 then IntNegInf else IntPosInf)
    else IntOf (if Z.ltb z 0 then - v else v).

Definition parse_int (l : list ascii) : Js.Integer :=
  let l0 := drop_while is_space l in
  let '(neg, l1) :=
    match l0 with
    | c :: r =>
        if Z.eqb (code c) 45 then (true, r)
        else if Z.eqb (code c) 43 then (false, r)
        else (false, l0)
    | [] => (false, l0)
    end in
  match fst (span is_digit l1) with
  | [] => IntNaN
  | ds => nearest_double (if neg then - decimal ds else decimal ds)
  end.

(** [parseInt(v, 10)] of a text, of an array that begins with a text,
    and of a finite number whose decimal text has no exponent. *)
Definition parseInt10 (v : Js.Value) : Js.Integer :=
  match v with
  | Str s => parse_int (chars s)
  | Arr (Str s :: _) => parse_int (chars s)
  | Number (Fin q) => IntOf (Z.quot (Qnum q) (Z.pos (Qden q)))
  | _ => IntNaN
  end.

(** A skip is taken when it is a 64-bit integer that is not negative. *)
Definition skip_accepted (n : Js.Count) : bool :=
  match n with
  | Finite k => Z.leb 0 k && Z.ltb k (2 ^ 63)
  | Infinity => false
  end.

Definition platform : Platform :=
  Build_Platform base64_of_utf8 utf8_of_base64 JSON_stringify JSON_parse
    Date_new Date_toISOString isValidObjectId ObjectId_new ObjectId_toString
    ToNumber parseInt10 skip_accepted.

End Node.

(* ================================================================== *)
(** * What it means for a cursor token to be defective *)
(* ================================================================== *)

Section CursorJudgement.

Variable P : Platform.

(** The object a token carries: the base64 text decoded and parsed. *)
Definition payload (value : Js.Value) : Result Js.Value :=
  text <- call (P.(utf8_of_base64) value) ;;
  call (P.(JSON_parse) text).

(** A token is well formed when it carries an object with a [createdAt]
    and an [id]. *)
Definition well_formed (value : Js.Value) : Prop :=
  exists decoded,
    payload value = Ok decoded
    /\ truthy decoded?."createdAt" = true
    /\ truthy decoded?."id" = true.

(** The three defects of a token. *)
Inductive cursor_defect (value : Js.Value) : Prop :=
| not_well_formed :
    ~ well_formed value -> cursor_defect value
| bad_timestamp (decoded : Js.Value) :
    payload value = Ok decoded ->
    P.(Date_new) decoded?."createdAt" = InvalidDate ->
    cursor_defect value
| bad_identifier (decoded : Js.Value) :
    payload value = Ok decoded ->
    P.(isValidObjectId) decoded?."id" = false ->
    cursor_defect value.

(** The built-ins of [P] undo each other on the cursor of the instant
    [t] and the identifier [oid]: [t] is in the range of [Date], its ISO
    text parses back to [t], the identifier's text is a valid identifier
    that converts back to [oid], and the payload survives
    [JSON.stringify]/[JSON.parse] and the base64 coding, whose text is
    not empty. *)
Definition faithful_at (t : Z) (oid : ObjectId) : Prop :=
  exists iso,
    let hex := P.(ObjectId_toString) oid in
    let object := Obj [ ("createdAt", Str iso); ("id", Str hex) ] in
    let json := P.(JSON_stringify) object in
    P.(Date_toISOString) t = Returns iso
    /\ string_nonempty iso = true
    /\ P.(Date_new) (Str iso) = TimeValue t
    /\ string_nonempty hex = true
    /\ P.(isValidObjectId) (Str hex) = true
    /\ P.(ObjectId_new) (Str hex) = Returns oid
    /\ P.(JSON_parse) json = Returns object
    /\ string_nonempty (P.(base64_of_utf8) json) = true
    /\ P.(utf8_of_base64) (Str (P.(base64_of_utf8) json)) = Returns json.

End CursorJudgement.

(** The keyset condition in plain terms: the document comes strictly
    after the cursor in descending, respectively ascending, order of
    [(createdAt, _id)]. *)
Definition after_cursor (oldest : bool) (c : Cursor) (d : Doc) : bool :=
  if oldest
  then Z.ltb c.(createdAt) d.(Mongo.createdAt)
       || (Z.eqb d.(Mongo.createdAt) c.(createdAt) && Z.ltb c.(id) d.(_id))
  else Z.ltb d.(Mongo.createdAt) c.(createdAt)
       || (Z.eqb d.(Mongo.createdAt) c.(createdAt) && Z.ltb d.(_id) c.(id)).

(* ================================================================== *)
(** * A client walking through a listing *)
(* ================================================================== *)

Section Walks.

Variable P : Platform.
Variable coll : list Doc.
Variable query : Query.

(** The [limit] parameter of every request of the walk. *)
Variable lim : Js.Value.

(** How the client writes a page number. *)
Variable show : Z -> Js.Value.

Definition offsetRequest (p : Z) : ListQuery :=
  {| page := show p; limit := lim; sort := Undefined; cursor := Undefined |}.

Definition cursorRequest (c : Js.Value) : ListQuery :=
  {| page := Undefined; limit := lim; sort := Undefined; cursor := c |}.

(** Pages [p], [p + 1], ... up to [totalPages], concatenated; [None]
    when a request fails or the fuel runs out. *)
Fixpoint offsetWalk (fuel : nat) (p : Z) : option (list Doc) :=
  match fuel with
  | O => None
  | S fuel' =>
      match listProducts P coll query (offsetRequest p) with
      | Ok listing =>
          match listing.(pagination) with
          | OffsetMode _ _ _ totalPages =>
              if Z.ltb p totalPages
              then option_map (app listing.(items)) (offsetWalk fuel' (p + 1))
              else Some listing.(items)
          | CursorMode _ _ _ => Some listing.(items)
          end
      | Throw _ => None
      end
  end.

(** The page the request with cursor parameter [c] returns, then the
    pages reached by following [nextCursor] while [hasNextPage] holds,
    concatenated. *)
Fixpoint followCursor (fuel : nat) (c : Js.Value) : option (list Doc) :=
  match fuel with
  | O => None
  | S fuel' =>
      match listProducts P coll query (cursorRequest c) with
      | Ok listing =>
          match listing.(pagination) with
          | CursorMode _ (Some next) true =>
              option_map (app listing.(items)) (followCursor fuel' (Str next))
          | _ => Some listing.(items)
          end
      | Throw _ => None
      end
  end.

(** The walk of the claim: start without a cursor. *)
Definition cursorWalk (fuel : nat) : option (list Doc) :=
  followCursor fuel Undefined.

(** The walk the handler supports: the first page comes from a request
    without cursor, which is answered in offset mode; when it says there
    are more pages, the client encodes the cursor of the page's last
    item itself and follows [nextCursor] from there. *)
Definition resumedWalk (fuel : nat) : option (list Doc) :=
  match listProducts P coll query (offsetRequest 1) with
  | Ok listing =>
      match listing.(pagination), rev listing.(items) with
      | OffsetMode _ _ _ totalPages, lastDoc :: _ =>
          if Z.ltb 1 totalPages then
            match encodeCursor P lastDoc.(Mongo.createdAt) lastDoc.(_id) with
            | Ok token =>
                option_map (app listing.(items)) (followCursor fuel (Str token))
            | Throw _ => None
            end
          else Some listing.(items)
      | _, _ => Some listing.(items)
      end
  | Throw _ => None
  end.

End Walks.

(* ================================================================== *)
(** * Notions used to state the properties *)
(* ================================================================== *)

(** ** The two sort specifications of the newest-first listing *)

Definition newest_first (a b : Doc) : bool :=
  Z.leb b.(Mongo.createdAt) a.(Mongo.createdAt).

(** Strictly newest first. *)
Definition newer (a b : Doc) : Prop := b.(Mongo.createdAt) < a.(Mongo.createdAt).

Definition cursor_of (d : Doc) : Cursor :=
  {| createdAt := d.(Mongo.createdAt); id := d.(_id) |}.

(** The order of counts: every integer is below Infinity. *)
Definition count_le (a b : Js.Count) : Prop :=
  match a, b with
  | Finite x, Finite y => x <= y
  | _, Infinity => True
  | Infinity, Finite _ => False
  end.

Definition count_lt (a b : Js.Count) : Prop :=
  match a, b with
  | Finite x, Finite y => x < y
  | Finite _, Infinity => True
  | Infinity, _ => False
  end.

(** The page size every request of a walk gets. *)
Definition limitNumber (P : Platform) (lim : Js.Value) : Z :=
  snd (parsePagination P Undefined lim).

(** The whole listing, newest first. *)
Definition listing (coll : list Doc) (query : Query) : list Doc :=
  Mongo.sort (buildSort Undefined) (filter (matches query) coll).

(** What makes a day of a year that begins in March a valid month and
    day that convert back; day 365 is the 29 February that ends a leap
    year. *)
Definition doy_ok (doy : Z) : bool :=
  let '(m, d) := Node.month_day doy in
  Z.leb 1 m && Z.leb m 12 && Z.leb 1 d
  && (Z.leb d (Node.days_in_month 1 m)
      || (Z.eqb doy 365 && Z.eqb m 2 && Z.eqb d 29))
  && Z.eqb (Node.day_of_year m d) doy.

(** The characters a JSON string literal carries as they are. *)
Definition plain (c : ascii) : bool :=
  Z.leb 32 (Node.code c)
  && negb (Z.eqb (Node.code c) 34) && negb (Z.eqb (Node.code c) 92).

(** ** The cart handler's writes *)

Module CartSpec.

Import Cart.

(** The quantity a write stores is at most [stock]. *)
Definition within (stock : Z) (w : Write) : Prop :=
  match w with
  | Created item => item.(quantity) <= stock
  | Saved _ qty => qty <= stock
  | AddedToSet _ _ => True
  end.

(** The store after the other requests of the first [n] waits ran, and
    nothing else. *)
Fixpoint others (n : nat) (sched : list Await) (s : Store) : Store :=
  match n, sched with
  | S n', a :: rest => others n' rest (a.(concurrent) s)
  | _, _ => s
  end.

(** [effect m Q]: from any state, [m] appends some writes [ws] to the
    log and consumes some waits; when it wrote nothing the store is what
    the other requests made of it; and [Q] holds of the result and
    [ws]. *)
Definition effect {A} (m : Async A) (Q : Result A -> list Write -> Prop)
  : Prop :=
  forall st,
  exists ws n,
    (snd (m st)).(writes) = st.(writes) ++ ws
    /\ (snd (m st)).(schedule) = skipn n st.(schedule)
    /\ (ws = [] -> (snd (m st)).(store) = others n st.(schedule) st.(store))
    /\ Q (fst (m st)) ws.

(** What the capacity check guarantees of a run: every quantity it
    wrote is within the stock, and a run that ends in the stock error
    wrote nothing. *)
Definition checked (stock : Z) (r : Result Response) (ws : list Write)
  : Prop :=
  Forall (within stock) ws /\ (r = Throw stockExceeded -> ws = []).

(** A race: user 1 adds product 7 (stock 5) to an empty cart; while the
    handler waits for [create], another request of the same user inserts
    the pair, and while it waits for the second read the item is removed
    again. *)
Definition product7 : Product := {| product_id := 7; countInstock := 5 |}.

Definition empty_cart : Store :=
  {| cartproducts := []; products := [product7];
     users := [ {| user_id := 1; shopping_cart := [] |} ]; nextId := 100 |}.

Definition insert_by_other : Await :=
  {| concurrent := fun s =>
       {| cartproducts :=
            s.(cartproducts)
              ++ [ {| _id := 99; userId := 1; productId := 7; quantity := 2 |} ];
          products := s.(products); users := s.(users);
          nextId := s.(nextId) |};
     rejection := None |}.

Definition remove_by_other : Await :=
  {| concurrent := fun s =>
       {| cartproducts :=
            filter (fun c => negb (same_pair 1 7 c)) s.(cartproducts);
          products := s.(products); users := s.(users);
          nextId := s.(nextId) |};
     rejection := None |}.

Definition race (last : Await) : State :=
  {| store := empty_cart; writes := [];
     schedule := [quiet; insert_by_other; last] |}.

(** The increment the existing-item path and the retry share: capacity
    check, then one [save]. *)
Definition increment (item : CartItem) (n stock : Z) : Async Response :=
  if Z.gtb (item.(quantity) + n) stock
  then throw stockExceeded
  else
    saved <~ await (CartItem_save item (item.(quantity) + n)) ;;
    ret {| status := 200; data := saved;
           message := "Cart item quantity updated" |}.

(** The state after a wait during which this request wrote nothing. *)
Definition waited (a : Await) (st : State) : State :=
  {| store := a.(concurrent) st.(store); writes := st.(writes);
     schedule := tl st.(schedule) |}.

Definition idle (s : Store) : State :=
  {| store := s; writes := []; schedule := [] |}.

Definition product7_id : Js.Value := Str "000000000000000000000007".

End CartSpec.

(** ** Sample data *)

(** A token that is well formed but names no valid ObjectId. *)
Definition token_with_bad_id : string :=
  Node.base64_of_utf8
    (Node.JSON_stringify
       (Obj [ ("createdAt", Str "2024-01-01T00:00:00.000Z");
              ("id", Str "not-an-object-id") ])).

(** The parent chain [a -> b -> c -> d]: [a] is a root, each next one
    has the previous one as its parent. *)
Definition chain (a b c d : ObjectId) : list Category :=
  [ {| category_id := a; parentCategoryId := None |};
    {| category_id := b; parentCategoryId := Some a |};
    {| category_id := c; parentCategoryId := Some b |};
    {| category_id := d; parentCategoryId := Some c |} ].

(** A two-cycle [1 -> 2 -> 1] with a leaf [3] under [2]. *)
Definition cyclic_categories : list Category :=
  [ {| category_id := 1; parentCategoryId := Some 2 |};
    {| category_id := 2; parentCategoryId := Some 1 |};
    {| category_id := 3; parentCategoryId := Some 2 |} ].

(** A page number as a query string carries it: its decimal digits. *)
Definition show_page (p : Z) : Js.Value := Str (Node.text (Node.digits p)).

Definition doc (oid : ObjectId) (t : Z) : Doc :=
  {| _id := oid; Mongo.createdAt := t; fields := [] |}.

(** Five products with distinct creation times, in insertion order. *)
Definition five_products : list Doc :=
  [ doc 0x65a1b2c3d4e5f60718293a01 1705000000000;
    doc 0x65a1b2c3d4e5f60718293a02 1705000003000;
    doc 0x65a1b2c3d4e5f60718293a03 1705000002000;
    doc 0x65a1b2c3d4e5f60718293a04 1705000005000;
    doc 0x65a1b2c3d4e5f60718293a05 1705000004000 ].

(** Two products created in the same millisecond. *)
Definition tied_products : list Doc :=
  [ doc 0x65a1b2c3d4e5f60718293a01 1705000000000;
    doc 0x65a1b2c3d4e5f60718293a02 1705000000000 ].

Definition everything : Query := Fields [].


(* ================================================================== *)
(** * Cart: change a quantity, remove an item, clear the cart *)
(* ================================================================== *)

Module CartEdit.

Import Cart.

(** The filter [{ _id: cartItemId, userId: req.user._id }]. *)
Definition owned_item (cid uid : ObjectId) (c : CartItem) : bool :=
  Z.eqb c.(_id) cid && Z.eqb c.(userId) uid.

(** [CartProduct.findOne({ _id: cartItemId, userId: req.user._id })] *)
Definition CartProduct_findOwned (cid uid : ObjectId) (s : Store)
  : Result (option CartItem) * Store * list Write :=
  (Ok (List.find (owned_item cid uid) s.(cartproducts)), s, []).

Fixpoint remove_first (p : CartItem -> bool) (l : list CartItem)
  : list CartItem :=
  match l with
  | [] => []
  | c :: r => if p c then r else c :: remove_first p r
  end.

(** [CartProduct.findOneAndDelete({ _id: cartItemId, userId })]: the first
    document the filter selects is removed and returned.  A removal
    stores no quantity, so the log of written quantities gets no entry. *)
Definition CartProduct_findOneAndDelete (cid uid : ObjectId) (s : Store)
  : Result (option CartItem) * Store * list Write :=
  (Ok (List.find (owned_item cid uid) s.(cartproducts)),
   {| cartproducts := remove_first (owned_item cid uid) s.(cartproducts);
      products := s.(products);
      users := s.(users);
      nextId := s.(nextId) |},
   []).

(** [User.findByIdAndUpdate(uid, { $pull: { shopping_cart: id } })] *)
Definition User_pull (uid cartItemId : ObjectId) (s : Store)
  : Result unit * Store * list Write :=
  (Ok tt,
   {| cartproducts := s.(cartproducts);
      products := s.(products);
      users :=
        map (fun u =>
               if Z.eqb u.(user_id) uid
               then {| user_id := u.(user_id);
                       shopping_cart :=
                         filter (fun x => negb (Z.eqb x cartItemId))
                           u.(shopping_cart) |}
               else u) s.(users);
      nextId := s.(nextId) |},
   []).

(** [CartProduct.deleteMany({ userId })]; the result is its
    [deletedCount]. *)
Definition CartProduct_deleteMany (uid : ObjectId) (s : Store)
  : Result Z * Store * list Write :=
  (Ok (Z.of_nat
         (List.length
            (filter (fun c => Z.eqb c.(userId) uid) s.(cartproducts)))),
   {| cartproducts :=
        filter (fun c => negb (Z.eqb c.(userId) uid)) s.(cartproducts);
      products := s.(products);
      users := s.(users);
      nextId := s.(nextId) |},
   []).

(** [User.findByIdAndUpdate(uid, { $set: { shopping_cart: [] } })] *)
Definition User_emptyCart (uid : ObjectId) (s : Store)
  : Result unit * Store * list Write :=
  (Ok tt,
   {| cartproducts := s.(cartproducts);
      products := s.(products);
      users :=
        map (fun u =>
               if Z.eqb u.(user_id) uid
               then {| user_id := u.(user_id); shopping_cart := [] |}
               else u) s.(users);
      nextId := s.(nextId) |},
   []).

(** The body of the response of [clearCartController]. *)
Record Cleared : Type := {
  cleared_status : Z;
  deletedCount : Z;
  cleared_message : string
}.

Section Controllers.

Variable P : Platform.

(** [req_cartItemId] is [req.params.cartItemId], [req_quantity] is
    [req.body.quantity]; [cid] is the id as the store casts it. *)
Definition updateCartItemQuantityController (req_user_id : ObjectId)
    (req_cartItemId req_quantity : Js.Value) : Async Response :=
  let normalizedQuantity := normalizeQuantity P req_quantity in
  if negb (P.(isValidObjectId) req_cartItemId)
  then throw (ApiError 400 "Invalid cart item id")
  else
    match normalizedQuantity with
    | None => throw (ApiError 400 "Quantity must be at least 1")
    | Some normalizedQuantity =>
        if Z.eqb normalizedQuantity 0 || Z.ltb normalizedQuantity 1
        then throw (ApiError 400 "Quantity must be at least 1")
        else
          cid <~ lift (call (P.(ObjectId_new) req_cartItemId)) ;;
          cartItem <~ await (CartProduct_findOwned cid req_user_id) ;;
          match cartItem with
          | None => throw (ApiError 404 "Cart item not found")
          | Some cartItem =>
              product <~ await (Product_findById cartItem.(productId)) ;;
              match product with
              | None => throw (ApiError 404 "Product not found")
              | Some product =>
                  if Z.gtb normalizedQuantity product.(countInstock)
                  then throw stockExceeded
                  else
                    saved <~ await (CartItem_save cartItem
                                      normalizedQuantity) ;;
                    ret {| status := 200; data := saved;
                           message := "Cart item quantity updated" |}
              end
          end
    end.

Definition deleteCartItemQuantityController (req_user_id : ObjectId)
    (req_cartItemId : Js.Value) : Async Response :=
  if negb (P.(isValidObjectId) req_cartItemId)
  then throw (ApiError 400 "Invalid cart item id")
  else
    cid <~ lift (call (P.(ObjectId_new) req_cartItemId)) ;;
    cartItem <~ await (CartProduct_findOneAndDelete cid req_user_id) ;;
    match cartItem with
    | None => throw (ApiError 404 "Cart item not found")
    | Some cartItem =>
        _ <~ await (User_pull req_user_id cartItem.(_id)) ;;
        ret {| status := 200; data := cartItem;
               message := "Cart item removed" |}
    end.

End Controllers.

Definition clearCartController (req_user_id : ObjectId) : Async Cleared :=
  result <~ await (CartProduct_deleteMany req_user_id) ;;
  _ <~ await (User_emptyCart req_user_id) ;;
  ret {| cleared_status := 200; deletedCount := result;
         cleared_message := "Cart cleared" |}.

End CartEdit.

(** ** What the cart handlers leave of a store *)

Module CartEditSpec.

Import Cart CartSpec CartEdit.

(** The [shopping_cart] of the user [uid]; empty when there is no such
    user. *)
Definition cart_of (uid : ObjectId) (s : Store) : list ObjectId :=
  match List.find (fun u => Z.eqb u.(user_id) uid) s.(users) with
  | Some u => u.(shopping_cart)
  | None => []
  end.

(** The cart items and the users other than [uid]. *)
Definition items_of_others (uid : ObjectId) (s : Store) : list CartItem :=
  filter (fun c => negb (Z.eqb c.(userId) uid)) s.(cartproducts).

Definition other_users (uid : ObjectId) (s : Store) : list User :=
  filter (fun u => negb (Z.eqb u.(user_id) uid)) s.(users).

(** The store [after] holds of the other users what [s] holds: their
    cart items in the same order, their user documents; and the same
    products. *)
Definition untouched (uid : ObjectId) (s after : Store) : Prop :=
  items_of_others uid after = items_of_others uid s
  /\ other_users uid after = other_users uid s
  /\ after.(products) = s.(products).

(** The id the store hands out next is not in use. *)
Definition fresh_id (s : Store) : Prop :=
  (forall c, In c s.(cartproducts) -> c.(_id) <> s.(nextId))
  /\ (forall u, In u s.(users) -> ~ In s.(nextId) u.(shopping_cart)).

(** A store with the carts of two users. *)
Definition two_carts : Store :=
  {| cartproducts :=
       [ {| _id := 11; userId := 1; productId := 7; quantity := 2 |};
         {| _id := 12; userId := 2; productId := 7; quantity := 1 |};
         {| _id := 13; userId := 1; productId := 8; quantity := 4 |} ];
     products := [ product7; {| product_id := 8; countInstock := 9 |} ];
     users := [ {| user_id := 1; shopping_cart := [11; 13] |};
                {| user_id := 2; shopping_cart := [12] |} ];
     nextId := 100 |}.

End CartEditSpec.

(* ================================================================== *)
(** * A client that pages by cursor under a sort key *)
(* ================================================================== *)

Section KeyedWalk.

Variable P : Platform.
Variable coll : list Doc.
Variable query : Query.
Variable lim : Js.Value.
Variable sortKey : Js.Value.

Definition keyedRequest (c : Js.Value) : ListQuery :=
  {| page := Undefined; limit := lim; sort := sortKey; cursor := c |}.

(** The page the request with cursor parameter [c] and sort key
    [sortKey] returns, then the pages reached by following [nextCursor]
    while [hasNextPage] holds, concatenated. *)
Fixpoint followNextCursor (fuel : nat) (c : Js.Value) : option (list Doc) :=
  match fuel with
  | O => None
  | S fuel' =>
      match listProducts P coll query (keyedRequest c) with
      | Ok listing =>
          match listing.(pagination) with
          | CursorMode _ (Some next) true =>
              option_map (app listing.(items))
                (followNextCursor fuel' (Str next))
          | _ => Some listing.(items)
          end
      | Throw _ => None
      end
  end.

End KeyedWalk.

(** The order of cursor mode: by [createdAt], ties broken by [_id],
    both ascending for ['oldest'] and both descending otherwise. *)
Definition keyset_leb (oldest : bool) (a b : Doc) : bool :=
  if Z.eqb a.(Mongo.createdAt) b.(Mongo.createdAt)
  then (if oldest then Z.leb a.(_id) b.(_id) else Z.leb b.(_id) a.(_id))
  else (if oldest
        then Z.leb a.(Mongo.createdAt) b.(Mongo.createdAt)
        else Z.leb b.(Mongo.createdAt) a.(Mongo.createdAt)).

(** The listing that cursor mode pages through under [sortKey]. *)
Definition keyset_listing (coll : list Doc) (query : Query)
    (sortKey : Js.Value) : list Doc :=
  Mongo.sort (cursorSortOf sortKey) (filter (matches query) coll).

(** Three products, two of them created in the same millisecond. *)
Definition products_with_tie : list Doc :=
  [ doc 0x65a1b2c3d4e5f60718293a01 1705000000000;
    doc 0x65a1b2c3d4e5f60718293a02 1705000000000;
    doc 0x65a1b2c3d4e5f60718293a03 1705000001000 ].

(** Cart items of two users as the lister sees them. *)
Definition cart_doc (oid : ObjectId) (t : Z) (uid : ObjectId) : Doc :=
  {| _id := oid; Mongo.createdAt := t; fields := [ ("userId", VId uid) ] |}.

Definition cart_docs : list Doc :=
  [ cart_doc 11 1705000000000 1;
    cart_doc 12 1705000001000 2;
    cart_doc 13 1705000002000 1 ].

(** ** Descendants of a category *)

(** [reaches categories a k x]: [x] is [a] itself and [k] is 0, or [x]
    is the id of a category whose parent is reached in [k - 1] steps:
    following [parentCategoryId] from [x] leads to [a] in [k] steps. *)
Inductive reaches (categories : list Category) (a : ObjectId)
  : nat -> ObjectId -> Prop :=
| reaches_self : reaches categories a 0 a
| reaches_child (k : nat) (c : Category) (p : ObjectId) :
    In c categories ->
    c.(parentCategoryId) = Some p ->
    reaches categories a k p ->
    reaches categories a (S k) c.(category_id).

(** The ids the store returns at the [k]-th expansion from [a]. *)
Fixpoint frontier (categories : list Category) (a : ObjectId) (k : nat)
  : list ObjectId :=
  match k with
  | O => [a]
  | S k' => findChildIds categories (frontier categories a k')
  end.

(* ================================================================== *)
(** * Text helpers of the product controller *)
(* ================================================================== *)

(** The characters of the class [[.*+?^${}()|[\]\\]]: the syntax
    characters of a regular expression. *)
Definition regex_special (c : ascii) : bool :=
  existsb (Z.eqb (Node.code c))
    [46; 42; 43; 63; 94; 36; 123; 125; 40; 41; 124; 91; 93; 92].

(** [value.replace(/[.*+?^${}()|[\]\\]/g, '\\$&')] *)
Definition escapeRegex (value : string) : string :=
  Node.text
    (flat_map (fun c => if regex_special c then [Node.backslash; c] else [c])
       (Node.chars value)).

(** [s.split(sep)] for a separator of one character: the pieces between
    the separators, at least one. *)
Fixpoint split_on (sep : ascii) (l : list ascii) : list (list ascii) :=
  match l with
  | [] => [[]]
  | c :: r =>
      if Z.eqb (Node.code c) (Node.code sep) then [] :: split_on sep r
      else
        match split_on sep r with
        | piece :: pieces => (c :: piece) :: pieces
        | [] => [[c]]
        end
  end.

(** [getPublicIdFromUrl(url)] of [utils/cloudinary.js], for an image url
    as a product stores it; [None] is [null]. *)
Definition getPublicIdFromUrl (url : string) : option string :=
  if negb (string_nonempty url) then None
  else
    let parts := split_on "/"%char (Node.chars url) in
    let fileName := last parts [] in
    let publicId := hd [] (split_on "."%char fileName) in
    Some (Node.text publicId).

(** ** Reading an escaped pattern *)

(** The text a pattern matches literally, when the pattern is made of
    characters that stand for themselves and of syntax characters behind
    a backslash; [None] when a syntax character stands unescaped. *)
Fixpoint pattern_literal (l : list ascii) : option (list ascii) :=
  match l with
  | [] => Some []
  | c :: r =>
      if Z.eqb (Node.code c) 92 then
        match r with
        | e :: r' =>
            if regex_special e
            then option_map (cons e) (pattern_literal r')
            else None
        | [] => None
        end
      else if regex_special c then None
      else option_map (cons c) (pattern_literal r)
  end.

(** No character of the text is [c]. *)
Definition free_of (c : ascii) (l : list ascii) : bool :=
  forallb (fun x => negb (Z.eqb (Node.code x) (Node.code c))) l.

(* ================================================================== *)
(** * [String.prototype.trim] *)
(* ================================================================== *)

Module Text.

(** The UTF-8 bytes of the code points [trim] strips: the white space of
    ECMAScript (TAB, VT, FF, SP, NBSP, ZWNBSP and the space separators)
    and its line terminators (LF, CR, LS, PS). *)
Definition spaces : list (list Z) :=
  [ [32]; [9]; [10]; [11]; [12]; [13];
    [194; 160];
    [225; 154; 128];
    [226; 128; 128]; [226; 128; 129]; [226; 128; 130]; [226; 128; 131];
    [226; 128; 132]; [226; 128; 133]; [226; 128; 134]; [226; 128; 135];
    [226; 128; 136]; [226; 128; 137]; [226; 128; 138];
    [226; 128; 168]; [226; 128; 169]; [226; 128; 175];
    [226; 129; 159];
    [227; 128; 128];
    [239; 187; 191] ].

(** What is left of [l] after the bytes [bytes], when it starts with
    them. *)
Fixpoint after_bytes (bytes : list Z) (l : list ascii)
  : option (list ascii) :=
  match bytes, l with
  | [], _ => Some l
  | b :: bs, c :: r => if Z.eqb (Node.code c) b then after_bytes bs r else None
  | _ :: _, [] => None
  end.

(** What is left after one of the byte sequences [seqs], the first that
    fits. *)
Fixpoint after_one (seqs : list (list Z)) (l : list ascii)
  : option (list ascii) :=
  match seqs with
  | [] => None
  | bytes :: rest =>
      match after_bytes bytes l with
      | Some r => Some r
      | None => after_one rest l
      end
  end.

Fixpoint drop_all (seqs : list (list Z)) (fuel : nat) (l : list ascii)
  : list ascii :=
  match fuel with
  | O => l
  | S f =>
      match after_one seqs l with
      | Some r => drop_all seqs f r
      | None => l
      end
  end.

Definition trimStart (l : list ascii) : list ascii :=
  drop_all spaces (List.length l) l.

Definition trimEnd (l : list ascii) : list ascii :=
  rev (drop_all (map (@rev Z) spaces) (List.length l) (rev l)).

Definition trim (s : string) : string :=
  Node.text (trimEnd (trimStart (Node.chars s))).

End Text.

(** [normalizeArray(value)]; the items of a comma-separated text are
    trimmed and the empty ones dropped. *)
Definition normalizeArray (value : Js.Value) : Js.Value :=
  match value with
  | Arr items => Arr items
  | Str s =>
      Arr (map Str
             (filter string_nonempty
                (map (fun item => Text.trim (Node.text item))
                   (split_on ","%char (Node.chars s)))))
  | _ => Undefined
  end.

(** [items.join(sep)] *)
Fixpoint join_with (sep : ascii) (items : list string) : list ascii :=
  match items with
  | [] => []
  | [item] => Node.chars item
  | item :: rest => Node.chars item ++ sep :: join_with sep rest
  end.

(** An item as [normalizeArray] leaves it: not empty, without white
    space at either end, without a comma. *)
Definition clean_item (item : string) : Prop :=
  string_nonempty item = true
  /\ Text.trim item = item
  /\ free_of ","%char (Node.chars item) = true.

(* ================================================================== *)
(** * Products: remove an image, remove a product *)
(* ================================================================== *)

Module Images.

(** What the handler reads of a product document. *)
Record ProductDoc : Type := {
  product_id : ObjectId;
  images : list string
}.

(** The products, and the assets the handler has asked Cloudinary to
    destroy, each by [folder/publicId]. *)
Record Catalogue : Type := {
  products : list ProductDoc;
  destroy_requests : list string
}.

(** The body of a response that carries a product. *)
Record Response : Type := {
  status : Z;
  data : ProductDoc;
  message : string
}.

(** [a || b] *)
Definition or_else (a b : Js.Value) : Js.Value :=
  if truthy a then a else b.

(** [images.includes(imageUrl)]: an image is a string, so only a string
    can be among the images. *)
Definition includes (imgs : list string) (imageUrl : Js.Value) : bool :=
  match imageUrl with
  | Str url => existsb (String.eqb url) imgs
  | _ => false
  end.

(** [img !== imageUrl] *)
Definition differs (imageUrl : Js.Value) (img : string) : bool :=
  match imageUrl with
  | Str url => negb (String.eqb img url)
  | _ => true
  end.

(** [deleteFromCloudinary(publicId, folder)]: it asks for the asset
    [folder/publicId] to be destroyed and never throws. *)
Definition deleteFromCloudinary (publicId folder : string) (s : Catalogue)
  : Catalogue :=
  {| products := s.(products);
     destroy_requests :=
       s.(destroy_requests) ++ [(folder ++ "/" ++ publicId)%string] |}.

(** The validator of [images] in [model/product.model.js]:
    [Array.isArray(value) && value.length > 0]. *)
Definition images_valid (imgs : list string) : bool :=
  Nat.ltb 0 (List.length imgs).

(** [product.images = imgs; await product.save()]: the validator of the
    changed path runs first; a document that passes replaces the stored
    one. *)
Definition Product_save (product : ProductDoc) (imgs : list string)
    (s : Catalogue) : Result ProductDoc * Catalogue :=
  if images_valid imgs then
    let saved := {| product_id := product.(product_id); images := imgs |} in
    (Ok saved,
     {| products :=
          map (fun p => if Z.eqb p.(product_id) product.(product_id)
                        then saved else p) s.(products);
        destroy_requests := s.(destroy_requests) |})
  else (Throw (JsError "ValidationError"), s).

(** [Product.findByIdAndDelete(id)]: the first product with the id is
    removed. *)
Fixpoint remove_product (pid : ObjectId) (l : list ProductDoc)
  : list ProductDoc :=
  match l with
  | [] => []
  | p :: r => if Z.eqb p.(product_id) pid then r else p :: remove_product pid r
  end.

Definition Product_findByIdAndDelete (pid : ObjectId) (s : Catalogue)
  : Catalogue :=
  {| products := remove_product pid s.(products);
     destroy_requests := s.(destroy_requests) |}.

(** The body of the response of [deleteProduct], whose [data] is
    [null]. *)
Record Deleted : Type := {
  deleted_status : Z;
  deleted_message : string
}.

Section Handler.

Variable P : Platform.

(** The four request values are [req.body.productId],
    [req.query.productId], [req.body.imageUrl] and
    [req.query.imageUrl]. *)
Definition deleteProductImage
    (body_productId query_productId body_imageUrl query_imageUrl : Js.Value)
    (s : Catalogue) : Result Response * Catalogue :=
  let productId := or_else body_productId query_productId in
  let imageUrl := or_else body_imageUrl query_imageUrl in
  if negb (truthy productId) || negb (truthy imageUrl)
  then (Throw (ApiError 400 "productId and imageUrl are required"), s)
  else if negb (P.(isValidObjectId) productId)
  then (Throw (ApiError 400 "Invalid product id"), s)
  else
    match call (P.(ObjectId_new) productId) with
    | Throw e => (Throw e, s)
    | Ok pid =>
        match List.find (fun p => Z.eqb p.(product_id) pid) s.(products) with
        | None => (Throw (ApiError 404 "Product not found"), s)
        | Some product =>
            if Nat.eqb (List.length product.(images)) 0
            then (Throw (ApiError 400 "Product has no images"), s)
            else if negb (includes product.(images) imageUrl)
            then (Throw (ApiError 404 "Image not found in this product"), s)
            else if Nat.leb (List.length product.(images)) 1
            then (Throw (ApiError 400
                           "Cannot delete the last image of a product"), s)
            else
              let publicId :=
                match imageUrl with
                | Str url => getPublicIdFromUrl url
                | _ => None
                end in
              let s1 :=
                match publicId with
                | Some publicId =>
                    if string_nonempty publicId
                    then deleteFromCloudinary publicId "products" s
                    else s
                | None => s
                end in
              match Product_save product
                      (filter (differs imageUrl) product.(images)) s1 with
              | (Ok saved, s2) =>
                  (Ok {| status := 200; data := saved;
                         message := "Image deleted successfully" |}, s2)
              | (Throw e, s2) => (Throw e, s2)
              end
        end
    end.

(** [deleteProduct]; [id] is [req.params.id].  Every image whose public
    id is not empty is asked to be destroyed, in the order of the
    images, before the product is removed. *)
Definition deleteProduct (id : Js.Value) (s : Catalogue)
  : Result Deleted * Catalogue :=
  if negb (P.(isValidObjectId) id)
  then (Throw (ApiError 400 "Invalid product id"), s)
  else
    match call (P.(ObjectId_new) id) with
    | Throw e => (Throw e, s)
    | Ok pid =>
        match List.find (fun p => Z.eqb p.(product_id) pid) s.(products) with
        | None => (Throw (ApiError 404 "Product not found"), s)
        | Some product =>
            let s1 :=
              fold_left
                (fun acc imageUrl =>
                   match getPublicIdFromUrl imageUrl with
                   | Some publicId =>
                       if string_nonempty publicId
                       then deleteFromCloudinary publicId "products" acc
                       else acc
                   | None => acc
                   end)
                product.(images) s in
            (Ok {| deleted_status := 200;
                   deleted_message := "Product deleted successfully" |},
             Product_findByIdAndDelete pid s1)
        end
    end.

End Handler.

End Images.

(** A product whose two images are the same url. *)
Definition twice_the_same_image : Images.Catalogue :=
  {| Images.products :=
       [ {| Images.product_id := 7;
            Images.images := [ "https://cdn.example/products/a1.jpg";
                               "https://cdn.example/products/a1.jpg" ] |} ];
     Images.destroy_requests := [] |}.

(* ================================================================== *)
(** * The filter of a product listing *)
(* ================================================================== *)

Module Catalog.

(** An id as a handler holds it: a value of the request, or an ObjectId
    read from the store. *)
Inductive IdArg : Type :=
| IdValue (v : Js.Value)
| IdObject (o : ObjectId).

(** The condition on [category]: [{ $in: categoryIds }] or the id. *)
Inductive CategoryCond : Type :=
| CategoryIn (ids : list ObjectId)
| CategoryIs (id : IdArg).

(** [{ $gte, $lte }], each key present or not. *)
Record Range : Type := {
  gte : option Js.Num;
  lte : option Js.Num
}.

(** The object [buildProductQuery] returns, key by key; [None] is a key
    that is not set.  [name] holds the source of the regular expression,
    whose flag is [i]. *)
Record ProductQuery : Type := {
  category : option CategoryCond;
  price : option Range;
  rating : option Js.Num;
  isfeatured : option bool;
  name : option string
}.

(** The argument of [buildProductQuery]; [minPrice], [maxPrice] and
    [minRating] are what [parseNumber] returned, [None] for
    [undefined]. *)
Record FilterArgs : Type := {
  arg_categoryId : IdArg;
  arg_categoryIds : option (list ObjectId);
  arg_minPrice : option Js.Num;
  arg_maxPrice : option Js.Num;
  arg_minRating : option Js.Num;
  arg_featured : Js.Value;
  arg_search : Js.Value
}.

Definition truthy_id (i : IdArg) : bool :=
  match i with
  | IdValue v => truthy v
  | IdObject _ => true
  end.

(** [v !== undefined] *)
Definition defined (v : Js.Value) : bool :=
  match v with Undefined => false | _ => true end.

Definition buildProductQuery (args : FilterArgs) : Result ProductQuery :=
  let category :=
    match args.(arg_categoryIds) with
    | Some (id :: ids) => Some (CategoryIn (id :: ids))
    | _ =>
        if truthy_id args.(arg_categoryId)
        then Some (CategoryIs args.(arg_categoryId))
        else None
    end in
  let price :=
    match args.(arg_minPrice), args.(arg_maxPrice) with
    | None, None => None
    | lo, hi => Some {| gte := lo; lte := hi |}
    end in
  let rating := args.(arg_minRating) in
  let isfeatured :=
    if defined args.(arg_featured)
    then Some (is_string args.(arg_featured) "true"
               || match args.(arg_featured) with
                  | Bool true => true
                  | _ => false
                  end)
    else None in
  if truthy args.(arg_search) then
    match args.(arg_search) with
    | Str search =>
        Ok {| category := category; price := price; rating := rating;
              isfeatured := isfeatured;
              name := Some (escapeRegex (Text.trim search)) |}
    | _ => Throw (JsError "TypeError")
    end
  else
    Ok {| category := category; price := price; rating := rating;
          isfeatured := isfeatured; name := None |}.

(** [req.query] of a product listing, beyond the paging fields. *)
Record Params : Type := {
  categoryId : Js.Value;
  ancestorCategoryId : Js.Value;
  ancestorCategoryName : Js.Value;
  maxDepth : Js.Value;
  includeSelf : Js.Value;
  minPrice : Js.Value;
  maxPrice : Js.Value;
  minRating : Js.Value;
  featured : Js.Value;
  search : Js.Value
}.

(** The [overrides] a route handler passes to [listProducts];
    [Undefined] is a key that is not set. *)
Record Overrides : Type := {
  over_categoryId : IdArg;
  over_ancestorCategoryId : Js.Value;
  over_ancestorCategoryName : Js.Value;
  over_minPrice : Js.Value;
  over_maxPrice : Js.Value;
  over_minRating : Js.Value;
  over_featured : Js.Value;
  over_search : Js.Value
}.

Definition no_overrides : Overrides :=
  {| over_categoryId := IdValue Undefined;
     over_ancestorCategoryId := Undefined;
     over_ancestorCategoryName := Undefined;
     over_minPrice := Undefined; over_maxPrice := Undefined;
     over_minRating := Undefined; over_featured := Undefined;
     over_search := Undefined |}.

(** [a ?? b] *)
Definition nullish (v : Js.Value) : bool :=
  match v with Undefined | Null => true | _ => false end.

Definition coalesce (a b : Js.Value) : Js.Value :=
  if nullish a then b else a.

Definition coalesce_id (a : IdArg) (b : Js.Value) : IdArg :=
  match a with
  | IdValue v => if nullish v then IdValue b else a
  | IdObject _ => a
  end.

Section Handlers.

Variable P : Platform.

(** The categories, and [Category.findOne({ name: regex })] for a
    regular expression with flag [i], given by its source. *)
Variable categories : list Category.
Variable Category_findOne_name : string -> option ObjectId.

(** [validateObjectId(value, message)] *)
Definition validateObjectId (value : IdArg) (message : string)
  : Result unit :=
  match value with
  | IdObject _ => Ok tt
  | IdValue v =>
      if P.(isValidObjectId) v then Ok tt else Throw (ApiError 400 message)
  end.

(** The id as the store casts it. *)
Definition cast_id (value : IdArg) : Result ObjectId :=
  match value with
  | IdObject o => Ok o
  | IdValue v => call (P.(ObjectId_new) v)
  end.

Definition parseNumber (value : Js.Value) (label : string)
  : Result (option Js.Num) :=
  match value with
  | Undefined | Null | Str EmptyString => Ok None
  | _ =>
      match P.(ToNumber) value with
      | NaN => Throw (ApiError 400 (label ++ " must be a number")%string)
      | parsed => Ok (Some parsed)
      end
  end.

Definition findCategoryIdByName (name : Js.Value) : Result ObjectId :=
  let trimmed :=
    match name with
    | Str s => Text.trim s
    | _ => EmptyString
    end in
  if negb (string_nonempty trimmed)
  then Throw (ApiError 400 "Category name is required")
  else
    let regex := ("^" ++ escapeRegex trimmed ++ "$")%string in
    match Category_findOne_name regex with
    | None => Throw (ApiError 404 "Category not found")
    | Some id => Ok id
    end.

(** The descendants [listProducts] asks for once it holds the
    ancestor's id: [maxDepth] is parsed, then the resolver runs; the
    store casts the id with its first query.  [None] when the fuel runs
    out. *)
Definition descendantsOf (fuel : nat) (q : Params) (ancestor : IdArg)
  : option (Result (list ObjectId)) :=
  match parsePositiveInt P q.(maxDepth) "maxDepth" with
  | Throw e => Some (Throw e)
  | Ok maxDepth =>
      let includeSelf := negb (is_string q.(includeSelf) "false") in
      match cast_id ancestor with
      | Throw e => Some (Throw e)
      | Ok ancestorId =>
          match getDescendantCategoryIds fuel categories ancestorId maxDepth
                  includeSelf with
          | Some r => Some (Ok r.(ids))
          | None => None
          end
      end
  end.

(** [listProducts] up to the call of [buildProductQuery]: the filter of
    a request.  [None] when the fuel of the resolver runs out. *)
Definition requestQuery (fuel : nat) (over : Overrides) (q : Params)
  : option (Result ProductQuery) :=
  let categoryId := coalesce_id over.(over_categoryId) q.(categoryId) in
  let ancestorCategoryId :=
    coalesce over.(over_ancestorCategoryId) q.(ancestorCategoryId) in
  let ancestorCategoryName :=
    coalesce over.(over_ancestorCategoryName) q.(ancestorCategoryName) in
  if truthy_id categoryId
     && (truthy ancestorCategoryId || truthy ancestorCategoryName)
  then Some (Throw (ApiError 400
                      "Use either categoryId or ancestorCategoryId, not both"))
  else
    match (if truthy_id categoryId
           then validateObjectId categoryId "Invalid category id"
           else Ok tt) with
    | Throw e => Some (Throw e)
    | Ok _ =>
        match (if truthy ancestorCategoryId
               then validateObjectId (IdValue ancestorCategoryId)
                      "Invalid ancestor category id"
               else Ok tt) with
        | Throw e => Some (Throw e)
        | Ok _ =>
            let resolved : option (Result (option (list ObjectId))) :=
              if truthy ancestorCategoryName then
                match findCategoryIdByName ancestorCategoryName with
                | Throw e => Some (Throw e)
                | Ok resolvedId =>
                    option_map
                      (fun r => x <- r ;; Ok (Some x))
                      (descendantsOf fuel q (IdObject resolvedId))
                end
              else if truthy ancestorCategoryId then
                option_map
                  (fun r => x <- r ;; Ok (Some x))
                  (descendantsOf fuel q (IdValue ancestorCategoryId))
              else Some (Ok None) in
            match resolved with
            | None => None
            | Some (Throw e) => Some (Throw e)
            | Some (Ok categoryIds) =>
                Some
                  (minPrice <-
                     parseNumber (coalesce over.(over_minPrice) q.(minPrice))
                       "minPrice" ;;
                   maxPrice <-
                     parseNumber (coalesce over.(over_maxPrice) q.(maxPrice))
                       "maxPrice" ;;
                   minRating <-
                     parseNumber
                       (coalesce over.(over_minRating) q.(minRating))
                       "minRating" ;;
                   buildProductQuery
                     {| arg_categoryId := categoryId;
                        arg_categoryIds := categoryIds;
                        arg_minPrice := minPrice;
                        arg_maxPrice := maxPrice;
                        arg_minRating := minRating;
                        arg_featured :=
                          coalesce over.(over_featured) q.(featured);
                        arg_search :=
                          coalesce over.(over_search) q.(search) |})
            end
        end
    end.

(** The filters of the route handlers, which call [listProducts], most
    of them with overrides; [id] is [req.params.id] and [name] is
    [req.query.name]. *)
Definition getAllProducts (fuel : nat) (q : Params)
  : option (Result ProductQuery) :=
  requestQuery fuel no_overrides q.

Definition getAllProductsByCatName (fuel : nat) (name : Js.Value)
    (q : Params) : option (Result ProductQuery) :=
  match findCategoryIdByName name with
  | Throw e => Some (Throw e)
  | Ok categoryId =>
      requestQuery fuel
        {| over_categoryId := IdObject categoryId;
           over_ancestorCategoryId := Undefined;
           over_ancestorCategoryName := Undefined;
           over_minPrice := Undefined; over_maxPrice := Undefined;
           over_minRating := Undefined; over_featured := Undefined;
           over_search := Undefined |} q
  end.

Definition getAllProductsByPrice (fuel : nat) (q : Params)
  : option (Result ProductQuery) :=
  requestQuery fuel
    {| over_categoryId := IdValue Undefined;
       over_ancestorCategoryId := Undefined;
       over_ancestorCategoryName := Undefined;
       over_minPrice := q.(minPrice); over_maxPrice := q.(maxPrice);
       over_minRating := Undefined; over_featured := Undefined;
       over_search := Undefined |} q.

Definition getAllProductsByRating (fuel : nat) (q : Params)
  : option (Result ProductQuery) :=
  requestQuery fuel
    {| over_categoryId := IdValue Undefined;
       over_ancestorCategoryId := Undefined;
       over_ancestorCategoryName := Undefined;
       over_minPrice := Undefined; over_maxPrice := Undefined;
       over_minRating := q.(minRating); over_featured := Undefined;
       over_search := Undefined |} q.

Definition getAllProductsByCatId (fuel : nat) (id : Js.Value) (q : Params)
  : option (Result ProductQuery) :=
  match validateObjectId (IdValue id) "Invalid category id" with
  | Throw e => Some (Throw e)
  | Ok _ =>
      requestQuery fuel
        {| over_categoryId := IdValue id;
           over_ancestorCategoryId := Undefined;
           over_ancestorCategoryName := Undefined;
           over_minPrice := Undefined; over_maxPrice := Undefined;
           over_minRating := Undefined; over_featured := Undefined;
           over_search := Undefined |} q
  end.

Definition getAllFeaturedProducts (fuel : nat) (q : Params)
  : option (Result ProductQuery) :=
  requestQuery fuel
    {| over_categoryId := IdValue Undefined;
       over_ancestorCategoryId := Undefined;
       over_ancestorCategoryName := Undefined;
       over_minPrice := Undefined; over_maxPrice := Undefined;
       over_minRating := Undefined; over_featured := Bool true;
       over_search := Undefined |} q.

End Handlers.

End Catalog.

(** A request for the products under the descendants of category 40,
    the leaf of the chain [10 -> 20 -> 30 -> 40], without the category
    itself. *)
Definition below_the_leaf : Catalog.Params :=
  {| Catalog.categoryId := Undefined;
     Catalog.ancestorCategoryId := Str "000000000000000000000028";
     Catalog.ancestorCategoryName := Undefined;
     Catalog.maxDepth := Undefined;
     Catalog.includeSelf := Str "false";
     Catalog.minPrice := Undefined;
     Catalog.maxPrice := Undefined;
     Catalog.minRating := Undefined;
     Catalog.featured := Undefined;
     Catalog.search := Undefined |}.

(** A text of 400 digits: the number it spells is beyond the doubles. *)
Definition long_digits : Js.Value := Str (Node.text (repeat "9"%char 400)).

(** Category 40 as its own parent, which an update of the category's
    [parentCategoryId] to its own id stores. *)
Definition own_parent : list Category :=
  [ {| category_id := 40; parentCategoryId := Some 40 |} ].

(** A request for the products under category 40 with the long digits
    as [maxDepth]. *)
Definition deep_request : Catalog.Params :=
  {| Catalog.categoryId := Undefined;
     Catalog.ancestorCategoryId := Str "000000000000000000000028";
     Catalog.ancestorCategoryName := Undefined;
     Catalog.maxDepth := long_digits;
     Catalog.includeSelf := Undefined;
     Catalog.minPrice := Undefined;
     Catalog.maxPrice := Undefined;
     Catalog.minRating := Undefined;
     Catalog.featured := Undefined;
     Catalog.search := Undefined |}.

(** A filter without any condition. *)
Definition no_condition : Catalog.ProductQuery :=
  {| Catalog.category := None; Catalog.price := None;
     Catalog.rating := None; Catalog.isfeatured := None;
     Catalog.name := None |}.

(** A request with a price floor, a rating floor, [featured=false] and a
    search text with a syntax character. *)
Definition priced_search : Catalog.Params :=
  {| Catalog.categoryId := Undefined;
     Catalog.ancestorCategoryId := Undefined;
     Catalog.ancestorCategoryName := Undefined;
     Catalog.maxDepth := Undefined;
     Catalog.includeSelf := Undefined;
     Catalog.minPrice := Str "10";
     Catalog.maxPrice := Undefined;
     Catalog.minRating := Str "4";
     Catalog.featured := Str "false";
     Catalog.search := Str " a.b " |}.

(** The filter of [priced_search] on a route that fixes [category] and
    [isfeatured] as given. *)
Definition priced_filter (category : option Catalog.CategoryCond)
    (isfeatured : bool) : Catalog.ProductQuery :=
  {| Catalog.category := category;
     Catalog.price :=
       Some {| Catalog.gte := Some (Fin 10); Catalog.lte := None |};
     Catalog.rating := Some (Fin 4);
     Catalog.isfeatured := Some isfeatured;
     Catalog.name := Some "a\.b" |}.


(* ================================================================== *)
(** * Properties of the cursor codec *)
(* ================================================================== *)

Section CodecFacts.

Variable P : Platform.

Lemma decodeCursor_throws_only_invalidCursor (value : Js.Value) (e : Exn) :
  decodeCursor P value = Throw e -> e = invalidCursor.
Proof.
  unfold decodeCursor, try_catch, Js.bind, call.
  destruct (P.(utf8_of_base64) value) as [text|e1].
  2:{ simpl; intros H; inversion H; reflexivity. }
  destruct (P.(JSON_parse) text) as [decoded|e2].
  2:{ simpl; intros H; inversion H; reflexivity. }
  destruct (negb (truthy decoded?."createdAt") || negb (truthy decoded?."id")).
  { simpl; intros H; inversion H; reflexivity. }
  destruct (P.(Date_new) decoded?."createdAt").
  { simpl; intros H; inversion H; reflexivity. }
  destruct (negb (P.(isValidObjectId) decoded?."id")).
  { simpl; intros H; inversion H; reflexivity. }
  destruct (P.(ObjectId_new) decoded?."id") as [oid|e3].
  { discriminate. }
  simpl; intros H; inversion H; reflexivity.
Qed.

(** What a successful decode tells about the token. *)
Lemma decodeCursor_ok_inv (value : Js.Value) (c : Cursor) :
  decodeCursor P value = Ok c ->
  exists decoded,
    payload P value = Ok decoded
    /\ truthy decoded?."createdAt" = true
    /\ truthy decoded?."id" = true
    /\ P.(Date_new) decoded?."createdAt" = TimeValue c.(createdAt)
    /\ P.(isValidObjectId) decoded?."id" = true
    /\ P.(ObjectId_new) decoded?."id" = Returns c.(id).
Proof.
  unfold decodeCursor, payload, try_catch, Js.bind, call.
  destruct (P.(utf8_of_base64) value) as [text|e1].
  2:{ discriminate. }
  destruct (P.(JSON_parse) text) as [decoded|e2].
  2:{ discriminate. }
  destruct (truthy decoded?."createdAt") eqn:Hc; simpl; [|discriminate].
  destruct (truthy decoded?."id") eqn:Hi; simpl; [|discriminate].
  destruct (P.(Date_new) decoded?."createdAt") eqn:Hd; [discriminate|].
  destruct (P.(isValidObjectId) decoded?."id") eqn:Hv; simpl; [|discriminate].
  destruct (P.(ObjectId_new) decoded?."id") as [oid|e3] eqn:Ho.
  2:{ discriminate. }
  intros H; inversion H; subst; simpl.
  exists decoded; repeat split; auto.
Qed.

(** C6. Whatever the token and whatever the built-ins do with it, a
    token that is not well formed, or whose timestamp is not a valid
    instant, or whose identifier is not a valid ObjectId, makes
    [decodeCursor] throw [ApiError(400, 'Invalid cursor')]; no other
    exception ever leaves [decodeCursor], and it returns a cursor only
    for a token without defect. *)
Theorem decodeCursor_rejects_defective (value : Js.Value) :
  cursor_defect P value ->
  decodeCursor P value = Throw invalidCursor
  /\ (forall e, decodeCursor P value = Throw e -> e = invalidCursor)
  /\ (forall c, decodeCursor P value <> Ok c).
Proof.
  intros Hdefect.
  assert (Hno : forall c, decodeCursor P value <> Ok c).
  { intros c Hok.
    destruct (decodeCursor_ok_inv _ Hok)
      as (decoded & Hp & Hc & Hi & Hd & Hv & _).
    destruct Hdefect as [Hwf | d Hp' Hbad | d Hp' Hbad].
    - apply Hwf. exists decoded. auto.
    - rewrite Hp in Hp'. inversion Hp'; subst. congruence.
    - rewrite Hp in Hp'. inversion Hp'; subst. congruence. }
  split; [|split]; auto.
  - destruct (decodeCursor P value) as [c|e] eqn:Hdec.
    + exfalso. apply (Hno c). reflexivity.
    + f_equal. apply decodeCursor_throws_only_invalidCursor with (value := value).
      exact Hdec.
  - apply decodeCursor_throws_only_invalidCursor.
Qed.

(** The token of a faithful pair is a truthy value, so a request that
    carries it is served in cursor mode, and it decodes to the pair. *)
Lemma token_roundtrip (t : Z) (oid : ObjectId) :
  faithful_at P t oid ->
  exists token,
    encodeCursor P t oid = Ok token
    /\ truthy (Str token) = true
    /\ decodeCursor P (Str token) = Ok {| createdAt := t; id := oid |}.
Proof.
  intros (iso & Hiso & Hne & Hdate & Hhne & Hvalid & Hnew & Hjson & Hfull
          & Hb64).
  unfold encodeCursor. rewrite Hiso. simpl.
  eexists. split; [reflexivity|]. split; [exact Hfull|].
  unfold decodeCursor. rewrite Hb64. simpl. rewrite Hjson. simpl.
  rewrite Hne, Hhne. simpl.
  rewrite Hdate, Hvalid. simpl. rewrite Hnew. reflexivity.
Qed.

(** C5. For an instant and an identifier on which the built-ins are
    faithful, [encodeCursor] returns a token and [decodeCursor] gives
    back exactly the pair. *)
Theorem decode_encode_roundtrip (t : Z) (oid : ObjectId) :
  faithful_at P t oid ->
  exists token,
    encodeCursor P t oid = Ok token
    /\ decodeCursor P (Str token) = Ok {| createdAt := t; id := oid |}.
Proof.
  intros Hfaithful.
  destruct (token_roundtrip Hfaithful) as (token & Henc & _ & Hdec).
  exists token. split; assumption.
Qed.

End CodecFacts.


Lemma decodeCursor_rejects_defective_witness :
  cursor_defect Node.platform (Str token_with_bad_id)
  /\ decodeCursor Node.platform (Str token_with_bad_id) = Throw invalidCursor.
Proof.
  assert (H : cursor_defect Node.platform (Str token_with_bad_id)).
  { apply bad_identifier
      with (decoded := Obj [ ("createdAt", Str "2024-01-01T00:00:00.000Z");
                             ("id", Str "not-an-object-id") ]);
      vm_compute; reflexivity. }
  split; [exact H|].
  exact (proj1 (decodeCursor_rejects_defective H)).
Defined.

Lemma decode_encode_roundtrip_witness :
  faithful_at Node.platform 1700000000123 0x656565656565656565656565
  /\ exists token,
       encodeCursor Node.platform 1700000000123 0x656565656565656565656565
         = Ok token
       /\ decodeCursor Node.platform (Str token)
          = Ok {| createdAt := 1700000000123;
                  id := 0x656565656565656565656565 |}.
Proof.
  assert (H : faithful_at Node.platform 1700000000123 0x656565656565656565656565).
  { exists "2023-11-14T22:13:20.123Z". cbv zeta.
    repeat split; vm_compute; reflexivity. }
  split; [exact H|].
  exact (decode_encode_roundtrip H).
Defined.

(* ================================================================== *)
(** * Properties of the query composer *)
(* ================================================================== *)

(** The filter [buildCursorFilter] builds selects the documents that come
    after the cursor. *)
Lemma buildCursorFilter_matches (c : Cursor) (sortKey : Js.Value) (d : Doc) :
  matches_opt (buildCursorFilter (Some c) sortKey) d
  = after_cursor (is_string sortKey "oldest") c d.
Proof.
  unfold buildCursorFilter, after_cursor.
  destruct (is_string sortKey "oldest"); simpl;
    unfold getField; simpl; rewrite Z.eqb_compare; unfold Z.ltb.
  - rewrite (Z.compare_antisym (Mongo.createdAt d) (createdAt c)).
    rewrite (Z.compare_antisym (_id d) (id c)).
    destruct (Mongo.createdAt d ?= createdAt c);
      destruct (_id d ?= id c); reflexivity.
  - destruct (Mongo.createdAt d ?= createdAt c);
      destruct (_id d ?= id c); reflexivity.
Qed.

Lemma empty_filter_matches (q : Query) (d : Doc) :
  keys_length q = 0%nat -> matches q d = true.
Proof.
  destruct q as [conds|qs|qs]; simpl; try discriminate.
  destruct conds; simpl; [reflexivity|discriminate].
Qed.

(** [combineQuery] is a conjunction. *)
Lemma combineQuery_matches (base extra : option Query) (d : Doc) :
  matches_opt (combineQuery base extra) d
  = matches_opt base d && matches_opt extra d.
Proof.
  unfold combineQuery.
  destruct extra as [extra|]; simpl.
  2:{ rewrite andb_true_r. reflexivity. }
  destruct base as [base|]; simpl; [|reflexivity].
  destruct (Nat.eqb (keys_length base) 0) eqn:Hk; simpl.
  - apply Nat.eqb_eq in Hk. rewrite (empty_filter_matches base d Hk).
    reflexivity.
  - rewrite andb_true_r. reflexivity.
Qed.

(** C7. For every decoded cursor, base filter and document, the keyset
    filter is [createdAt < cursor.createdAt], or [createdAt] equal and
    [_id < cursor.id], for every sort key but ['oldest'], and the mirrored
    form with [>] for ['oldest']; the final filter selects a document
    exactly when the base filter and the keyset filter both do, so no
    condition of the base filter is lost. *)
Theorem keyset_filter_conjoined (c : Cursor) (base : Query)
    (sortKey : Js.Value) (d : Doc) :
  let keyset := buildCursorFilter (Some c) sortKey in
  let final := combineQuery (Some base) keyset in
  matches_opt keyset d
  = (if is_string sortKey "oldest"
     then Z.ltb c.(createdAt) d.(Mongo.createdAt)
          || (Z.eqb d.(Mongo.createdAt) c.(createdAt) && Z.ltb c.(id) d.(_id))
     else Z.ltb d.(Mongo.createdAt) c.(createdAt)
          || (Z.eqb d.(Mongo.createdAt) c.(createdAt) && Z.ltb d.(_id) c.(id)))
  /\ matches_opt final d = matches base d && matches_opt keyset d
  /\ (matches_opt final d = true -> matches base d = true).
Proof.
  cbv zeta. split; [|split].
  - apply buildCursorFilter_matches.
  - apply combineQuery_matches.
  - rewrite combineQuery_matches. simpl. intros H.
    apply andb_true_iff in H. tauto.
Qed.

(* ================================================================== *)
(** * Properties of the lister's gate on cursor mode *)
(* ================================================================== *)

Section GateFacts.

Variable P : Platform.

Lemma encodeCursor_never_ApiError (t : Z) (oid : ObjectId) (e : Exn) :
  encodeCursor P t oid = Throw e -> instanceof_ApiError e = false.
Proof.
  unfold encodeCursor, Js.bind, call.
  destruct (P.(Date_toISOString) t); intros H; inversion H; reflexivity.
Qed.

(** With a cursor, the request is refused exactly when the sort key is
    truthy and is not ['oldest']. *)
Lemma cursor_gate (coll : list Doc) (query : option Query)
    (offsetSort : SortSpec) (req : ListQuery) :
  truthy req.(cursor) = true ->
  (paginate P coll query offsetSort req = Throw unsupportedSort
   <-> truthy req.(sort) && negb (is_string req.(sort) "oldest") = true).
Proof.
  intros Hcur. unfold paginate.
  destruct (parsePagination P req.(page) req.(limit)) as [pageNumber limitNumber].
  rewrite Hcur.
  destruct (truthy req.(sort) && negb (is_string req.(sort) "oldest")).
  { split; reflexivity. }
  split; [|discriminate].
  intros H. exfalso. revert H.
  destruct (decodeCursor P req.(cursor)) as [c|e] eqn:Hdec; simpl.
  2:{ intros H. inversion H; subst.
      apply decodeCursor_throws_only_invalidCursor in Hdec. discriminate. }
  match goal with
  | |- context [Z.ltb limitNumber ?n] => destruct (Z.ltb limitNumber n)
  end; simpl; [|discriminate].
  match goal with
  | |- context [rev ?l] => destruct (rev l) as [|lastDoc ?]
  end; simpl; [discriminate|].
  destruct (encodeCursor P (Mongo.createdAt lastDoc) (_id lastDoc)) as [tok|e] eqn:He;
    simpl; [discriminate|].
  intros H. inversion H; subst.
  apply encodeCursor_never_ApiError in He. discriminate.
Qed.

(** C1, at the failing input. A list request that names the sort key
    ['newest'] and carries a cursor is refused with the 400 error whose
    message says that newest sorting is supported: the gate lets through
    only an absent (or empty) sort key and ['oldest']. *)
Theorem cursor_with_newest_is_refused (coll : list Doc) (query : Query)
    (req_user_id : ObjectId) (pg lim : Js.Value) (c0 : ascii) (token : string) :
  let req := {| page := pg; limit := lim; sort := Str "newest";
                cursor := Str (String c0 token) |} in
  listProducts P coll query req = Throw unsupportedSort
  /\ getCartItemController P coll req_user_id req = Throw unsupportedSort.
Proof.
  cbv zeta. unfold listProducts, getCartItemController.
  split; apply cursor_gate; reflexivity.
Qed.

(** The part of C1 the code keeps: with a cursor, the sort keys
    ['price_asc'], ['price_desc'] and ['rating_desc'] are refused, and an
    absent sort key and ['oldest'] pass the gate. *)
Lemma cursor_gate_other_keys (coll : list Doc) (query : Query)
    (pg lim : Js.Value) (c0 : ascii) (token : string) (key : string) :
  In key ["price_asc"; "price_desc"; "rating_desc"] ->
  listProducts P coll query
    {| page := pg; limit := lim; sort := Str key;
       cursor := Str (String c0 token) |} = Throw unsupportedSort.
Proof.
  intros Hin. unfold listProducts. apply cursor_gate; [reflexivity|].
  simpl in Hin.
  destruct Hin as [H|[H|[H|[]]]]; subst; reflexivity.
Qed.

Lemma cursor_gate_default_and_oldest (coll : list Doc) (query : Query)
    (pg lim : Js.Value) (c0 : ascii) (token : string) (key : Js.Value) :
  key = Undefined \/ key = Str "oldest" ->
  listProducts P coll query
    {| page := pg; limit := lim; sort := key;
       cursor := Str (String c0 token) |} <> Throw unsupportedSort.
Proof.
  intros Hkey Hthrow. unfold listProducts in Hthrow.
  apply cursor_gate in Hthrow; [|reflexivity].
  destruct Hkey; subst; discriminate.
Qed.

End GateFacts.

(* ================================================================== *)
(** * Properties of the category tree resolver *)
(* ================================================================== *)

(** More fuel does not change a result. *)
Lemma descend_fuel_mono (fuel : nat) :
  forall categories maxDepth ids queue depth r,
    descend fuel categories maxDepth ids queue depth = Some r ->
    descend (S fuel) categories maxDepth ids queue depth = Some r.
Proof.
  induction fuel as [|fuel IH]; intros categories maxDepth ids queue depth r H.
  - discriminate.
  - revert H. cbn [descend].
    destruct (Nat.ltb 0 (List.length queue)); [|auto].
    destruct (depth_reached maxDepth depth); [auto|].
    destruct (Nat.eqb (List.length (findChildIds categories queue)) 0); [auto|].
    intros H. apply IH in H. exact H.
Qed.

Lemma descend_fuel_le (fuel fuel' : nat) :
  forall categories maxDepth ids queue depth r,
    (fuel <= fuel')%nat ->
    descend fuel categories maxDepth ids queue depth = Some r ->
    descend fuel' categories maxDepth ids queue depth = Some r.
Proof.
  intros categories maxDepth ids queue depth r Hle H.
  induction Hle; [exact H|].
  apply descend_fuel_mono. exact IHHle.
Qed.

(** With a positive [maxDepth] the loop ends within [maxDepth - depth]
    further expansions, on any collection of categories. *)
Lemma descend_bounded (m : Z) (fuel : nat) :
  forall categories acc queue k,
    1 <= m -> 0 <= k <= m ->
    (Z.to_nat (m - k) < fuel)%nat ->
    exists r,
      descend fuel categories (Some (Finite m)) acc queue k = Some r
      /\ k <= r.(depth) <= m.
Proof.
  induction fuel as [|fuel IH]; intros categories acc queue k Hm Hk Hfuel.
  - lia.
  - cbn [descend].
    destruct (Nat.ltb 0 (List.length queue)).
    2:{ eexists; split; [reflexivity|simpl; lia]. }
    unfold depth_reached.
    destruct (Z.eqb_spec m 0) as [H0|H0]; [lia|]. simpl.
    destruct (Z.leb_spec m k) as [Hge|Hlt].
    { eexists; split; [reflexivity|simpl; lia]. }
    destruct (Nat.eqb (List.length (findChildIds categories queue)) 0).
    { eexists; split; [reflexivity|simpl; lia]. }
    destruct (IH categories (acc ++ findChildIds categories queue)
                (findChildIds categories queue) (k + 1)) as (r & Hr & Hd);
      try lia.
    exists r. split; [exact Hr|lia].
Qed.

(** Every finite [maxDepth] that [parsePositiveInt] hands to the
    resolver is at least 1. *)
Lemma parsePositiveInt_positive (P : Platform) (value : Js.Value)
    (label : string) (m : Z) :
  parsePositiveInt P value label = Ok (Some (Finite m)) -> 1 <= m.
Proof.
  unfold parsePositiveInt.
  assert (Hparse :
    match P.(parseInt10) value with
    | IntNaN | IntNegInf =>
        Throw (ApiError 400 (label ++ " must be a positive integer")%string)
    | IntPosInf => Ok (Some Infinity)
    | IntOf parsed =>
        if Z.ltb parsed 1
        then Throw (ApiError 400 (label ++ " must be a positive integer")%string)
        else Ok (Some (Finite parsed))
    end = Ok (Some (Finite m)) -> 1 <= m).
  { destruct (P.(parseInt10) value) as [| | |parsed]; try discriminate.
    destruct (Z.ltb_spec parsed 1) as [Hlt|Hge]; [discriminate|].
    intros Hok. inversion Hok. subst. exact Hge. }
  destruct value as [| |b|n|s|items|fs]; try exact Hparse; try discriminate.
  destruct s; [discriminate|exact Hparse].
Qed.

(** The open risk the bound guards against: without [maxDepth], a
    category that is its own parent keeps the loop running for ever;
    and so it does with an infinite [maxDepth]. *)
Lemma self_parent_unbounded (a : ObjectId) (maxDepth : option Js.Count)
    (includeSelf : bool) (fuel : nat) :
  maxDepth = None \/ maxDepth = Some Infinity ->
  getDescendantCategoryIds fuel
    [ {| category_id := a; parentCategoryId := Some a |} ] a maxDepth
    includeSelf
  = None.
Proof.
  intros Hmax.
  assert (Hnever : forall k, depth_reached maxDepth k = false).
  { intros k. destruct Hmax as [-> | ->]; reflexivity. }
  unfold getDescendantCategoryIds.
  generalize (if includeSelf then [a] else []) as acc.
  generalize 0 as k.
  induction fuel as [|fuel IH]; intros k acc; [reflexivity|].
  cbn [descend]. rewrite Hnever. simpl. unfold findChildIds. simpl.
  rewrite Z.eqb_refl. simpl. apply IH.
Qed.


Ltac decide_ids :=
  repeat match goal with
         | |- context [Z.eqb ?x ?x] => rewrite (Z.eqb_refl x)
         | H : ?x <> ?y |- context [Z.eqb ?x ?y] =>
             rewrite (proj2 (Z.eqb_neq x y) H)
         | H : ?y <> ?x |- context [Z.eqb ?x ?y] =>
             rewrite (proj2 (Z.eqb_neq x y) (not_eq_sym H))
         end.

Lemma chain_children (a b c d : ObjectId) :
  NoDup [a; b; c; d] ->
  findChildIds (chain a b c d) [a] = [b]
  /\ findChildIds (chain a b c d) [b] = [c]
  /\ findChildIds (chain a b c d) [c] = [d]
  /\ findChildIds (chain a b c d) [d] = [].
Proof.
  intros Hnd.
  assert (Hab : a <> b /\ a <> c /\ a <> d /\ b <> c /\ b <> d /\ c <> d).
  { inversion Hnd as [|? ? Ha Hnd1]; subst.
    inversion Hnd1 as [|? ? Hb Hnd2]; subst.
    inversion Hnd2 as [|? ? Hc _]; subst.
    simpl in Ha, Hb, Hc. intuition congruence. }
  destruct Hab as (Hab & Hac & Had & Hbc & Hbd & Hcd).
  unfold findChildIds, chain; simpl.
  repeat split; decide_ids; reflexivity.
Qed.

(** The resolver expands a frontier breadth first.  Whenever a finite
    [maxDepth] is supplied, which [parsePositiveInt] makes at least 1,
    the loop ends on every collection of categories, cyclic or not,
    after at most [maxDepth] expansions.  On the parent chain
    [a -> b -> c -> d] the descendants of [a] with [maxDepth = 2] and
    without self are [b, c], the descendants of [a] without bound and with
    self are [a, b, c, d], and the descendants of the leaf [d] are the
    empty list, not an error. *)
Theorem resolver_bounded_and_chain (categories : list Category)
    (ancestorId : ObjectId) (includeSelf : bool) (m : Z) (fuel : nat)
    (a b c d : ObjectId) :
  1 <= m ->
  (Z.to_nat m < fuel)%nat ->
  NoDup [a; b; c; d] ->
  (exists r,
     getDescendantCategoryIds fuel categories ancestorId (Some (Finite m)) includeSelf
       = Some r
     /\ 0 <= r.(depth) <= m)
  /\ (forall n, (3 <= n)%nat ->
        getDescendantCategoryIds n (chain a b c d) a (Some (Finite 2)) false
        = Some {| ids := [b; c]; depth := 2 |})
  /\ (forall n, (4 <= n)%nat ->
        getDescendantCategoryIds n (chain a b c d) a None true
        = Some {| ids := [a; b; c; d]; depth := 3 |})
  /\ (forall n, (1 <= n)%nat ->
        getDescendantCategoryIds n (chain a b c d) d None false
        = Some {| ids := []; depth := 0 |}).
Proof.
  intros Hm Hfuel Hnd.
  destruct (chain_children Hnd) as (Ha & Hb & Hc & Hd).
  split; [|split; [|split]].
  - unfold getDescendantCategoryIds.
    apply descend_bounded; lia.
  - intros n Hn. unfold getDescendantCategoryIds.
    apply descend_fuel_le with (fuel := 3%nat); [exact Hn|].
    cbn [descend]. simpl. rewrite Ha. simpl. rewrite Hb. reflexivity.
  - intros n Hn. unfold getDescendantCategoryIds.
    apply descend_fuel_le with (fuel := 4%nat); [exact Hn|].
    cbn [descend]. simpl. rewrite Ha. simpl. rewrite Hb. simpl.
    rewrite Hc. simpl. rewrite Hd. reflexivity.
  - intros n Hn. unfold getDescendantCategoryIds.
    apply descend_fuel_le with (fuel := 1%nat); [exact Hn|].
    cbn [descend]. simpl. rewrite Hd. reflexivity.
Qed.


Lemma resolver_bounded_and_chain_witness :
  (1 <= 2 /\ (Z.to_nat 2 < 3)%nat /\ NoDup [10; 20; 30; 40])
  /\ (exists r,
        getDescendantCategoryIds 3 cyclic_categories 1 (Some (Finite 2)) true = Some r
        /\ 0 <= r.(depth) <= 2)
  /\ (forall n, (3 <= n)%nat ->
        getDescendantCategoryIds n (chain 10 20 30 40) 10 (Some (Finite 2)) false
        = Some {| ids := [20; 30]; depth := 2 |})
  /\ (forall n, (4 <= n)%nat ->
        getDescendantCategoryIds n (chain 10 20 30 40) 10 None true
        = Some {| ids := [10; 20; 30; 40]; depth := 3 |})
  /\ (forall n, (1 <= n)%nat ->
        getDescendantCategoryIds n (chain 10 20 30 40) 40 None false
        = Some {| ids := []; depth := 0 |}).
Proof.
  assert (H1 : 1 <= 2) by (intro H; discriminate H).
  assert (H2 : (Z.to_nat 2 < 3)%nat) by (apply le_n).
  assert (H3 : NoDup [10; 20; 30; 40]).
  { repeat (constructor; [simpl; intros H;
                          repeat (destruct H as [H|H]; [discriminate H|]);
                          exact H|]).
    constructor. }
  split; [exact (conj H1 (conj H2 H3))|].
  exact (@resolver_bounded_and_chain cyclic_categories 1 true 2 3
           10 20 30 40 H1 H2 H3).
Defined.

Example resolver_on_cycle :
  getDescendantCategoryIds 3 cyclic_categories 1 (Some (Finite 2)) true
  = Some {| ids := [1; 2; 1; 3]; depth := 2 |}.
Proof. reflexivity. Qed.

(** What [parsePositiveInt] lets through: nothing, an integer that is
    at least 1, or Infinity, and Infinity exactly when [parseInt]
    returns it for a value that is not empty. *)
Lemma parsePositiveInt_infinite (P : Platform) (value : Js.Value)
    (label : string) :
  parsePositiveInt P value label = Ok (Some Infinity)
  <-> P.(parseInt10) value = IntPosInf
      /\ value <> Undefined /\ value <> Null /\ value <> Str EmptyString.
Proof.
  unfold parsePositiveInt.
  assert (Hparse :
    match P.(parseInt10) value with
    | IntNaN | IntNegInf =>
        Throw (ApiError 400 (label ++ " must be a positive integer")%string)
    | IntPosInf => Ok (Some Infinity)
    | IntOf parsed =>
        if Z.ltb parsed 1
        then Throw (ApiError 400 (label ++ " must be a positive integer")%string)
        else Ok (Some (Finite parsed))
    end = Ok (Some Infinity)
    <-> P.(parseInt10) value = IntPosInf).
  { destruct (P.(parseInt10) value) as [| | |parsed];
      try (split; [discriminate|discriminate]).
    - split; reflexivity.
    - destruct (Z.ltb parsed 1); split; discriminate. }
  destruct value as [| |b|n|s|items|fs];
    try (rewrite Hparse; split;
         [intros H; repeat split; [exact H|discriminate..]
         |intros [H _]; exact H]).
  - split; [discriminate|]. intros (_ & H & _). contradiction.
  - split; [discriminate|]. intros (_ & _ & H & _). contradiction.
  - destruct s as [|c s].
    + split; [discriminate|]. intros (_ & _ & _ & H). contradiction.
    + rewrite Hparse. split.
      * intros H. repeat split; [exact H|discriminate..].
      * intros [H _]. exact H.
Qed.

(** C9 fails on a [maxDepth] that is not finite.  [parsePositiveInt]
    refuses NaN and what is below 1, and lets through the Infinity that
    [parseInt] returns for a text whose digits spell a number beyond the
    doubles, although its own message asks for a positive integer.  The
    guard [maxDepth && depth >= maxDepth] never holds for it: on a
    category that is its own parent the loop does not end, whatever the
    fuel, and neither does the listing that asks for its descendants. *)
Theorem infinite_maxDepth_is_unbounded (fuel : nat) (includeSelf : bool) :
  Node.parseInt10 long_digits = IntPosInf
  /\ parsePositiveInt Node.platform long_digits "maxDepth"
     = Ok (Some Infinity)
  /\ getDescendantCategoryIds fuel own_parent 40 (Some Infinity) includeSelf
     = None
  /\ Catalog.requestQuery Node.platform own_parent (fun _ => None) fuel
       Catalog.no_overrides deep_request
     = None.
Proof.
  assert (Hparse : Node.parseInt10 long_digits = IntPosInf)
    by (vm_compute; reflexivity).
  assert (Hdepth : parsePositiveInt Node.platform long_digits "maxDepth"
                   = Ok (Some Infinity)).
  { apply parsePositiveInt_infinite. split; [exact Hparse|].
    repeat split; discriminate. }
  assert (Hloop : forall self,
            getDescendantCategoryIds fuel own_parent 40 (Some Infinity) self
            = None).
  { intros self. apply self_parent_unbounded. right. reflexivity. }
  split; [exact Hparse|]. split; [exact Hdepth|]. split; [apply Hloop|].
  unfold Catalog.requestQuery, Catalog.descendantsOf.
  cbn [Catalog.over_categoryId Catalog.over_ancestorCategoryId
       Catalog.over_ancestorCategoryName Catalog.no_overrides
       Catalog.categoryId Catalog.ancestorCategoryId
       Catalog.ancestorCategoryName Catalog.maxDepth Catalog.includeSelf
       deep_request Catalog.coalesce Catalog.coalesce_id Catalog.nullish
       Catalog.truthy_id truthy string_nonempty andb orb
       Catalog.validateObjectId].
  change (isValidObjectId Node.platform (Str "000000000000000000000028"))
    with true.
  cbv iota. rewrite Hdepth.
  change (Catalog.cast_id Node.platform
            (Catalog.IdValue (Str "000000000000000000000028")))
    with (@Ok ObjectId 40).
  cbv iota. rewrite Hloop. reflexivity.
Qed.


(* ================================================================== *)
(** * Properties of the cart handler *)
(* ================================================================== *)

Module CartFacts.

Import Cart CartSpec.




Lemma others_skipn (n1 n2 : nat) :
  forall sched s,
    others n2 (skipn n1 sched) (others n1 sched s) = others (n1 + n2) sched s.
Proof.
  induction n1 as [|n1 IH]; intros sched s; simpl.
  - reflexivity.
  - destruct sched as [|a rest]; simpl.
    + destruct n2; reflexivity.
    + apply IH.
Qed.

(** A wait, read off the head of the schedule. *)
Lemma await_run {A} (op : Store -> Result A * Store * list Write)
    (st : State) :
  await op st
  = let a := hd quiet st.(schedule) in
    let s1 := a.(concurrent) st.(store) in
    match a.(rejection) with
    | Some name =>
        (Throw (JsError name),
         {| store := s1; writes := st.(writes);
            schedule := tl st.(schedule) |})
    | None =>
        let '(r, s2, ws) := op s1 in
        (r, {| store := s2; writes := st.(writes) ++ ws;
               schedule := tl st.(schedule) |})
    end.
Proof.
  unfold await. destruct (schedule st); reflexivity.
Qed.

Lemma others_nil (n : nat) (s : Store) : others n [] s = s.
Proof. destruct n; reflexivity. Qed.

Lemma others_S (n : nat) (sched : list Await) (s : Store) :
  others (S n) sched s
  = others n (tl sched) ((hd quiet sched).(concurrent) s).
Proof.
  destruct sched as [|a rest]; simpl; [|reflexivity].
  rewrite others_nil. reflexivity.
Qed.

Lemma effect_ret {A} (a : A) (Q : Result A -> list Write -> Prop) :
  Q (Ok a) [] -> effect (ret a) Q.
Proof.
  intros HQ st. exists [], 0%nat. simpl. rewrite app_nil_r. auto.
Qed.

Lemma effect_throw {A} (e : Exn) (Q : Result A -> list Write -> Prop) :
  Q (Throw e) [] -> effect (throw e) Q.
Proof.
  intros HQ st. exists [], 0%nat. simpl. rewrite app_nil_r. auto.
Qed.

Lemma effect_bind {A B} (m : Async A) (k : A -> Async B)
    (Q1 : Result A -> list Write -> Prop)
    (Q : Result B -> list Write -> Prop) :
  effect m Q1 ->
  (forall a ws1, Q1 (Ok a) ws1 -> effect (k a) (fun r ws2 => Q r (ws1 ++ ws2))) ->
  (forall e ws1, Q1 (Throw e) ws1 -> Q (Throw e) ws1) ->
  effect (bind m k) Q.
Proof.
  intros Hm Hk He st. unfold bind.
  destruct (Hm st) as (ws1 & n1 & Hw1 & Hs1 & Hst1 & HQ1).
  destruct (m st) as [[a|e] st1]; simpl in *.
  - destruct (Hk a ws1 HQ1 st1) as (ws2 & n2 & Hw2 & Hs2 & Hst2 & HQ2).
    exists (ws1 ++ ws2), (n1 + n2)%nat.
    rewrite Hw2, Hw1, Hs2, Hs1, app_assoc, skipn_skipn.
    repeat split; auto.
    + f_equal. apply Nat.add_comm.
    + intros Hnil. apply app_eq_nil in Hnil. destruct Hnil as [H1 H2].
      rewrite (Hst2 H2), Hs1, (Hst1 H1). apply others_skipn.
  - exists ws1, n1. auto.
Qed.

Lemma effect_try_catch {A} (body : Async A) (handler : Exn -> Async A)
    (Q1 Q : Result A -> list Write -> Prop) :
  effect body Q1 ->
  (forall e ws1, Q1 (Throw e) ws1 ->
                 effect (handler e) (fun r ws2 => Q r (ws1 ++ ws2))) ->
  (forall a ws1, Q1 (Ok a) ws1 -> Q (Ok a) ws1) ->
  effect (try_catch body handler) Q.
Proof.
  intros Hm Hh Hok st. unfold try_catch.
  destruct (Hm st) as (ws1 & n1 & Hw1 & Hs1 & Hst1 & HQ1).
  destruct (body st) as [[a|e] st1]; simpl in *.
  - exists ws1, n1. auto.
  - destruct (Hh e ws1 HQ1 st1) as (ws2 & n2 & Hw2 & Hs2 & Hst2 & HQ2).
    exists (ws1 ++ ws2), (n1 + n2)%nat.
    rewrite Hw2, Hw1, Hs2, Hs1, app_assoc, skipn_skipn.
    repeat split; auto.
    + f_equal. apply Nat.add_comm.
    + intros Hnil. apply app_eq_nil in Hnil. destruct Hnil as [H1 H2].
      rewrite (Hst2 H2), Hs1, (Hst1 H1). apply others_skipn.
Qed.

(** A store call either is rejected before it runs, or does what the
    call does to the store it finds. *)
Lemma effect_await {A} (op : Store -> Result A * Store * list Write)
    (R : Result A -> list Write -> Prop) :
  (forall s, (snd (op s) = [] -> snd (fst (op s)) = s)
             /\ R (fst (fst (op s))) (snd (op s))) ->
  effect (await op)
    (fun r ws => (exists name, r = Throw (JsError name) /\ ws = []) \/ R r ws).
Proof.
  intros Hop st. unfold await.
  destruct st as [s0 w0 sched]; simpl.
  destruct sched as [|[conc [name|]] rest]; simpl.
  - destruct (Hop s0) as [Hsame HR].
    destruct (op s0) as [[r s2] ws]; simpl in *.
    exists ws, 1%nat. repeat split; auto.
  - exists [], 1%nat. rewrite app_nil_r. repeat split; auto.
    left. exists name. auto.
  - destruct (Hop (conc s0)) as [Hsame HR].
    destruct (op (conc s0)) as [[r s2] ws]; simpl in *.
    exists ws, 1%nat. repeat split; auto.
Qed.

Lemma effect_weaken {A} (m : Async A) (Q1 Q : Result A -> list Write -> Prop) :
  effect m Q1 -> (forall r ws, Q1 r ws -> Q r ws) -> effect m Q.
Proof.
  intros Hm Himp st.
  destruct (Hm st) as (ws & n & H1 & H2 & H3 & H4).
  exists ws, n. auto.
Qed.

Lemma effect_findOne (uid pid : ObjectId) :
  effect (await (CartProduct_findOne uid pid))
    (fun r ws => ws = [] /\ ~ (exists c, r = Throw (MongoError c))
                 /\ ~ (exists c m, r = Throw (ApiError c m))).
Proof.
  eapply effect_weaken.
  - apply effect_await with (R := fun r ws => ws = [] /\ exists o, r = Ok o).
    intros s. simpl. eauto.
  - intros r ws [(name & -> & ->)|(-> & o & ->)]; repeat split;
      try (intros (c & H); discriminate);
      try (intros (c & m & H); discriminate).
Qed.

Lemma effect_create (uid pid : ObjectId) (qty : Z) :
  effect (await (CartProduct_create uid pid qty))
    (fun r ws =>
       (ws = [] /\ exists e, r = Throw e /\ ~ (exists c m, e = ApiError c m))
       \/ (exists item, r = Ok item /\ ws = [Created item]
                        /\ item.(quantity) = qty)).
Proof.
  eapply effect_weaken.
  - apply effect_await
      with (R := fun r ws =>
                   (ws = [] /\ (r = Throw validationError
                                \/ r = Throw duplicateKey))
                   \/ (exists item, r = Ok item /\ ws = [Created item]
                                    /\ item.(quantity) = qty)).
    intros s. unfold CartProduct_create.
    destruct (quantity_valid qty); cbn [negb]; [|simpl; auto].
    destruct (existsb (same_pair uid pid) (cartproducts s)); simpl.
    + auto.
    + split; [discriminate|]. right. eexists. repeat split.
  - intros r ws [(name & -> & ->)|[(-> & [->| ->])|H]]; auto;
      left; (split; [reflexivity|]); eexists; (split; [reflexivity|]);
      intros (c & m & H); discriminate.
Qed.

Lemma effect_save (item : CartItem) (qty : Z) :
  effect (await (CartItem_save item qty))
    (fun r ws =>
       (ws = [] /\ exists name, r = Throw (JsError name))
       \/ (exists saved, r = Ok saved /\ ws = [Saved item.(_id) qty])).
Proof.
  eapply effect_weaken.
  - apply effect_await
      with (R := fun r ws =>
                   (ws = [] /\ exists name, r = Throw (JsError name))
                   \/ (exists saved, r = Ok saved /\ ws = [Saved item.(_id) qty])).
    intros s. unfold CartItem_save.
    destruct (quantity_valid qty); cbn [negb];
      [|simpl; split; [reflexivity|left; split; [reflexivity|]];
        eexists; reflexivity].
    destruct (existsb (fun c => Z.eqb c.(_id) item.(_id)) (cartproducts s)); simpl.
    + split; [discriminate|]. right. eexists. split; reflexivity.
    + split; [reflexivity|]. left. split; [reflexivity|]. eexists. reflexivity.
  - intros r ws [(name & -> & ->)|[(-> & name & ->)|H]]; eauto.
Qed.

Lemma effect_addToSet (uid cid : ObjectId) :
  effect (await (User_addToSet uid cid))
    (fun r ws =>
       (ws = [] /\ exists name, r = Throw (JsError name))
       \/ (r = Ok tt /\ ws = [AddedToSet uid cid])).
Proof.
  eapply effect_weaken.
  - apply effect_await
      with (R := fun r ws => r = Ok tt /\ ws = [AddedToSet uid cid]).
    intros s. simpl. split; [discriminate|auto].
  - intros r ws [(name & -> & ->)|H]; eauto.
Qed.


(** The increment shared by the existing-item path and the retry. *)
Lemma effect_increment (item : CartItem) (n stock : Z) (pre : list Write) :
  Forall (within stock) pre ->
  (pre <> [] -> False) ->
  effect
    (if Z.gtb (item.(quantity) + n) stock
     then throw stockExceeded
     else
       saved <~ await (CartItem_save item (item.(quantity) + n)) ;;
       ret {| status := 200; data := saved;
              message := "Cart item quantity updated" |})
    (fun r ws => checked stock r (pre ++ ws)).
Proof.
  intros Hpre Hnil.
  assert (pre = []) as -> by (destruct pre; [reflexivity|exfalso; apply Hnil; discriminate]).
  destruct (Z.gtb_spec (item.(quantity) + n) stock) as [Hgt|Hle].
  - apply effect_throw. split; [constructor|reflexivity].
  - eapply effect_bind.
    + apply effect_save.
    + intros saved ws1 [(-> & name & H)|(s' & H & ->)]; [discriminate|].
      apply effect_ret. simpl. split.
      * repeat constructor. simpl. exact Hle.
      * discriminate.
    + intros e ws1 [(-> & name & [= ->])|(s' & H & _)]; [|discriminate].
      split; [constructor|discriminate].
Qed.

Lemma addOrIncrement_checked (req_user_id pid : ObjectId) (n : Z)
    (product : Product) :
  effect (addOrIncrement req_user_id pid n product)
    (checked product.(countInstock)).
Proof.
  unfold addOrIncrement.
  eapply effect_bind.
  - apply effect_findOne.
  - intros existing ws1 (-> & _ & _). simpl.
    destruct existing as [item|].
    + apply (@effect_increment item n product.(countInstock) []).
      * constructor.
      * intros H; apply H; reflexivity.
    + destruct (Z.gtb_spec n product.(countInstock)) as [Hgt|Hle].
      { apply effect_throw. split; [constructor|reflexivity]. }
      eapply effect_try_catch
        with (Q1 := fun r ws =>
                      Forall (within product.(countInstock)) ws
                      /\ (forall e, r = Throw e ->
                            (ws = [] \/ exists name, e = JsError name)
                            /\ ~ (exists c m, e = ApiError c m))).
      * eapply effect_bind.
        -- apply effect_create.
        -- intros item ws1 [(-> & e & H & _)|(item' & H & -> & Hq)];
             [discriminate|].
           inversion H; subst item'.
           eapply effect_bind.
           ++ apply effect_addToSet.
           ++ intros [] ws2 [(-> & name & H2)|(_ & ->)]; [discriminate|].
              apply effect_ret. simpl. split.
              ** repeat constructor. simpl. lia.
              ** intros e He. discriminate.
           ++ intros e ws2 [(-> & name & [= ->])|(H2 & _)]; [|discriminate].
              simpl. split.
              ** repeat constructor. simpl. lia.
              ** intros e He. inversion He; subst. split.
                 --- right. eauto.
                 --- intros (c & m & H3). discriminate.
        -- intros e ws1 [(-> & e' & H & Hne)|(item' & H & _)]; [|discriminate].
           inversion H; subst e'. split; [constructor|].
           intros e2 He2. inversion He2; subst. auto.
      * intros e ws1 (Hall & Hthrow).
        destruct (Hthrow e eq_refl) as [Hws Hnapi].
        destruct e as [c m|name|c].
        -- exfalso. apply Hnapi. eauto.
        -- apply effect_throw. rewrite app_nil_r. split; [exact Hall|discriminate].
        -- destruct Hws as [->|(name & Hname)]; [|discriminate].
           destruct (Z.eq_dec c 11000) as [->|Hc].
           ++ eapply effect_bind.
              ** apply effect_findOne.
              ** intros conflict ws2 (-> & _ & _). simpl.
                 destruct conflict as [item|].
                 --- apply (@effect_increment item n product.(countInstock) []).
                     +++ constructor.
                     +++ intros H; apply H; reflexivity.
                 --- apply effect_throw. split; [constructor|discriminate].
              ** intros e ws2 (-> & _ & _). simpl.
                 split; [constructor|reflexivity].
           ++ assert (Hother :
                (match MongoError c with
                 | MongoError 11000 =>
                     conflictItem <~ await (CartProduct_findOne req_user_id pid) ;;
                     match conflictItem with
                     | None => throw (ApiError 409 "Cart item already exists")
                     | Some conflictItem =>
                         if Z.gtb (conflictItem.(quantity) + n) product.(countInstock)
                         then throw stockExceeded
                         else
                           saved <~ await (CartItem_save conflictItem
                                             (conflictItem.(quantity) + n)) ;;
                           ret {| status := 200; data := saved;
                                  message := "Cart item quantity updated" |}
                     end
                 | _ => throw (ApiError 500 "Failed to add item to cart")
                 end) = throw (ApiError 500 "Failed to add item to cart")).
              { destruct c as [|p|p]; try reflexivity.
                repeat (destruct p as [p|p|]; try reflexivity).
                exfalso. apply Hc. reflexivity. }
              rewrite Hother.
              apply effect_throw. split; [constructor|discriminate].
      * intros a ws1 (Hall & _). split; [exact Hall|discriminate].
  - intros e ws1 (-> & _ & _). split; [constructor|reflexivity].
Qed.

(** A run of add-or-increment, wait by wait: [a1], [a2] and [a3] are
    its first three waits. *)
Lemma addOrIncrement_run (req_user_id pid : ObjectId) (n : Z)
    (product : Product) (st : State) :
  let a1 := hd quiet st.(schedule) in
  let st1 := waited a1 st in
  let a2 := hd quiet st1.(schedule) in
  let st2 := waited a2 st1 in
  let a3 := hd quiet st2.(schedule) in
  let st3 := waited a3 st2 in
  let item := {| _id := st2.(store).(nextId); userId := req_user_id;
                 productId := pid; quantity := n |} in
  let created :=
    {| store :=
         a3.(concurrent)
           {| cartproducts := st2.(store).(cartproducts) ++ [item];
              products := st2.(store).(products);
              users := st2.(store).(users);
              nextId := st2.(store).(nextId) + 1 |};
       writes := st.(writes) ++ [Created item];
       schedule := tl st2.(schedule) |} in
  let internal := ApiError 500 "Failed to add item to cart" in
  addOrIncrement req_user_id pid n product st
  = match a1.(rejection) with
    | Some name => (Throw (JsError name), st1)
    | None =>
        match List.find (same_pair req_user_id pid)
                st1.(store).(cartproducts) with
        | Some existing => increment existing n product.(countInstock) st1
        | None =>
            if Z.gtb n product.(countInstock)
            then (Throw stockExceeded, st1)
            else
              match a2.(rejection) with
              | Some _ => (Throw internal, st2)
              | None =>
                  if negb (quantity_valid n) then (Throw internal, st2)
                  else if existsb (same_pair req_user_id pid)
                            st2.(store).(cartproducts)
                  then
                    match a3.(rejection) with
                    | Some name => (Throw (JsError name), st3)
                    | None =>
                        match List.find (same_pair req_user_id pid)
                                st3.(store).(cartproducts) with
                        | None =>
                            (Throw (ApiError 409 "Cart item already exists"),
                             st3)
                        | Some conflictItem =>
                            increment conflictItem n product.(countInstock)
                              st3
                        end
                    end
                  else
                    match a3.(rejection) with
                    | Some _ => (Throw internal, created)
                    | None =>
                        (Ok {| status := 201; data := item;
                               message := "Item added to cart" |},
                         {| store :=
                              snd (fst (User_addToSet req_user_id item.(_id)
                                          created.(store)));
                            writes :=
                              created.(writes)
                              ++ [AddedToSet req_user_id item.(_id)];
                            schedule := created.(schedule) |})
                    end
              end
        end
    end.
Proof.
  cbv zeta. unfold addOrIncrement, waited.
  unfold bind at 1. rewrite await_run. cbv zeta.
  destruct (rejection (hd quiet (schedule st))) as [name1|]; [reflexivity|].
  unfold CartProduct_findOne at 1. cbn [writes store schedule].
  rewrite app_nil_r.
  destruct (List.find _ _) as [existing|]; [reflexivity|].
  destruct (Z.gtb n (countInstock product)); [reflexivity|].
  unfold try_catch. unfold bind at 1. rewrite await_run. cbv zeta.
  cbn [writes store schedule].
  destruct (rejection (hd quiet (tl (schedule st)))) as [name2|];
    [reflexivity|].
  unfold CartProduct_create.
  destruct (negb (quantity_valid n));
    [cbn [writes store schedule]; rewrite app_nil_r; reflexivity|].
  destruct (existsb _ _).
  - unfold duplicateKey. cbv beta iota.
    cbn [writes store schedule]. rewrite app_nil_r.
    unfold bind at 1. rewrite await_run. cbv zeta.
    cbn [writes store schedule].
    destruct (rejection (hd quiet (tl (tl (schedule st))))) as [name3|];
      [reflexivity|].
    unfold CartProduct_findOne. rewrite app_nil_r.
    destruct (List.find _ _) as [conflictItem|]; reflexivity.
  - cbn [writes store schedule].
    unfold bind at 1. rewrite await_run. cbv zeta.
    cbn [writes store schedule].
    destruct (rejection (hd quiet (tl (tl (schedule st))))) as [name3|];
      [reflexivity|].
    reflexivity.
Qed.

(** The shared increment, wait by wait. *)
Lemma increment_run (item : CartItem) (n stock : Z) (st : State) :
  let a := hd quiet st.(schedule) in
  let qty := item.(quantity) + n in
  increment item n stock st
  = if Z.gtb qty stock then (Throw stockExceeded, st)
    else
      match a.(rejection) with
      | Some name => (Throw (JsError name), waited a st)
      | None =>
          if negb (quantity_valid qty)
          then (Throw validationError, waited a st)
          else if existsb (fun c => Z.eqb c.(_id) item.(_id))
                    (waited a st).(store).(cartproducts)
          then
            (Ok {| status := 200;
                   data := {| _id := item.(_id); userId := item.(userId);
                              productId := item.(productId);
                              quantity := qty |};
                   message := "Cart item quantity updated" |},
             {| store :=
                  {| cartproducts :=
                       map (set_quantity item.(_id) qty)
                         (waited a st).(store).(cartproducts);
                     products := (waited a st).(store).(products);
                     users := (waited a st).(store).(users);
                     nextId := (waited a st).(store).(nextId) |};
                writes := st.(writes) ++ [Saved item.(_id) qty];
                schedule := tl st.(schedule) |})
          else (Throw (JsError "DocumentNotFoundError"), waited a st)
      end.
Proof.
  cbv zeta. unfold increment, waited.
  destruct (Z.gtb _ _); [reflexivity|].
  unfold bind. rewrite await_run. cbv zeta.
  destruct (rejection _); [reflexivity|].
  unfold CartItem_save.
  destruct (negb _);
    [cbn [writes store schedule]; rewrite app_nil_r; reflexivity|].
  destruct (existsb _ _); cbn [writes store schedule];
    [reflexivity|rewrite app_nil_r; reflexivity].
Qed.

(** The only [ApiError] the increment throws is the stock error, and it
    throws it exactly when the new quantity exceeds the stock. *)
Lemma increment_stock_error (item : CartItem) (n stock : Z) (st : State)
    (c : Z) (m : string) :
  fst (increment item n stock st) = Throw (ApiError c m) ->
  ApiError c m = stockExceeded /\ stock < item.(quantity) + n.
Proof.
  rewrite increment_run. cbv zeta.
  destruct (Z.gtb_spec (quantity item + n) stock) as [Hgt|Hle].
  - intros [= <- <-]. split; [reflexivity|lia].
  - destruct (rejection _); [discriminate|].
    destruct (negb _); [discriminate|].
    destruct (existsb _ _); discriminate.
Qed.



(** The same for the whole handler: the product lookup writes nothing. *)
Lemma addToCartItemController_checked (P : Platform)
    (req_user_id : ObjectId) (req_productId req_quantity : Js.Value) :
  effect (addToCartItemController P req_user_id req_productId req_quantity)
    (fun r ws =>
       (ws = [] \/ exists product, Forall (within product.(countInstock)) ws)
       /\ (r = Throw stockExceeded -> ws = [])).
Proof.
  unfold addToCartItemController.
  destruct (negb (P.(isValidObjectId) req_productId)).
  { apply effect_throw. split; [left|]; reflexivity. }
  destruct (_ || _).
  { apply effect_throw. split; [left|]; reflexivity. }
  eapply effect_bind with (Q1 := fun r ws => ws = []).
  - intros st. exists [], 0%nat. unfold lift. simpl.
    rewrite app_nil_r. auto.
  - intros pid ws1 ->. simpl.
    eapply effect_bind with (Q1 := fun r ws => ws = []).
    + eapply effect_weaken.
      * apply effect_await with (R := fun r ws => ws = []).
        intros s. simpl. auto.
      * intros r ws [(name & _ & ->)| ->]; reflexivity.
    + intros product ws1 ->. simpl.
      destruct product as [product|].
      * eapply effect_weaken; [apply addOrIncrement_checked|].
        intros r ws (Hall & Hthrow). split; [right; eauto|exact Hthrow].
      * apply effect_throw. split; [left; reflexivity|discriminate].
    + intros e ws1 ->. split; [left|]; reflexivity.
  - intros e ws1 ->. split; [left|]; reflexivity.
Qed.

(** C3, as the handler does it.  The three waits named are the first
    three of the run: the first read, the [create], and the second read
    or, after a [create] that succeeded, the [$addToSet].  When the
    fresh-item path is taken and [create] is refused with the duplicate
    key error, the handler reads the pair once more, and only once.
    When this second read finds the item, it goes on as an increment of
    that item: capacity check, then one [save].  When it finds nothing,
    the handler throws [ApiError(409, 'Cart item already exists')];
    there is no further read, no second [create] and no loop.  The 500
    error is thrown exactly when, on the fresh-item path, the [create]
    or the [$addToSet] after it fails with anything but the duplicate
    key error: a rejected call, or a quantity the schema refuses. *)
Theorem conflict_is_retried_once (req_user_id pid : ObjectId) (n : Z)
    (product : Product) (st : State) :
  let sched := st.(schedule) in
  let a1 := hd quiet sched in
  let a2 := hd quiet (tl sched) in
  let a3 := hd quiet (tl (tl sched)) in
  let s1 := a1.(concurrent) st.(store) in
  let s2 := a2.(concurrent) s1 in
  let s3 := a3.(concurrent) s2 in
  let after :=
    {| store := s3; writes := st.(writes); schedule := tl (tl (tl sched)) |} in
  let out := addOrIncrement req_user_id pid n product st in
  (a1.(rejection) = None ->
   List.find (same_pair req_user_id pid) s1.(cartproducts) = None ->
   1 <= n <= product.(countInstock) ->
   a2.(rejection) = None ->
   existsb (same_pair req_user_id pid) s2.(cartproducts) = true ->
   a3.(rejection) = None ->
   out
   = match List.find (same_pair req_user_id pid) s3.(cartproducts) with
     | None => (Throw (ApiError 409 "Cart item already exists"), after)
     | Some conflictItem =>
         if Z.gtb (conflictItem.(quantity) + n) product.(countInstock)
         then (Throw stockExceeded, after)
         else
           (saved <~ await (CartItem_save conflictItem
                              (conflictItem.(quantity) + n)) ;;
            ret {| status := 200; data := saved;
                   message := "Cart item quantity updated" |}) after
     end)
  /\ (fst out = Throw (ApiError 500 "Failed to add item to cart")
      <-> a1.(rejection) = None
          /\ List.find (same_pair req_user_id pid) s1.(cartproducts) = None
          /\ n <= product.(countInstock)
          /\ (a2.(rejection) <> None
              \/ n < 1
              \/ (existsb (same_pair req_user_id pid) s2.(cartproducts)
                  = false
                  /\ a3.(rejection) <> None))).
Proof.
  cbv zeta. rewrite addOrIncrement_run. cbv zeta. unfold waited.
  cbn [store writes schedule].
  destruct (rejection (hd quiet (schedule st))) as [name1|].
  { split; [discriminate|].
    split; [discriminate|]. intros (H & _). discriminate. }
  destruct (List.find _ _) as [existing|].
  { split; [discriminate|]. split; [|intros (_ & H & _); discriminate].
    intros H. apply increment_stock_error in H. destruct H as [H _].
    discriminate. }
  destruct (Z.gtb_spec n (countInstock product)) as [Hgt|Hle].
  { split; [intros _ _ [_ H]; lia|].
    split; [discriminate|]. intros (_ & _ & H & _). lia. }
  destruct (rejection (hd quiet (tl (schedule st)))) as [name2|].
  { split; [discriminate|]. cbn [fst].
    split; [|reflexivity]. intros _. repeat split; auto.
    left. discriminate. }
  unfold quantity_valid.
  destruct (Z.leb_spec 1 n) as [Hpos|Hneg]; cbn [negb].
  2:{ split; [intros _ _ [H _]; lia|]. cbn [fst].
      split; [|reflexivity]. intros _. repeat split; auto. }
  destruct (existsb _ _).
  - destruct (rejection (hd quiet (tl (tl (schedule st))))) as [name3|].
    { split; [discriminate|]. cbn [fst].
      split; [discriminate|].
      intros (_ & _ & _ & [H|[H|[H _]]]);
        [contradiction|lia|discriminate]. }
    split.
    + intros _ _ _ _ _ _.
      destruct (List.find _ _) as [item|]; [|reflexivity].
      unfold increment. destruct (Z.gtb _ _); reflexivity.
    + split.
      * destruct (List.find _ _) as [item|]; [|discriminate].
        intros H. apply increment_stock_error in H. destruct H as [H _].
        discriminate.
      * intros (_ & _ & _ & [H|[H|[H _]]]);
          [contradiction|lia|discriminate].
  - destruct (rejection (hd quiet (tl (tl (schedule st))))) as [name3|].
    + split; [discriminate|]. cbn [fst].
      split; [|reflexivity]. intros _. repeat split; auto.
      right. right. split; [reflexivity|discriminate].
    + split; [discriminate|]. cbn [fst].
      split; [discriminate|].
      intros (_ & _ & _ & [H|[H|[_ H]]]); [contradiction|lia|contradiction].
Qed.

Lemma conflict_is_retried_once_witness :
  fst (addOrIncrement 1 7 1 product7 (race remove_by_other))
  = Throw (ApiError 409 "Cart item already exists")
  /\ fst (addOrIncrement 1 7 1 product7 (race quiet))
     = Ok {| status := 200;
             data := {| _id := 99; userId := 1; productId := 7; quantity := 3 |};
             message := "Cart item quantity updated" |}.
Proof.
  split.
  - rewrite (proj1 (conflict_is_retried_once 1 7 1 product7
                      (race remove_by_other)));
      try reflexivity.
    split; intro H; discriminate H.
  - rewrite (proj1 (conflict_is_retried_once 1 7 1 product7 (race quiet)));
      try reflexivity.
    split; intro H; discriminate H.
Defined.

(** C3 as the claim words it fails: on a conflict whose second read
    finds nothing the handler answers with the 409 conflict error, not
    with the 500 error it keeps for a failed store call. *)
Lemma conflict_then_missing_is_409 :
  fst (addOrIncrement 1 7 1 product7 (race remove_by_other))
  = Throw (ApiError 409 "Cart item already exists")
  /\ fst (addOrIncrement 1 7 1 product7 (race remove_by_other))
     <> Throw (ApiError 500 "Failed to add item to cart").
Proof.
  split; [reflexivity|discriminate].
Qed.





End CartFacts.


(* ================================================================== *)
(** * Properties of [sort] *)
(* ================================================================== *)

Section SortFacts.

Variable leb : Doc -> Doc -> bool.

Let R (a b : Doc) : Prop := leb a b = true.

Lemma insert_by_perm (x : Doc) (l : list Doc) :
  Permutation (insert_by leb x l) (x :: l).
Proof.
  induction l as [|y r IH]; simpl.
  - apply Permutation_refl.
  - destruct (leb x y).
    + apply Permutation_refl.
    + apply Permutation_trans with (y :: x :: r).
      * apply perm_skip. exact IH.
      * apply perm_swap.
Qed.

Lemma sort_by_perm (l : list Doc) : Permutation (sort_by leb l) l.
Proof.
  induction l as [|x l IH]; simpl.
  - apply Permutation_refl.
  - apply Permutation_trans with (x :: sort_by leb l).
    + apply insert_by_perm.
    + apply perm_skip. exact IH.
Qed.

Lemma sort_by_In (l : list Doc) (x : Doc) :
  In x (sort_by leb l) <-> In x l.
Proof.
  split; apply Permutation_in;
    [|apply Permutation_sym]; apply sort_by_perm.
Qed.

Lemma insert_by_head (x : Doc) (l : list Doc) :
  Forall (R x) l -> insert_by leb x l = x :: l.
Proof.
  destruct l as [|y r]; simpl; [reflexivity|].
  intros H. inversion H as [|? ? Hxy _]; subst.
  unfold R in Hxy. rewrite Hxy. reflexivity.
Qed.

Hypothesis leb_total : forall a b, leb a b = true \/ leb b a = true.
Hypothesis leb_trans :
  forall a b c, leb a b = true -> leb b c = true -> leb a c = true.

Lemma insert_by_sorted (x : Doc) (l : list Doc) :
  StronglySorted R l -> StronglySorted R (insert_by leb x l).
Proof.
  induction l as [|y r IH]; simpl; intros Hs.
  - constructor; constructor.
  - inversion Hs as [|? ? Hr Hall]; subst.
    destruct (leb x y) eqn:Hxy.
    + constructor; [exact Hs|].
      constructor; [exact Hxy|].
      eapply Forall_impl; [|exact Hall].
      intros z Hyz. unfold R in *. eapply leb_trans; eauto.
    + constructor; [apply IH; exact Hr|].
      apply Permutation_Forall with (x :: r).
      * apply Permutation_sym. apply insert_by_perm.
      * constructor; [|exact Hall].
        destruct (leb_total x y) as [H|H]; [congruence|exact H].
Qed.

Lemma sort_by_sorted (l : list Doc) : StronglySorted R (sort_by leb l).
Proof.
  induction l as [|x l IH]; simpl.
  - constructor.
  - apply insert_by_sorted. exact IH.
Qed.

Lemma filter_insert_by (p : Doc -> bool) (x : Doc) (l : list Doc) :
  StronglySorted R l ->
  filter p (insert_by leb x l)
  = if p x then insert_by leb x (filter p l) else filter p l.
Proof.
  induction l as [|y r IH]; intros Hs.
  - simpl. destruct (p x); reflexivity.
  - inversion Hs as [|? ? Hr Hall]; subst.
    simpl. destruct (leb x y) eqn:Hxy.
    + simpl. destruct (p x) eqn:Hpx; [|reflexivity].
      symmetry. apply insert_by_head.
      assert (Hx : Forall (R x) (y :: r)).
      { constructor; [exact Hxy|].
        eapply Forall_impl; [|exact Hall].
        intros z Hyz. unfold R in *. eapply leb_trans; eauto. }
      apply Forall_forall. intros z Hz.
      replace (if p y then y :: filter p r else filter p r)
        with (filter p (y :: r)) in Hz by reflexivity.
      apply filter_In in Hz. destruct Hz as [Hz _].
      rewrite Forall_forall in Hx. apply Hx. exact Hz.
    + simpl. rewrite (IH Hr).
      destruct (p y) eqn:Hpy; destruct (p x) eqn:Hpx; simpl;
        rewrite ?Hxy; reflexivity.
Qed.

(** Filtering commutes with sorting. *)
Lemma sort_by_filter (p : Doc -> bool) (l : list Doc) :
  sort_by leb (filter p l) = filter p (sort_by leb l).
Proof.
  induction l as [|x l IH]; simpl; [reflexivity|].
  rewrite filter_insert_by by apply sort_by_sorted.
  destruct (p x); simpl; rewrite IH; reflexivity.
Qed.

End SortFacts.

(** Two orders that agree on the elements of a list sort it alike. *)
Lemma sort_by_ext (leb1 leb2 : Doc -> Doc -> bool) (l : list Doc) :
  (forall a b, In a l -> In b l -> leb1 a b = leb2 a b) ->
  sort_by leb1 l = sort_by leb2 l.
Proof.
  induction l as [|x l IH]; intros Hagree; simpl; [reflexivity|].
  rewrite <- IH by (intros a b Ha Hb; apply Hagree; right; assumption).
  assert (Hsub : forall y, In y (sort_by leb1 l) -> In y l).
  { intros y. apply sort_by_In. }
  revert Hsub. generalize (sort_by leb1 l) as s.
  induction s as [|y r IHs]; intros Hsub; simpl; [reflexivity|].
  rewrite (Hagree x y) by (simpl; auto using in_eq).
  destruct (leb2 x y); [reflexivity|].
  f_equal. apply IHs. intros z Hz. apply Hsub. right. exact Hz.
Qed.

Lemma filter_andb (p q : Doc -> bool) (l : list Doc) :
  filter (fun d => p d && q d) l = filter q (filter p l).
Proof.
  induction l as [|x l IH]; simpl; [reflexivity|].
  destruct (p x); simpl; [|exact IH].
  destruct (q x); rewrite IH; reflexivity.
Qed.

(** Documents of a collection with distinct creation times are told
    apart by their creation time. *)
Lemma same_createdAt_same_doc (coll : list Doc) (a b : Doc) :
  NoDup (map Mongo.createdAt coll) ->
  In a coll -> In b coll ->
  Mongo.createdAt a = Mongo.createdAt b -> a = b.
Proof.
  induction coll as [|x coll IH]; simpl; intros Hnd Ha Hb Heq; [contradiction|].
  inversion Hnd as [|? ? Hnot Hnd']; subst.
  destruct Ha as [<-|Ha]; destruct Hb as [<-|Hb]; auto.
  - exfalso. apply Hnot. rewrite Heq. apply in_map. exact Hb.
  - exfalso. apply Hnot. rewrite <- Heq. apply in_map. exact Ha.
Qed.

Lemma distinct_createdAt_filter (keep : Doc -> bool) (coll : list Doc) :
  NoDup (map Mongo.createdAt coll) ->
  NoDup (map Mongo.createdAt (filter keep coll)).
Proof.
  induction coll as [|x coll IH]; simpl; intros Hnd; [constructor|].
  inversion Hnd as [|? ? Hnot Hnd']; subst.
  destruct (keep x); simpl; [|auto].
  constructor; [|auto].
  intros Hin. apply Hnot. apply in_map_iff in Hin.
  destruct Hin as (y & Hy & Hin). apply filter_In in Hin.
  apply in_map_iff. exists y. tauto.
Qed.

Lemma leb_by_newest (a b : Doc) :
  leb_by (buildSort Undefined) a b = newest_first a b.
Proof.
  unfold leb_by, newest_first, buildSort; simpl. unfold getField; simpl.
  rewrite Z.leb_compare, (Z.compare_antisym (Mongo.createdAt a)).
  destruct (Mongo.createdAt a ?= Mongo.createdAt b); reflexivity.
Qed.

Lemma leb_by_cursorSort (a b : Doc) :
  leb_by (cursorSortOf Undefined) a b
  = if Z.eqb a.(Mongo.createdAt) b.(Mongo.createdAt)
    then Z.leb b.(_id) a.(_id)
    else newest_first a b.
Proof.
  unfold leb_by, newest_first, cursorSortOf; simpl. unfold getField; simpl.
  rewrite Z.eqb_compare, !Z.leb_compare.
  rewrite (Z.compare_antisym (Mongo.createdAt a)), (Z.compare_antisym (_id a)).
  destruct (Mongo.createdAt a ?= Mongo.createdAt b);
    destruct (_id a ?= _id b); reflexivity.
Qed.

Lemma newest_first_total (a b : Doc) :
  newest_first a b = true \/ newest_first b a = true.
Proof.
  unfold newest_first.
  destruct (Z.leb_spec (Mongo.createdAt b) (Mongo.createdAt a)); [auto|].
  right. apply Z.leb_le. lia.
Qed.

Lemma newest_first_trans (a b c : Doc) :
  newest_first a b = true -> newest_first b c = true ->
  newest_first a c = true.
Proof.
  unfold newest_first. rewrite !Z.leb_le. lia.
Qed.


Lemma sorted_distinct_is_strict (l : list Doc) :
  StronglySorted (fun a b => newest_first a b = true) l ->
  NoDup (map Mongo.createdAt l) ->
  StronglySorted newer l.
Proof.
  induction l as [|x l IH]; intros Hs Hnd; [constructor|].
  inversion Hs as [|? ? Hs' Hall]; subst.
  inversion Hnd as [|? ? Hnot Hnd']; subst.
  constructor; [auto|].
  apply Forall_forall. intros y Hy.
  rewrite Forall_forall in Hall. specialize (Hall y Hy).
  unfold newest_first in Hall. apply Z.leb_le in Hall.
  unfold newer.
  assert (Mongo.createdAt y <> Mongo.createdAt x).
  { intros Heq. apply Hnot. rewrite <- Heq. apply in_map. exact Hy. }
  lia.
Qed.


(** In a strictly sorted list the keyset filter of an element keeps
    exactly what follows it. *)
Lemma filter_after_cursor (pre suf : list Doc) (d : Doc) :
  StronglySorted newer (pre ++ d :: suf) ->
  filter (after_cursor false (cursor_of d)) (pre ++ d :: suf) = suf.
Proof.
  induction pre as [|x pre IH]; cbn [app filter]; intros Hs.
  - inversion Hs as [|? ? Hs' Hall]; subst.
    assert (Hself : after_cursor false (cursor_of d) d = false).
    { unfold after_cursor, cursor_of; simpl.
      rewrite !Z.ltb_irrefl, Z.eqb_refl. reflexivity. }
    rewrite Hself.
    apply forallb_filter_id. apply forallb_forall.
    intros y Hy. rewrite Forall_forall in Hall. specialize (Hall y Hy).
    unfold after_cursor, cursor_of, newer in *. simpl.
    apply orb_true_iff. left. apply Z.ltb_lt. exact Hall.
  - inversion Hs as [|? ? Hs' Hall]; subst.
    rewrite (IH Hs').
    rewrite Forall_forall in Hall.
    assert (Hd : newer x d) by (apply Hall; apply in_elt).
    assert (Hx : after_cursor false (cursor_of d) x = false).
    { unfold after_cursor, cursor_of, newer in *. simpl.
      destruct (Z.ltb_spec (Mongo.createdAt x) (Mongo.createdAt d)); [lia|].
      destruct (Z.eqb_spec (Mongo.createdAt x) (Mongo.createdAt d)); [lia|].
      reflexivity. }
    rewrite Hx. reflexivity.
Qed.

(* ================================================================== *)
(** * Properties of the lister on a static collection *)
(* ================================================================== *)

Lemma ceil_div_gt (a b p : Z) :
  0 < b -> (p < ceil_div a b <-> p * b < a).
Proof.
  intros Hb. unfold ceil_div.
  pose proof (Z.div_mod (- a) b) as Hdm.
  pose proof (Z.mod_pos_bound (- a) b Hb) as Hmod.
  split; intros H; nia.
Qed.

Section ListingFacts.

Variable P : Platform.
Variable coll : list Doc.
Variable query : Query.
Variable lim : Js.Value.
Variable show : Z -> Js.Value.



Lemma limitNumber_any_page (pg : Js.Value) :
  snd (parsePagination P pg lim) = (limitNumber P lim).
Proof. reflexivity. Qed.

Lemma limitNumber_range : 1 <= (limitNumber P lim) <= 100.
Proof.
  unfold limitNumber, parsePagination, at_most, or_default_max_1; simpl.
  destruct (P.(parseInt10) lim) as [| | |z]; lia.
Qed.

Lemma pageNumber_shown (p : Z) :
  P.(parseInt10) (show p) = IntOf p -> 1 <= p ->
  fst (parsePagination P (show p) lim) = Finite p.
Proof.
  intros Hp Hge. unfold parsePagination; simpl. rewrite Hp.
  unfold or_default_max_1. destruct (Z.eqb_spec p 0); [lia|].
  f_equal. lia.
Qed.

Lemma listing_newest_first :
  (listing coll query) = sort_by newest_first (filter (matches query) coll).
Proof.
  unfold listing, Mongo.sort. apply sort_by_ext.
  intros a b _ _. apply leb_by_newest.
Qed.

Lemma listing_length :
  List.length (listing coll query) = List.length (filter (matches query) coll).
Proof.
  apply Permutation_length. apply sort_by_perm.
Qed.

Lemma listing_length_le : (List.length (listing coll query) <= List.length coll)%nat.
Proof. rewrite listing_length. apply filter_length_le. Qed.

(** What a request without cursor returns. *)
Lemma offset_page (p : Z) :
  P.(parseInt10) (show p) = IntOf p -> 1 <= p ->
  P.(skip_accepted) (Finite ((p - 1) * limitNumber P lim)) = true ->
  listProducts P coll query (offsetRequest lim show p)
  = Ok {| items :=
            firstn (Z.to_nat (limitNumber P lim))
              (skipn (Z.to_nat ((p - 1) * (limitNumber P lim))) (listing coll query));
          pagination :=
            OffsetMode (Z.of_nat (List.length (listing coll query)))
              (Finite p) (limitNumber P lim)
              (ceil_div (Z.of_nat (List.length (listing coll query))) (limitNumber P lim)) |}.
Proof.
  intros Hp Hge Hskip. unfold listProducts, paginate, offsetRequest.
  cbn [page limit sort cursor].
  pose proof (pageNumber_shown Hp Hge) as Hpage.
  pose proof (limitNumber_any_page (show p)) as Hlim.
  destruct (parsePagination P (show p) lim) as [pn ln].
  simpl in Hpage, Hlim. subst pn ln.
  cbn [truthy skip_of]. rewrite Hskip. cbn [negb find_from].
  unfold find, countDocuments.
  change (matches_opt (Some query)) with (matches query).
  rewrite <- listing_length. reflexivity.
Qed.

(** The pages of a walk and the documents they skip are within the
    size of the collection. *)
Lemma walk_in_range (p : Z) :
  1 <= p ->
  p <= Z.max 1 (ceil_div (Z.of_nat (List.length (listing coll query)))
                  (limitNumber P lim)) ->
  p <= Z.of_nat (List.length coll) + 1
  /\ 0 <= (p - 1) * limitNumber P lim <= Z.of_nat (List.length coll).
Proof.
  intros Hp Hmax.
  pose proof limitNumber_range as Hl.
  pose proof listing_length_le as Hlen.
  destruct (Z.eq_dec p 1) as [->|Hne]; [lia|].
  assert (Hlt : p - 1 < ceil_div (Z.of_nat (List.length (listing coll query)))
                          (limitNumber P lim)) by lia.
  apply ceil_div_gt in Hlt; [|lia]. nia.
Qed.

Lemma offsetWalk_from (fuel : nat) :
  forall p,
    (forall q, 1 <= q <= Z.of_nat (List.length coll) + 1 ->
               P.(parseInt10) (show q) = IntOf q) ->
    (forall k, 0 <= k <= Z.of_nat (List.length coll) ->
               P.(skip_accepted) (Finite k) = true) ->
    1 <= p ->
    p <= Z.max 1 (ceil_div (Z.of_nat (List.length (listing coll query)))
                    (limitNumber P lim)) ->
    (Z.to_nat (ceil_div (Z.of_nat (List.length (listing coll query))) (limitNumber P lim) - p)
     < fuel)%nat ->
    offsetWalk P coll query lim show fuel p
    = Some (skipn (Z.to_nat ((p - 1) * (limitNumber P lim))) (listing coll query)).
Proof.
  pose proof limitNumber_range as Hl.
  induction fuel as [|fuel IH]; intros p Hshow Hskip Hp Hmax Hfuel; [lia|].
  destruct (walk_in_range Hp Hmax) as [Hpage Hskipped].
  cbn [offsetWalk].
  rewrite (offset_page (Hshow p (conj Hp Hpage)) Hp (Hskip _ Hskipped)).
  cbn [pagination items].
  set (k := Z.to_nat ((p - 1) * (limitNumber P lim))).
  set (n := Z.to_nat (limitNumber P lim)).
  destruct (Z.ltb_spec p (ceil_div (Z.of_nat (List.length (listing coll query))) (limitNumber P lim)))
    as [Hlt|Hge].
  - rewrite IH; try lia; auto.
    simpl. f_equal.
    replace (Z.to_nat ((p + 1 - 1) * (limitNumber P lim))) with (n + k)%nat
      by (unfold n, k; nia).
    rewrite <- skipn_skipn. apply firstn_skipn.
  - f_equal. apply firstn_all2. rewrite length_skipn.
    assert (~ p * (limitNumber P lim) < Z.of_nat (List.length (listing coll query))).
    { intros H. apply ceil_div_gt in H; lia. }
    unfold n, k. nia.
Qed.

Hypothesis distinct : NoDup (map Mongo.createdAt coll).

Lemma listing_distinct : NoDup (map Mongo.createdAt (listing coll query)).
Proof.
  apply Permutation_NoDup
    with (l := map Mongo.createdAt (filter (matches query) coll)).
  - apply Permutation_map. apply Permutation_sym. apply sort_by_perm.
  - apply distinct_createdAt_filter. exact distinct.
Qed.

Lemma listing_strict : StronglySorted newer (listing coll query).
Proof.
  apply sorted_distinct_is_strict; [|apply listing_distinct].
  rewrite listing_newest_first.
  apply sort_by_sorted.
  - apply newest_first_total.
  - apply newest_first_trans.
Qed.

Lemma listing_In (d : Doc) : In d (listing coll query) -> In d coll.
Proof.
  unfold listing, Mongo.sort. rewrite sort_by_In.
  intros H. apply filter_In in H. tauto.
Qed.

(** What the store returns for the filter and sort of cursor mode:
    the part of the (listing coll query) after the cursor's document. *)
Lemma keyset_query_result (pre suf : list Doc) (d : Doc) :
  (listing coll query) = pre ++ d :: suf ->
  Mongo.sort (cursorSortOf Undefined)
    (filter
       (matches_opt
          (combineQuery (Some query)
             (buildCursorFilter (Some (cursor_of d)) Undefined))) coll)
  = suf.
Proof.
  intros Hsplit.
  rewrite (filter_ext _ (fun x => matches query x
                                  && after_cursor false (cursor_of d) x)).
  2:{ intros x. rewrite combineQuery_matches, buildCursorFilter_matches.
      reflexivity. }
  rewrite filter_andb.
  unfold Mongo.sort.
  rewrite (@sort_by_ext _ newest_first).
  - rewrite sort_by_filter
      by (apply newest_first_total || apply newest_first_trans).
    rewrite <- listing_newest_first, Hsplit.
    apply filter_after_cursor. rewrite <- Hsplit. apply listing_strict.
  - intros a b Ha Hb. rewrite leb_by_cursorSort.
    destruct (Z.eqb_spec (Mongo.createdAt a) (Mongo.createdAt b)) as [Heq|];
      [|reflexivity].
    assert (a = b) as ->.
    { apply same_createdAt_same_doc with (coll := coll); auto.
      - apply filter_In in Ha. destruct Ha as [Ha _].
        apply filter_In in Ha. tauto.
      - apply filter_In in Hb. destruct Hb as [Hb _].
        apply filter_In in Hb. tauto. }
    unfold newest_first. rewrite !Z.leb_refl. reflexivity.
Qed.

Hypothesis faithful :
  forall d, In d coll -> faithful_at P d.(Mongo.createdAt) d.(_id).

Lemma token_of (d : Doc) :
  In d coll ->
  exists token,
    encodeCursor P d.(Mongo.createdAt) d.(_id) = Ok token
    /\ truthy (Str token) = true
    /\ decodeCursor P (Str token) = Ok (cursor_of d).
Proof.
  intros Hin. exact (token_roundtrip (faithful d Hin)).
Qed.

(** What a request with the cursor of a listed document returns. *)
Lemma cursor_page (pre suf : list Doc) (d : Doc) (token : string) :
  (listing coll query) = pre ++ d :: suf ->
  encodeCursor P d.(Mongo.createdAt) d.(_id) = Ok token ->
  let n := Z.to_nat (limitNumber P lim) in
  exists next,
    listProducts P coll query (cursorRequest lim (Str token))
    = Ok {| items := firstn n suf;
            pagination :=
              CursorMode (limitNumber P lim) next (Nat.ltb n (List.length suf)) |}
    /\ (if Nat.ltb n (List.length suf)
        then exists mid lastDoc nextToken,
               firstn n suf = mid ++ [lastDoc]
               /\ encodeCursor P lastDoc.(Mongo.createdAt) lastDoc.(_id)
                  = Ok nextToken
               /\ next = Some nextToken
        else next = None).
Proof.
  intros Hsplit Henc n.
  pose proof limitNumber_range as Hl.
  assert (Hd : In d coll).
  { apply listing_In. rewrite Hsplit. apply in_elt. }
  destruct (@token_of d Hd) as (token' & Henc' & Htruthy & Hdec).
  rewrite Henc in Henc'. inversion Henc'; subst token'.
  unfold listProducts, paginate, cursorRequest.
  cbn [page limit sort cursor].
  pose proof (limitNumber_any_page Undefined) as Hlim.
  destruct (parsePagination P Undefined lim) as [pn ln].
  simpl in Hlim. subst ln.
  rewrite Htruthy. cbn [truthy andb]. rewrite Hdec. cbn [Js.bind].
  unfold find. rewrite (keyset_query_result _ _ _ Hsplit).
  cbn [skipn Z.to_nat].
  replace (Z.to_nat ((limitNumber P lim) + 1)) with (S n) by (unfold n; lia).
  rewrite length_firstn.
  destruct (Nat.ltb_spec n (List.length suf)) as [Hlt|Hge].
  - destruct (Z.ltb_spec (limitNumber P lim)
                (Z.of_nat (Nat.min (S n) (List.length suf)))) as [_|Hbad];
      [|unfold n in *; lia].
    rewrite (removelast_firstn suf Hlt).
    assert (Hne : firstn n suf <> []).
    { intros Hnil. apply (f_equal (@List.length Doc)) in Hnil.
      rewrite length_firstn in Hnil. simpl in Hnil. unfold n in *. lia. }
    destruct (rev (firstn n suf)) as [|lastDoc r] eqn:Hrev.
    { exfalso. apply Hne. rewrite <- (rev_involutive (firstn n suf)), Hrev.
      reflexivity. }
    assert (Hlast : firstn n suf = rev r ++ [lastDoc]).
    { rewrite <- (rev_involutive (firstn n suf)), Hrev. reflexivity. }
    assert (Hin : In lastDoc coll).
    { apply listing_In. rewrite Hsplit. apply in_or_app. right. right.
      rewrite <- (firstn_skipn n suf). apply in_or_app. left.
      rewrite Hlast. apply in_or_app. right. left. reflexivity. }
    destruct (@token_of lastDoc Hin) as (nextToken & Hnext & _ & _).
    rewrite Hnext. cbn [Js.bind].
    exists (Some nextToken). split; [reflexivity|].
    exists (rev r), lastDoc, nextToken. auto.
  - destruct (Z.ltb_spec (limitNumber P lim)
                (Z.of_nat (Nat.min (S n) (List.length suf)))) as [Hbad|_];
      [unfold n in *; lia|].
    cbn [Js.bind]. exists None. split; [|reflexivity].
    rewrite (firstn_all2 (n := S n)) by lia.
    rewrite (firstn_all2 (n := n)) by lia. reflexivity.
Qed.

(** Following [nextCursor] from the cursor of a listed document yields
    the rest of the (listing coll query). *)
Lemma followCursor_from (fuel : nat) :
  forall pre suf d token,
    (listing coll query) = pre ++ d :: suf ->
    encodeCursor P d.(Mongo.createdAt) d.(_id) = Ok token ->
    (List.length suf < fuel)%nat ->
    followCursor P coll query lim fuel (Str token) = Some suf.
Proof.
  pose proof limitNumber_range as Hl.
  induction fuel as [|fuel IH]; intros pre suf d token Hsplit Henc Hfuel;
    [lia|].
  cbn [followCursor].
  destruct (cursor_page _ _ _ Hsplit Henc) as (next & Hpage & Hnext).
  rewrite Hpage. cbn [pagination items].
  set (n := Z.to_nat (limitNumber P lim)) in *.
  destruct (Nat.ltb_spec n (List.length suf)) as [Hlt|Hge].
  - destruct Hnext as (mid & lastDoc & nextToken & Hlast & Hnenc & ->).
    rewrite (IH (pre ++ d :: mid) (skipn n suf) lastDoc nextToken).
    + simpl. rewrite firstn_skipn. reflexivity.
    + rewrite Hsplit, <- app_assoc. cbn [app]. do 2 f_equal.
      rewrite <- (firstn_skipn n suf) at 1. rewrite Hlast, <- app_assoc.
      reflexivity.
    + exact Hnenc.
    + rewrite length_skipn. unfold n in *. lia.
  - subst next. rewrite firstn_all2 by lia. reflexivity.
Qed.

End ListingFacts.

(** The offset-mode pages 1, 2, ... put end to end are the whole
    listing. *)
Lemma offsetWalk_lists_all (P : Platform)
    (coll : list Doc) (query : Query) (lim : Js.Value)
    (show : Z -> Js.Value) (fuel : nat) :
  (forall p, 1 <= p <= Z.of_nat (List.length coll) + 1 ->
             P.(parseInt10) (show p) = IntOf p) ->
  (forall k, 0 <= k <= Z.of_nat (List.length coll) ->
             P.(skip_accepted) (Finite k) = true) ->
  (List.length coll < fuel)%nat ->
  offsetWalk P coll query lim show fuel 1 = Some (listing coll query).
Proof.
  intros Hshow Hskip Hfuel.
  pose proof (limitNumber_range P lim) as Hl.
  pose proof (listing_length_le coll query) as Hlen.
  assert (Hone : 1 <= 1) by lia.
  rewrite (@offsetWalk_from P coll query lim show fuel 1 Hshow Hskip Hone).
  + reflexivity.
  + lia.
  + assert (Hc : ~ Z.of_nat (List.length coll)
                   < ceil_div (Z.of_nat (List.length (listing coll query)))
                       (limitNumber P lim)).
    { intros H. apply ceil_div_gt in H; nia. }
    lia.
Qed.

(** The first page followed by the cursor-mode pages that resume after
    its last document is the whole listing. *)
Lemma resumedWalk_lists_all (P : Platform)
    (coll : list Doc) (query : Query) (lim : Js.Value)
    (show : Z -> Js.Value) (fuel : nat) :
  NoDup (map Mongo.createdAt coll) ->
  (forall d, In d coll -> faithful_at P d.(Mongo.createdAt) d.(_id)) ->
  P.(parseInt10) (show 1) = IntOf 1 ->
  P.(skip_accepted) (Finite 0) = true ->
  (List.length coll < fuel)%nat ->
  resumedWalk P coll query lim show fuel = Some (listing coll query).
Proof.
  intros Hdistinct Hfaithful Hshow Hskip Hfuel.
  pose proof (limitNumber_range P lim) as Hl.
  pose proof (listing_length_le coll query) as Hlen.
  assert (Hone : 1 <= 1) by lia.
  unfold resumedWalk.
  rewrite (@offset_page P coll query lim show 1 Hshow Hone Hskip).
  cbn [pagination items]. change (Z.to_nat ((1 - 1) * limitNumber P lim)) with 0%nat.
  cbn [skipn].
  set (n := Z.to_nat (limitNumber P lim)).
  destruct (rev (firstn n (listing coll query))) as [|lastDoc r] eqn:Hrev.
  { assert (Hnil : firstn n (listing coll query) = []).
    { rewrite <- (rev_involutive (firstn n _)), Hrev. reflexivity. }
    rewrite Hnil. f_equal.
    destruct (listing coll query) as [|x l]; [reflexivity|].
    assert (n <> 0%nat) by (unfold n; lia).
    destruct n; [contradiction|discriminate]. }
  assert (Hlast : firstn n (listing coll query) = rev r ++ [lastDoc]).
  { rewrite <- (rev_involutive (firstn n _)), Hrev. reflexivity. }
  destruct (Z.ltb_spec 1
              (ceil_div (Z.of_nat (List.length (listing coll query)))
                 (limitNumber P lim))) as [Hmore|Hdone].
  + assert (Hsplit : listing coll query
                     = rev r ++ lastDoc :: skipn n (listing coll query)).
    { rewrite <- (firstn_skipn n (listing coll query)) at 1.
      rewrite Hlast, <- app_assoc. reflexivity. }
    assert (Hin : In lastDoc coll).
    { apply (@listing_In coll query). rewrite Hsplit. apply in_elt. }
    destruct (@token_of P coll Hfaithful lastDoc Hin) as (token & Henc & _ & _).
    rewrite Henc.
    rewrite (@followCursor_from P coll query lim Hdistinct Hfaithful fuel
               (rev r) (skipn n (listing coll query)) lastDoc token Hsplit Henc).
    * simpl. rewrite firstn_skipn. reflexivity.
    * rewrite length_skipn. lia.
  + f_equal. apply firstn_all2.
    assert (~ 1 * limitNumber P lim
              < Z.of_nat (List.length (listing coll query))).
    { intros H. apply ceil_div_gt in H; lia. }
    unfold n. lia.
Qed.

(** A request without a cursor is answered in offset mode, whose
    [pagination] has no [nextCursor]. *)
Lemma cursorless_is_offset (P : Platform) (coll : list Doc)
    (query : option Query) (offsetSort : SortSpec) (req : ListQuery)
    (l : Listing) :
  truthy req.(cursor) = false ->
  paginate P coll query offsetSort req = Ok l ->
  exists total pg n totalPages,
    l.(pagination) = OffsetMode total pg n totalPages.
Proof.
  intros Hcursor. unfold paginate.
  destruct (parsePagination P req.(page) req.(limit)) as [pn ln].
  rewrite Hcursor.
  destruct (negb _); [discriminate|].
  intros [= <-]. cbn [pagination]. eauto.
Qed.

(** C8, as the handler does it. On a static collection whose documents
    have pairwise distinct [createdAt] (and on which the built-ins are
    faithful: the cursor built-ins on the documents, [parseInt] on the
    page numbers up to the size of the collection, and the store takes a
    skip up to that size), the concatenation of the offset-mode pages 1,
    2, ... in newest-first order is the whole listing, and so is the
    first page followed by the cursor-mode pages reached from the cursor
    of that page's last document by following [nextCursor] until
    [hasNextPage] is false.  The first page cannot come from cursor
    mode: whatever else it asks for, a request without cursor that is
    answered is answered in offset mode, whose [pagination] carries no
    [nextCursor]. *)
Theorem offset_pages_equal_resumed_cursor_pages (P : Platform)
    (coll : list Doc) (query : Query) (lim : Js.Value)
    (show : Z -> Js.Value) (fuel : nat) :
  NoDup (map Mongo.createdAt coll) ->
  (forall d, In d coll -> faithful_at P d.(Mongo.createdAt) d.(_id)) ->
  (forall p, 1 <= p <= Z.of_nat (List.length coll) + 1 ->
             P.(parseInt10) (show p) = IntOf p) ->
  (forall k, 0 <= k <= Z.of_nat (List.length coll) ->
             P.(skip_accepted) (Finite k) = true) ->
  (List.length coll < fuel)%nat ->
  offsetWalk P coll query lim show fuel 1 = Some (listing coll query)
  /\ resumedWalk P coll query lim show fuel = Some (listing coll query)
  /\ (forall req l,
        truthy req.(cursor) = false ->
        listProducts P coll query req = Ok l ->
        exists total pg n totalPages,
          l.(pagination) = OffsetMode total pg n totalPages).
Proof.
  intros Hdistinct Hfaithful Hshow Hskip Hfuel. split; [|split].
  - apply offsetWalk_lists_all; assumption.
  - apply resumedWalk_lists_all; try assumption.
    + apply Hshow. lia.
    + apply Hskip. lia.
  - intros req l Hcursor. unfold listProducts.
    apply cursorless_is_offset. exact Hcursor.
Qed.

(* ================================================================== *)
(** * The executable platform on page numbers *)
(* ================================================================== *)


Lemma code_of_digit (d : Z) :
  0 <= d < 10 -> Node.code (Node.char (48 + d)) = 48 + d.
Proof.
  intros H.
  assert (Hd : d = 0 \/ d = 1 \/ d = 2 \/ d = 3 \/ d = 4 \/ d = 5 \/ d = 6
               \/ d = 7 \/ d = 8 \/ d = 9) by lia.
  repeat (destruct Hd as [->|Hd]; [reflexivity|]). subst. reflexivity.
Qed.

Lemma decimal_snoc (l : list ascii) (c : ascii) :
  Node.decimal (l ++ [c]) = 10 * Node.decimal l + Node.digit_value c.
Proof.
  unfold Node.decimal. rewrite fold_left_app. reflexivity.
Qed.

Lemma digits_fuel_S (f : nat) (n : Z) :
  Node.digits_fuel (S f) n
  = if Z.ltb n 10 then [Node.char (48 + n)]
    else Node.digits_fuel f (n / 10) ++ [Node.char (48 + n mod 10)].
Proof. reflexivity. Qed.

Lemma digits_fuel_spec (f : nat) :
  forall n, 0 <= n < 2 ^ Z.of_nat (S f) ->
    Node.decimal (Node.digits_fuel (S f) n) = n
    /\ forallb Node.is_digit (Node.digits_fuel (S f) n) = true
    /\ Node.digits_fuel (S f) n <> [].
Proof.
  assert (Hdigit : forall d, 0 <= d < 10 ->
            Node.is_digit (Node.char (48 + d)) = true
            /\ Node.digit_value (Node.char (48 + d)) = d).
  { intros d Hd. unfold Node.is_digit, Node.between, Node.digit_value.
    rewrite (code_of_digit Hd). split; [|lia].
    apply andb_true_iff. split; apply Z.leb_le; lia. }
  induction f as [|f IH]; intros n Hn.
  - change (2 ^ Z.of_nat 1) with 2 in Hn.
    rewrite digits_fuel_S.
    destruct (Z.ltb_spec n 10); [|lia].
    destruct (Hdigit n) as [H1 H2]; [lia|].
    repeat split.
    + unfold Node.decimal. cbn [fold_left]. rewrite H2. lia.
    + cbn [forallb]. rewrite H1. reflexivity.
    + discriminate.
  - rewrite digits_fuel_S.
    destruct (Z.ltb_spec n 10) as [Hlt|Hge].
    + destruct (Hdigit n) as [H1 H2]; [lia|].
      repeat split.
      * unfold Node.decimal. cbn [fold_left]. rewrite H2. lia.
      * cbn [forallb]. rewrite H1. reflexivity.
      * discriminate.
    + assert (Hdiv : 0 <= n / 10 < 2 ^ Z.of_nat (S f)).
      { rewrite Nat2Z.inj_succ, Z.pow_succ_r in Hn by lia.
        split; [apply Z.div_pos; lia|].
        apply Z.div_lt_upper_bound; lia. }
      destruct (IH (n / 10) Hdiv) as (Hval & Hall & Hne).
      destruct (Hdigit (n mod 10)) as [H1 H2];
        [apply Z.mod_pos_bound; lia|].
      repeat split.
      * rewrite decimal_snoc, Hval, H2.
        pose proof (Z.div_mod n 10). lia.
      * rewrite forallb_app, Hall. cbn [forallb]. rewrite H1. reflexivity.
      * intros Hnil. apply app_eq_nil in Hnil. destruct Hnil. discriminate.
Qed.

Lemma span_all (p : ascii -> bool) (l : list ascii) :
  forallb p l = true -> Node.span p l = (l, []).
Proof.
  induction l as [|c r IH]; simpl; [reflexivity|].
  intros H. apply andb_true_iff in H. destruct H as [Hc Hr].
  rewrite Hc, (IH Hr). reflexivity.
Qed.

(** An integer of at most 53 bits is a double. *)
Lemma nearest_double_exact (z : Z) :
  Z.abs z < 2 ^ 53 -> Node.nearest_double z = IntOf z.
Proof.
  intros Hz. unfold Node.nearest_double.
  destruct (Z.ltb_spec (Z.abs z) (2 ^ 53)); [reflexivity|lia].
Qed.

(** [parseInt] reads back the page number a client writes, as long as
    the number is a double. *)
Lemma show_page_parses (p : Z) :
  1 <= p < 2 ^ 53 -> Node.parseInt10 (show_page p) = IntOf p.
Proof.
  intros [Hp Hdouble].
  unfold show_page, Node.parseInt10, Node.text, Node.chars.
  rewrite list_ascii_of_string_of_list_ascii.
  unfold Node.digits.
  destruct (@digits_fuel_spec (Z.to_nat (Z.log2 p)) p) as (Hval & Hall & Hne).
  { split; [lia|].
    rewrite Nat2Z.inj_succ, Z2Nat.id by apply Z.log2_nonneg.
    apply Z.log2_spec. lia. }
  set (l := Node.digits_fuel (S (Z.to_nat (Z.log2 p))) p) in *.
  unfold Node.parse_int.
  destruct l as [|c r]; [contradiction|].
  simpl in Hall. apply andb_true_iff in Hall. destruct Hall as [Hc Hr].
  assert (Hrange : 48 <= Node.code c <= 57).
  { unfold Node.is_digit, Node.between in Hc.
    apply andb_true_iff in Hc. rewrite !Z.leb_le in Hc. exact Hc. }
  assert (Hspace : Node.is_space c = false).
  { unfold Node.is_space, Node.between.
    destruct (Z.eqb_spec (Node.code c) 32); [lia|].
    destruct (Z.leb_spec 9 (Node.code c)); simpl; [|reflexivity].
    destruct (Z.leb_spec (Node.code c) 13); [lia|reflexivity]. }
  cbn [Node.drop_while]. rewrite Hspace.
  destruct (Z.eqb_spec (Node.code c) 45); [lia|].
  destruct (Z.eqb_spec (Node.code c) 43); [lia|].
  rewrite span_all by (simpl; rewrite Hc, Hr; reflexivity).
  cbn [fst]. rewrite Hval. apply nearest_double_exact. lia.
Qed.

(** The store of the executable platform takes every skip within a
    collection of fewer than [2 ^ 53] documents. *)
Lemma node_skip_accepted (k bound : Z) :
  0 <= k <= bound -> bound < 2 ^ 53 ->
  Node.skip_accepted (Finite k) = true.
Proof.
  intros Hk Hbound. unfold Node.skip_accepted.
  apply andb_true_iff. split; [apply Z.leb_le|apply Z.ltb_lt]; lia.
Qed.

(* ================================================================== *)
(** * The executable platform is faithful on every valid pair *)
(* ================================================================== *)

Lemma code_range (c : ascii) : 0 <= Node.code c < 256.
Proof.
  unfold Node.code. pose proof (N_ascii_bounded c). lia.
Qed.

Lemma char_code (c : ascii) : Node.char (Node.code c) = c.
Proof.
  unfold Node.char, Node.code. rewrite N2Z.id. apply ascii_N_embedding.
Qed.

Lemma code_char (n : Z) : 0 <= n < 256 -> Node.code (Node.char n) = n.
Proof.
  intros H. unfold Node.char, Node.code.
  rewrite N_ascii_embedding by lia. lia.
Qed.

Lemma chars_text (l : list ascii) : Node.chars (Node.text l) = l.
Proof. apply list_ascii_of_string_of_list_ascii. Qed.

Lemma text_chars (s : string) : Node.text (Node.chars s) = s.
Proof. apply string_of_list_ascii_of_string. Qed.

Lemma text_nonempty (c : ascii) (l : list ascii) :
  string_nonempty (Node.text (c :: l)) = true.
Proof. reflexivity. Qed.

(** A number below [bound] is one of [0 .. bound - 1]. *)
Lemma below_in_range (bound : nat) (n : Z) :
  0 <= n < Z.of_nat bound -> In n (map Z.of_nat (seq 0 bound)).
Proof.
  intros H. apply in_map_iff. exists (Z.to_nat n).
  split; [lia|]. apply in_seq. lia.
Qed.

(** ** Base64 *)

Lemma sextet_table :
  forallb
    (fun n =>
       match Node.sextet_of (Node.sextet_char n) with
       | Some m => Z.eqb m n
       | None => false
       end && negb (Z.eqb (Node.code (Node.sextet_char n)) 61))
    (map Z.of_nat (seq 0 64)) = true.
Proof. vm_compute. reflexivity. Qed.

Lemma sextet_of_char (n : Z) :
  0 <= n < 64 ->
  Node.sextet_of (Node.sextet_char n) = Some n
  /\ Z.eqb (Node.code (Node.sextet_char n)) 61 = false.
Proof.
  intros H.
  pose proof sextet_table as Htab. rewrite forallb_forall in Htab.
  specialize (Htab n (@below_in_range 64 n H)).
  apply andb_true_iff in Htab. destruct Htab as [H1 H2].
  split.
  - destruct (Node.sextet_of (Node.sextet_char n)) as [m|]; [|discriminate].
    apply Z.eqb_eq in H1. subst. reflexivity.
  - apply negb_true_iff. exact H2.
Qed.

Lemma sextets_cons (n : Z) (rest : list ascii) :
  0 <= n < 64 ->
  Node.sextets (Node.sextet_char n :: rest) = n :: Node.sextets rest.
Proof.
  intros H. destruct (sextet_of_char H) as [H1 H2].
  cbn [Node.sextets]. rewrite H2, H1. reflexivity.
Qed.

Lemma sextets_padding (rest : list ascii) :
  Node.sextets ("="%char :: rest) = [].
Proof. reflexivity. Qed.

(** Three bytes cut into four sextets and put together again. *)
Lemma regroup3 (a b c : Z) :
  0 <= a < 256 -> 0 <= b < 256 -> 0 <= c < 256 ->
  let n := a * 65536 + b * 256 + c in
  let n' := n / 262144 * 262144 + n / 4096 mod 64 * 4096
            + n / 64 mod 64 * 64 + n mod 64 in
  n' / 65536 = a /\ n' / 256 mod 256 = b /\ n' mod 256 = c.
Proof.
  intros Ha Hb Hc n n'.
  assert (Hn : n' = n) by (unfold n'; Z.div_mod_to_equations; lia).
  rewrite Hn. unfold n. Z.div_mod_to_equations. lia.
Qed.

Lemma regroup2 (a b : Z) :
  0 <= a < 256 -> 0 <= b < 256 ->
  let n := a * 65536 + b * 256 in
  let n' := n / 262144 * 262144 + n / 4096 mod 64 * 4096
            + n / 64 mod 64 * 64 in
  n' / 65536 = a /\ n' / 256 mod 256 = b.
Proof.
  intros Ha Hb n n'.
  assert (Hn : n' = n) by (unfold n', n; Z.div_mod_to_equations; lia).
  rewrite Hn. unfold n. Z.div_mod_to_equations. lia.
Qed.

Lemma regroup1 (a : Z) :
  0 <= a < 256 ->
  let n := a * 65536 in
  let n' := n / 262144 * 262144 + n / 4096 mod 64 * 4096 in
  n' / 65536 = a.
Proof.
  intros Ha n n'.
  assert (Hn : n' = n) by (unfold n', n; Z.div_mod_to_equations; lia).
  rewrite Hn. unfold n. Z.div_mod_to_equations. lia.
Qed.

Lemma sextet_bounds (n : Z) :
  0 <= n < 16777216 ->
  0 <= n / 262144 < 64 /\ 0 <= n / 4096 mod 64 < 64
  /\ 0 <= n / 64 mod 64 < 64 /\ 0 <= n mod 64 < 64.
Proof. intros H. Z.div_mod_to_equations. lia. Qed.

Lemma base64_roundtrip_fuel (k : nat) :
  forall bytes, (List.length bytes <= k)%nat ->
    Node.base64_decode (Node.base64_encode bytes) = bytes.
Proof.
  unfold Node.base64_decode.
  induction k as [|k IH]; intros bytes Hlen.
  - destruct bytes; [reflexivity|simpl in Hlen; lia].
  - destruct bytes as [|a [|b [|c rest]]].
    + reflexivity.
    + pose proof (code_range a) as Ha.
      cbn [Node.base64_encode].
      set (n := Node.code a * 65536).
      destruct (@sextet_bounds n) as (H1 & H2 & _); [unfold n; lia|].
      rewrite (sextets_cons _ H1), (sextets_cons _ H2), sextets_padding.
      cbn [Node.base64_bytes].
      unfold n. rewrite (regroup1 Ha), char_code. reflexivity.
    + pose proof (code_range a) as Ha. pose proof (code_range b) as Hb.
      cbn [Node.base64_encode].
      set (n := Node.code a * 65536 + Node.code b * 256).
      destruct (@sextet_bounds n) as (H1 & H2 & H3 & _); [unfold n; lia|].
      rewrite (sextets_cons _ H1), (sextets_cons _ H2), (sextets_cons _ H3),
        sextets_padding.
      cbn [Node.base64_bytes].
      destruct (regroup2 Ha Hb) as (E1 & E2).
      unfold n. rewrite E1, E2, !char_code. reflexivity.
    + pose proof (code_range a) as Ha. pose proof (code_range b) as Hb.
      pose proof (code_range c) as Hc.
      cbn [Node.base64_encode].
      set (n := Node.code a * 65536 + Node.code b * 256 + Node.code c).
      destruct (@sextet_bounds n) as (H1 & H2 & H3 & H4); [unfold n; lia|].
      rewrite (sextets_cons _ H1), (sextets_cons _ H2), (sextets_cons _ H3),
        (sextets_cons _ H4).
      cbn [Node.base64_bytes].
      destruct (regroup3 Ha Hb Hc) as (E1 & E2 & E3).
      unfold n. rewrite E1, E2, E3, !char_code.
      rewrite IH by (simpl in Hlen; lia). reflexivity.
Qed.

(** Decoding undoes encoding, on every byte string. *)
Lemma base64_roundtrip (s : string) :
  Node.utf8_of_base64 (Str (Node.base64_of_utf8 s)) = Returns s.
Proof.
  unfold Node.utf8_of_base64, Node.base64_of_utf8.
  rewrite chars_text, (@base64_roundtrip_fuel (List.length (Node.chars s)))
    by apply le_n.
  rewrite text_chars. reflexivity.
Qed.

Lemma base64_nonempty (s : string) :
  string_nonempty s = true ->
  string_nonempty (Node.base64_of_utf8 s) = true.
Proof.
  destruct s as [|c s]; [discriminate|]. intros _.
  unfold Node.base64_of_utf8.
  change (Node.chars (String c s)) with (c :: Node.chars s).
  destruct (Node.chars s) as [|b [|d rest]]; reflexivity.
Qed.

(** ** JSON *)

Lemma plain_codes (c : ascii) :
  plain c = true ->
  32 <= Node.code c /\ Node.code c <> 34 /\ Node.code c <> 92.
Proof.
  unfold plain. intros H.
  apply andb_true_iff in H. destruct H as [H H92].
  apply andb_true_iff in H. destruct H as [H32 H34].
  apply Z.leb_le in H32.
  apply negb_true_iff, Z.eqb_neq in H34.
  apply negb_true_iff, Z.eqb_neq in H92. auto.
Qed.

Lemma escape_plain (c : ascii) : plain c = true -> Node.escape c = [c].
Proof.
  intros H. destruct (plain_codes c H) as (H32 & H34 & H92).
  unfold Node.escape.
  repeat match goal with
         | |- context [Z.eqb (Node.code c) ?k] =>
             destruct (Z.eqb_spec (Node.code c) k); [lia|]
         end.
  destruct (Z.ltb_spec (Node.code c) 32); [lia|reflexivity].
Qed.

Lemma quote_plain (s : string) (rest : list ascii) :
  forallb plain (Node.chars s) = true ->
  Node.quote s ++ rest = Node.dquote :: Node.chars s ++ Node.dquote :: rest.
Proof.
  intros H. unfold Node.quote.
  assert (Hflat : flat_map Node.escape (Node.chars s) = Node.chars s).
  { induction (Node.chars s) as [|c l IH]; [reflexivity|].
    simpl in H. apply andb_true_iff in H. destruct H as [Hc Hl].
    cbn [flat_map]. rewrite (escape_plain c Hc), (IH Hl). reflexivity. }
  rewrite Hflat. cbn [app]. rewrite <- app_assoc. reflexivity.
Qed.

Lemma string_body_plain (l : list ascii) :
  forall acc rest,
    forallb plain l = true ->
    Node.string_body (l ++ Node.dquote :: rest) acc
    = Some (Node.text (rev acc ++ l), rest).
Proof.
  induction l as [|c l IH]; intros acc rest H.
  - rewrite app_nil_r. reflexivity.
  - simpl in H. apply andb_true_iff in H. destruct H as [Hc Hl].
    destruct (plain_codes c Hc) as (H32 & H34 & H92).
    cbn [app Node.string_body].
    destruct (Z.eqb_spec (Node.code c) 34); [lia|].
    destruct (Z.eqb_spec (Node.code c) 92); [lia|].
    destruct (Z.ltb_spec (Node.code c) 32); [lia|].
    rewrite (IH (c :: acc) rest Hl). cbn [rev].
    rewrite <- app_assoc. reflexivity.
Qed.

(** A string literal is read back. *)
Lemma parse_string_literal (f : nat) (s : string) (rest : list ascii) :
  forallb plain (Node.chars s) = true ->
  Node.parse_value (S f) (Node.dquote :: Node.chars s ++ Node.dquote :: rest)
  = Some (Str s, rest).
Proof.
  intros H. simpl.
  rewrite (string_body_plain (Node.chars s) [] rest H).
  cbn [rev app]. rewrite text_chars. reflexivity.
Qed.

Lemma parse_member (f : nat) (k v : string) (sep : ascii)
    (rest : list ascii) (acc : list (string * Js.Value)) :
  forallb plain (Node.chars k) = true ->
  forallb plain (Node.chars v) = true ->
  Node.parse_members (S (S f))
    (Node.dquote :: Node.chars k ++ Node.dquote :: ":"%char
       :: Node.dquote :: Node.chars v ++ Node.dquote :: sep :: rest) acc
  = if Z.eqb (Node.code sep) 44
    then Node.parse_members (S f) rest (Node.set_field k (Str v) acc)
    else if Z.eqb (Node.code sep) 125
         then Some (Obj (Node.set_field k (Str v) acc), rest)
         else match Node.skip_ws (sep :: rest) with
              | c :: r =>
                  if Z.eqb (Node.code c) 44
                  then Node.parse_members (S f) r (Node.set_field k (Str v) acc)
                  else if Z.eqb (Node.code c) 125
                       then Some (Obj (Node.set_field k (Str v) acc), r)
                       else None
              | [] => None
              end.
Proof.
  intros Hk Hv.
  change (Node.parse_members (S (S f))
            (Node.dquote :: Node.chars k ++ Node.dquote :: ":"%char
               :: Node.dquote :: Node.chars v ++ Node.dquote :: sep :: rest) acc)
    with (match Node.string_body
                  (Node.chars k ++ Node.dquote :: ":"%char
                     :: Node.dquote :: Node.chars v ++ Node.dquote :: sep :: rest) []
          with
          | Some (k0, rest0) =>
              match Node.skip_ws rest0 with
              | colon :: r1 =>
                  if Z.eqb (Node.code colon) 58 then
                    match Node.parse_value (S f) r1 with
                    | Some (v0, rest') =>
                        match Node.skip_ws rest' with
                        | c :: r2 =>
                            if Z.eqb (Node.code c) 44
                            then Node.parse_members (S f) r2 (Node.set_field k0 v0 acc)
                            else if Z.eqb (Node.code c) 125
                            then Some (Obj (Node.set_field k0 v0 acc), r2)
                            else None
                        | [] => None
                        end
                    | None => None
                    end
                  else None
              | [] => None
              end
          | None => None
          end).
  rewrite (string_body_plain (Node.chars k) [] _ Hk).
  cbn [rev app]. rewrite text_chars.
  change (Node.skip_ws (":"%char :: Node.dquote :: Node.chars v
                          ++ Node.dquote :: sep :: rest))
    with (":"%char :: Node.dquote :: Node.chars v ++ Node.dquote :: sep :: rest).
  change (Z.eqb (Node.code ":"%char) 58) with true. cbv iota.
  rewrite (parse_string_literal f v (sep :: rest) Hv).
  destruct (Z.eqb_spec (Node.code sep) 44) as [H44|H44].
  - assert (Hsp : Node.skip_ws (sep :: rest) = sep :: rest).
    { unfold Node.skip_ws, Node.is_json_space. cbn [Node.drop_while].
      rewrite H44. reflexivity. }
    rewrite Hsp, H44. reflexivity.
  - destruct (Z.eqb_spec (Node.code sep) 125) as [H125|H125]; [|reflexivity].
    assert (Hsp : Node.skip_ws (sep :: rest) = sep :: rest).
    { unfold Node.skip_ws, Node.is_json_space. cbn [Node.drop_while].
      rewrite H125. reflexivity. }
    rewrite Hsp, H125. reflexivity.
Qed.

(** The cursor payload survives [JSON.stringify] and [JSON.parse]. *)
Lemma JSON_roundtrip_payload (iso hex : string) :
  forallb plain (Node.chars iso) = true ->
  forallb plain (Node.chars hex) = true ->
  Node.JSON_parse
    (Node.JSON_stringify (Obj [ ("createdAt", Str iso); ("id", Str hex) ]))
  = Returns (Obj [ ("createdAt", Str iso); ("id", Str hex) ]).
Proof.
  intros Hiso Hhex.
  unfold Node.JSON_parse, Node.JSON_stringify. rewrite chars_text.
  assert (Hshape :
    Node.stringify (Obj [ ("createdAt", Str iso); ("id", Str hex) ])
    = "{"%char :: Node.dquote :: Node.chars "createdAt" ++ Node.dquote
        :: ":"%char :: Node.dquote :: Node.chars iso ++ Node.dquote
        :: ","%char :: Node.dquote :: Node.chars "id" ++ Node.dquote
        :: ":"%char :: Node.dquote :: Node.chars hex ++ Node.dquote
        :: ["}"%char]).
  { cbn [Node.stringify app]. rewrite app_nil_r.
    repeat (rewrite <- app_assoc; cbn [app]).
    rewrite (quote_plain "createdAt") by reflexivity.
    rewrite (quote_plain iso) by exact Hiso.
    rewrite (quote_plain "id") by reflexivity.
    rewrite (quote_plain hex) by exact Hhex.
    reflexivity. }
  rewrite Hshape.
  set (tail2 := Node.dquote :: Node.chars "id" ++ Node.dquote
        :: ":"%char :: Node.dquote :: Node.chars hex ++ Node.dquote
        :: ["}"%char]).
  set (body := Node.dquote :: Node.chars "createdAt" ++ Node.dquote
        :: ":"%char :: Node.dquote :: Node.chars iso ++ Node.dquote
        :: ","%char :: tail2).
  assert (Hlen : exists f, List.length ("{"%char :: body) = S (S (S f))).
  { unfold body. cbn [List.length app Node.chars list_ascii_of_string].
    eexists. reflexivity. }
  destruct Hlen as (f & Hlen). rewrite Hlen.
  change (Node.parse_value (S (S (S (S f)))) ("{"%char :: body))
    with (Node.parse_members (S (S (S f))) body []).
  unfold body.
  rewrite (@parse_member (S f) "createdAt" iso ","%char tail2 []
             eq_refl Hiso).
  change (Z.eqb (Node.code ","%char) 44) with true. cbv iota.
  unfold tail2.
  rewrite (@parse_member f "id" hex "}"%char [] _ eq_refl Hhex).
  reflexivity.
Qed.

(** ** Fixed-width numbers *)

Lemma digit_table :
  forallb
    (fun d =>
       Node.is_digit (Node.char (48 + d))
       && Z.eqb (Node.digit_value (Node.char (48 + d))) d
       && plain (Node.char (48 + d)))
    (map Z.of_nat (seq 0 10)) = true.
Proof. vm_compute. reflexivity. Qed.

Lemma digit_char (d : Z) :
  0 <= d < 10 ->
  Node.is_digit (Node.char (48 + d)) = true
  /\ Node.digit_value (Node.char (48 + d)) = d
  /\ plain (Node.char (48 + d)) = true.
Proof.
  intros H. pose proof digit_table as Htab. rewrite forallb_forall in Htab.
  specialize (Htab d (@below_in_range 10 d H)).
  apply andb_true_iff in Htab. destruct Htab as [Htab H3].
  apply andb_true_iff in Htab. destruct Htab as [H1 H2].
  apply Z.eqb_eq in H2. auto.
Qed.

Lemma pad_S (w : nat) (n : Z) :
  Node.pad (S w) n = Node.pad w (n / 10) ++ [Node.char (48 + n mod 10)].
Proof. reflexivity. Qed.

Lemma pad_spec (w : nat) :
  forall n,
    List.length (Node.pad w n) = w
    /\ forallb Node.is_digit (Node.pad w n) = true
    /\ forallb plain (Node.pad w n) = true
    /\ Node.decimal (Node.pad w n) = n mod 10 ^ Z.of_nat w.
Proof.
  induction w as [|w IH]; intros n.
  - repeat split. rewrite Z.mod_1_r. reflexivity.
  - destruct (IH (n / 10)) as (Hlen & Hdig & Hplain & Hval).
    destruct (@digit_char (n mod 10)) as (D1 & D2 & D3);
      [apply Z.mod_pos_bound; lia|].
    rewrite pad_S. repeat split.
    + rewrite length_app, Hlen. simpl. lia.
    + rewrite forallb_app, Hdig. cbn [forallb]. rewrite D1. reflexivity.
    + rewrite forallb_app, Hplain. cbn [forallb]. rewrite D3. reflexivity.
    + rewrite decimal_snoc, Hval, D2.
      rewrite Nat2Z.inj_succ, Z.pow_succ_r by lia.
      rewrite (Z.rem_mul_r n 10 (10 ^ Z.of_nat w)) by lia. lia.
Qed.

(** A zero-padded number is read back. *)
Lemma take_digits_pad (w : nat) (n : Z) (rest : list ascii) :
  0 <= n < 10 ^ Z.of_nat w ->
  Node.take_digits w (Node.pad w n ++ rest) = Some (n, rest).
Proof.
  intros Hn. destruct (pad_spec w n) as (Hlen & Hdig & _ & Hval).
  unfold Node.take_digits.
  rewrite firstn_app, Hlen, Nat.sub_diag, firstn_all2 by lia.
  cbn [firstn]. rewrite app_nil_r, Hlen, Nat.eqb_refl, Hdig. cbn [andb].
  rewrite Hval, Z.mod_small by lia.
  rewrite skipn_app, Hlen, Nat.sub_diag, skipn_all2 by lia.
  reflexivity.
Qed.

Lemma hex_table :
  forallb
    (fun d =>
       match Node.hex_value (Node.hex_digit d) with
       | Some v => Z.eqb v d
       | None => false
       end && plain (Node.hex_digit d))
    (map Z.of_nat (seq 0 16)) = true.
Proof. vm_compute. reflexivity. Qed.

Lemma hex_digit_spec (d : Z) :
  0 <= d < 16 ->
  Node.hex_value (Node.hex_digit d) = Some d
  /\ plain (Node.hex_digit d) = true.
Proof.
  intros H. pose proof hex_table as Htab. rewrite forallb_forall in Htab.
  specialize (Htab d (@below_in_range 16 d H)).
  apply andb_true_iff in Htab. destruct Htab as [H1 H2].
  split; [|exact H2].
  destruct (Node.hex_value (Node.hex_digit d)) as [v|]; [|discriminate].
  apply Z.eqb_eq in H1. subst. reflexivity.
Qed.

Lemma hex_number_snoc (l : list ascii) (c : ascii) :
  Node.hex_number (l ++ [c])
  = 16 * Node.hex_number l
    + match Node.hex_value c with Some n => n | None => 0 end.
Proof.
  unfold Node.hex_number. rewrite fold_left_app. reflexivity.
Qed.

Lemma hex_pad_spec (w : nat) :
  forall n,
    List.length (Node.hex_pad w n) = w
    /\ forallb Node.is_hex (Node.hex_pad w n) = true
    /\ forallb plain (Node.hex_pad w n) = true
    /\ Node.hex_number (Node.hex_pad w n) = n mod 16 ^ Z.of_nat w.
Proof.
  induction w as [|w IH]; intros n.
  - repeat split. rewrite Z.mod_1_r. reflexivity.
  - destruct (IH (n / 16)) as (Hlen & Hhex & Hplain & Hval).
    destruct (@hex_digit_spec (n mod 16)) as (D1 & D2);
      [apply Z.mod_pos_bound; lia|].
    change (Node.hex_pad (S w) n)
      with (Node.hex_pad w (n / 16) ++ [Node.hex_digit (n mod 16)]).
    repeat split.
    + rewrite length_app, Hlen. simpl. lia.
    + rewrite forallb_app, Hhex. cbn [forallb]. unfold Node.is_hex.
      rewrite D1. reflexivity.
    + rewrite forallb_app, Hplain. cbn [forallb]. rewrite D2. reflexivity.
    + rewrite hex_number_snoc, Hval, D1.
      rewrite Nat2Z.inj_succ, Z.pow_succ_r by lia.
      rewrite (Z.rem_mul_r n 16 (16 ^ Z.of_nat w)) by lia. lia.
Qed.

(** The text of an ObjectId is a valid identifier that converts back. *)
Lemma ObjectId_roundtrip (oid : ObjectId) :
  0 <= oid < 2 ^ 96 ->
  let hex := Node.ObjectId_toString oid in
  string_nonempty hex = true
  /\ forallb plain (Node.chars hex) = true
  /\ Node.isValidObjectId (Str hex) = true
  /\ Node.ObjectId_new (Str hex) = Returns oid.
Proof.
  intros Hoid. cbv zeta.
  destruct (hex_pad_spec 24 (oid mod 2 ^ 96)) as (Hlen & Hhex & Hplain & Hval).
  assert (Hvalid : Node.isValidObjectId (Str (Node.ObjectId_toString oid)) = true).
  { unfold Node.isValidObjectId, Node.ObjectId_toString.
    rewrite chars_text, Hlen, Hhex. reflexivity. }
  split; [|split; [|split]].
  - unfold Node.ObjectId_toString.
    destruct (Node.hex_pad 24 (oid mod 2 ^ 96)) as [|c l];
      [discriminate Hlen|reflexivity].
  - unfold Node.ObjectId_toString. rewrite chars_text. exact Hplain.
  - exact Hvalid.
  - unfold Node.ObjectId_new. rewrite Hvalid.
    unfold Node.ObjectId_toString. rewrite chars_text, Hval.
    change (16 ^ Z.of_nat 24) with (2 ^ 96).
    rewrite Z.mod_mod, Z.mod_small by lia. reflexivity.
Qed.

(** ** The calendar *)

Lemma every_doy_ok : forallb doy_ok (map Z.of_nat (seq 0 366)) = true.
Proof. vm_compute. reflexivity. Qed.

(** A day of an era lies in a year of the era, and it is the last day of
    a year of 366 days only when the year that ends is a leap year. *)
Lemma year_of_era (doe : Z) :
  0 <= doe < 146097 ->
  let yoe := (doe - doe / 1460 + doe / 36524 - doe / 146096) / 365 in
  let doy := doe - (365 * yoe + yoe / 4 - yoe / 100) in
  0 <= yoe <= 399 /\ 0 <= doy <= 365
  /\ (doy = 365 ->
      (yoe + 1) mod 4 = 0
      /\ ((yoe + 1) mod 100 <> 0 \/ (yoe + 1) mod 400 = 0)).
Proof.
  intros H yoe doy. unfold doy, yoe. Z.div_mod_to_equations. lia.
Qed.

Lemma days_in_month_common (y m : Z) :
  Node.days_in_month 1 m <= Node.days_in_month y m.
Proof.
  unfold Node.days_in_month.
  destruct (Z.eqb m 2); [|lia].
  change (Node.is_leap 1) with false. destruct (Node.is_leap y); lia.
Qed.

Lemma civil_of_doe_spec (doe yoe m d : Z) :
  0 <= doe < 146097 ->
  Node.civil_of_doe doe = (yoe, m, d) ->
  0 <= yoe <= 399 /\ 1 <= m <= 12
  /\ 1 <= d <= Node.days_in_month (if Z.leb m 2 then yoe + 1 else yoe) m
  /\ Node.doe_of_civil yoe m d = doe.
Proof.
  intros Hdoe. unfold Node.civil_of_doe.
  destruct (year_of_era Hdoe) as (Hyoe & Hdoy & Hleap).
  set (yoe0 := (doe - doe / 1460 + doe / 36524 - doe / 146096) / 365) in *.
  set (doy := doe - (365 * yoe0 + yoe0 / 4 - yoe0 / 100)) in *.
  pose proof every_doy_ok as Htab. rewrite forallb_forall in Htab.
  assert (Hin : 0 <= doy < Z.of_nat 366) by lia.
  specialize (Htab doy (@below_in_range 366 doy Hin)).
  unfold doy_ok in Htab.
  destruct (Node.month_day doy) as [m0 d0].
  intros [= <- <- <-].
  apply andb_true_iff in Htab. destruct Htab as [Htab Hback].
  apply andb_true_iff in Htab. destruct Htab as [Htab Hday].
  apply andb_true_iff in Htab. destruct Htab as [Htab Hd1].
  apply andb_true_iff in Htab. destruct Htab as [Hm1 Hm12].
  apply Z.leb_le in Hm1, Hm12, Hd1. apply Z.eqb_eq in Hback.
  split; [exact Hyoe|]. split; [lia|]. split; [split; [exact Hd1|]|].
  - apply orb_true_iff in Hday. destruct Hday as [Hcommon|Hfeb].
    + apply Z.leb_le in Hcommon.
      pose proof (days_in_month_common
                    (if Z.leb m0 2 then yoe0 + 1 else yoe0) m0). lia.
    + apply andb_true_iff in Hfeb. destruct Hfeb as [Hfeb Hd29].
      apply andb_true_iff in Hfeb. destruct Hfeb as [H365 Hm2].
      apply Z.eqb_eq in H365, Hm2, Hd29. subst m0 d0.
      destruct (Hleap H365) as (H4 & H100).
      change (Z.leb 2 2) with true. cbv iota.
      unfold Node.days_in_month, Node.is_leap.
      change (Z.eqb 2 2) with true. cbv iota.
      rewrite H4. change (Z.eqb 0 0) with true. cbn [andb].
      destruct H100 as [H100|H400].
      * destruct (Z.eqb_spec ((yoe0 + 1) mod 100) 0); [contradiction|].
        cbn [negb orb]. lia.
      * rewrite H400. change (Z.eqb 0 0) with true.
        rewrite orb_true_r. lia.
  - unfold Node.doe_of_civil. rewrite Hback. unfold doy. lia.
Qed.

Lemma is_leap_era (y era : Z) :
  Node.is_leap (y + era * 400) = Node.is_leap y.
Proof.
  unfold Node.is_leap.
  replace (y + era * 400) with (y + era * 100 * 4) at 1 by lia.
  replace (y + era * 400) with (y + era * 4 * 100) at 1 by lia.
  rewrite !Z_mod_plus_full. reflexivity.
Qed.

Lemma days_in_month_era (y era m : Z) :
  Node.days_in_month (y + era * 400) m = Node.days_in_month y m.
Proof.
  unfold Node.days_in_month. rewrite is_leap_era. reflexivity.
Qed.

(** The date of a day is a valid date, and it converts back. *)
Lemma civil_from_days_spec (z y m d : Z) :
  Node.civil_from_days z = (y, m, d) ->
  1 <= m <= 12
  /\ 1 <= d <= Node.days_in_month y m
  /\ Node.days_from_civil y m d = z
  /\ (z + 719468) / 146097 * 400 <= y <= (z + 719468) / 146097 * 400 + 400.
Proof.
  unfold Node.civil_from_days.
  set (z' := z + 719468). set (era := z' / 146097).
  assert (Hdoe : 0 <= z' - era * 146097 < 146097).
  { unfold era. Z.div_mod_to_equations. lia. }
  destruct (Node.civil_of_doe (z' - era * 146097)) as [[yoe m0] d0] eqn:Hciv.
  intros [= <- <- <-].
  destruct (civil_of_doe_spec Hdoe Hciv) as (Hyoe & Hm & Hd & Hback).
  assert (Hy : (if Z.leb m0 2 then yoe + era * 400 + 1 else yoe + era * 400)
               = (if Z.leb m0 2 then yoe + 1 else yoe) + era * 400).
  { destruct (Z.leb m0 2); lia. }
  split; [lia|]. split; [|split].
  - rewrite Hy, days_in_month_era. exact Hd.
  - unfold Node.days_from_civil.
    assert (Hy' : (if Z.leb m0 2
                   then (if Z.leb m0 2 then yoe + era * 400 + 1
                         else yoe + era * 400) - 1
                   else (if Z.leb m0 2 then yoe + era * 400 + 1
                         else yoe + era * 400))
                  = yoe + era * 400).
    { destruct (Z.leb m0 2); lia. }
    rewrite Hy'.
    assert (Hera : (yoe + era * 400) / 400 = era).
    { rewrite Z.div_add by lia. rewrite Z.div_small by lia. lia. }
    rewrite Hera.
    replace (yoe + era * 400 - era * 400) with yoe by lia.
    rewrite Hback. unfold z'. lia.
  - destruct (Z.leb m0 2); lia.
Qed.

(** ** Dates *)

Lemma expect_here (c : ascii) (rest : list ascii) :
  Node.expect (Node.code c) (c :: rest) = Some rest.
Proof. unfold Node.expect. rewrite Z.eqb_refl. reflexivity. Qed.

Lemma year_text_plain (y : Z) :
  forallb plain (Node.year_text y) = true.
Proof.
  unfold Node.year_text.
  destruct (Z.leb 0 y && Z.leb y 9999).
  - apply pad_spec.
  - cbn [forallb]. rewrite (proj1 (proj2 (proj2 (pad_spec 6 (Z.abs y))))).
    destruct (Z.ltb y 0); reflexivity.
Qed.

Lemma parse_year_text (y : Z) (rest : list ascii) :
  -999999 <= y <= 999999 ->
  Node.parse_year (Node.year_text y ++ rest) = Some (y, rest).
Proof.
  intros Hy. unfold Node.year_text.
  destruct (Z.leb_spec 0 y) as [H0|H0]; cbn [andb].
  - destruct (Z.leb_spec y 9999) as [H9|H9].
    + pose proof (@take_digits_pad 4 y rest) as Htake.
      destruct (pad_spec 4 y) as (Hlen & Hdig & _ & _).
      destruct (Node.pad 4 y) as [|c l]; [discriminate Hlen|].
      cbn [forallb] in Hdig. apply andb_true_iff in Hdig.
      destruct Hdig as [Hc _].
      unfold Node.is_digit, Node.between in Hc.
      apply andb_true_iff in Hc. rewrite !Z.leb_le in Hc.
      cbn [app Node.parse_year].
      destruct (Z.eqb_spec (Node.code c) 43); [lia|].
      destruct (Z.eqb_spec (Node.code c) 45); [lia|].
      apply Htake. change (10 ^ Z.of_nat 4) with 10000. lia.
    + destruct (Z.ltb_spec y 0); [lia|].
      cbn [app Node.parse_year].
      change (Z.eqb (Node.code "+"%char) 43) with true. cbv iota.
      rewrite Z.abs_eq by lia.
      apply take_digits_pad. change (10 ^ Z.of_nat 6) with 1000000. lia.
  - destruct (Z.ltb_spec y 0); [|lia].
    cbn [app Node.parse_year].
    change (Z.eqb (Node.code "-"%char) 43) with false.
    change (Z.eqb (Node.code "-"%char) 45) with true. cbv iota.
    rewrite take_digits_pad
      by (change (10 ^ Z.of_nat 6) with 1000000; lia).
    destruct (Z.eqb_spec (Z.abs y) 0); [lia|].
    f_equal. f_equal. lia.
Qed.

Lemma parse_date_text (y m d : Z) (rest : list ascii) :
  -999999 <= y <= 999999 ->
  1 <= m <= 12 ->
  1 <= d <= Node.days_in_month y m ->
  d <= 31 ->
  Node.parse_date
    (Node.year_text y ++ "-"%char :: Node.pad 2 m ++ "-"%char
       :: Node.pad 2 d ++ rest)
  = Some (Node.days_from_civil y m d, rest).
Proof.
  intros Hy Hm Hd Hd31. unfold Node.parse_date.
  rewrite (parse_year_text _ Hy).
  change 45 with (Node.code "-"%char). rewrite expect_here.
  rewrite take_digits_pad by (change (10 ^ Z.of_nat 2) with 100; lia).
  destruct (Z.leb_spec 1 m); [|lia].
  destruct (Z.leb_spec m 12); [|lia]. cbn [andb].
  rewrite expect_here.
  rewrite take_digits_pad by (change (10 ^ Z.of_nat 2) with 100; lia).
  destruct (Z.leb_spec 1 d); [|lia].
  destruct (Z.leb_spec d (Node.days_in_month y m)); [|lia].
  reflexivity.
Qed.

Lemma days_in_month_le (y m : Z) : Node.days_in_month y m <= 31.
Proof.
  unfold Node.days_in_month.
  destruct (Z.eqb m 2); [destruct (Node.is_leap y); lia|].
  destruct (_ || _); lia.
Qed.

Lemma parse_time_text (ms : Z) :
  0 <= ms < Node.msPerDay ->
  Node.parse_time
    (Node.pad 2 (ms / 3600000) ++ ":"%char
       :: Node.pad 2 (ms / 60000 mod 60) ++ ":"%char
       :: Node.pad 2 (ms / 1000 mod 60) ++ "."%char
       :: Node.pad 3 (ms mod 1000) ++ ["Z"%char])
  = Some (ms, []).
Proof.
  unfold Node.msPerDay. intros Hms.
  assert (Hh : 0 <= ms / 3600000 < 24) by (Z.div_mod_to_equations; lia).
  assert (Hmi : 0 <= ms / 60000 mod 60 < 60) by (Z.div_mod_to_equations; lia).
  assert (Hs : 0 <= ms / 1000 mod 60 < 60) by (Z.div_mod_to_equations; lia).
  assert (Hf : 0 <= ms mod 1000 < 1000) by (Z.div_mod_to_equations; lia).
  assert (Hsum : ((ms / 3600000 * 60 + ms / 60000 mod 60) * 60
                  + ms / 1000 mod 60) * 1000 + ms mod 1000 = ms)
    by (Z.div_mod_to_equations; lia).
  unfold Node.parse_time.
  rewrite take_digits_pad by (change (10 ^ Z.of_nat 2) with 100; lia).
  change 58 with (Node.code ":"%char). rewrite expect_here.
  rewrite take_digits_pad by (change (10 ^ Z.of_nat 2) with 100; lia).
  rewrite expect_here.
  rewrite take_digits_pad by (change (10 ^ Z.of_nat 2) with 100; lia).
  change 46 with (Node.code "."%char). rewrite expect_here.
  rewrite take_digits_pad by (change (10 ^ Z.of_nat 3) with 1000; lia).
  rewrite Hsum.
  destruct (Z.leb_spec (ms / 60000 mod 60) 59); [|lia].
  destruct (Z.leb_spec (ms / 1000 mod 60) 59); [|lia].
  destruct (Z.leb_spec (ms / 3600000) 23); [|lia].
  cbn [andb orb]. unfold Node.parse_offset.
  change (Z.eqb (Node.code "Z"%char) 90) with true. cbv iota.
  f_equal. f_equal. lia.
Qed.

(** The ISO text of an instant in the range of [Date] parses back to
    the instant. *)
Lemma Date_roundtrip (t : Z) :
  - Node.maxTime <= t <= Node.maxTime ->
  exists iso,
    Node.Date_toISOString t = Returns iso
    /\ string_nonempty iso = true
    /\ forallb plain (Node.chars iso) = true
    /\ Node.Date_new (Str iso) = TimeValue t.
Proof.
  unfold Node.maxTime. intros Ht.
  unfold Node.Date_toISOString, Node.maxTime.
  destruct (Z.ltb_spec 8640000000000000 (Z.abs t)); [lia|].
  destruct (Node.civil_from_days (t / Node.msPerDay)) as [[y m] d] eqn:Hciv.
  destruct (civil_from_days_spec Hciv) as (Hm & Hd & Hback & Hy).
  set (ms := t mod Node.msPerDay).
  assert (Hms : 0 <= ms < Node.msPerDay)
    by (unfold ms, Node.msPerDay; apply Z.mod_pos_bound; lia).
  assert (Hyr : -999999 <= y <= 999999).
  { unfold Node.msPerDay in Hy. revert Hy. Z.div_mod_to_equations. lia. }
  eexists. split; [reflexivity|]. split; [|split].
  - unfold Node.year_text.
    destruct (Z.leb 0 y && Z.leb y 9999); reflexivity.
  - rewrite chars_text.
    repeat (rewrite forallb_app || cbn [forallb]).
    rewrite year_text_plain.
    rewrite !(proj1 (proj2 (proj2 (pad_spec 2 _)))).
    rewrite (proj1 (proj2 (proj2 (pad_spec 3 _)))).
    reflexivity.
  - unfold Node.Date_new, Node.Date_parse. rewrite chars_text.
    pose proof (days_in_month_le y m) as H31.
    rewrite (@parse_date_text y m d _ Hyr Hm Hd) by lia.
    change (Z.eqb (Node.code "T"%char) 84) with true. cbv iota.
    rewrite (parse_time_text Hms). rewrite Hback.
    assert (Hsum : t / Node.msPerDay * Node.msPerDay + ms = t).
    { unfold ms, Node.msPerDay. Z.div_mod_to_equations. lia. }
    rewrite Hsum. unfold Node.maxTime.
    destruct (Z.leb_spec (Z.abs t) 8640000000000000); [reflexivity|lia].
Qed.

(** On the executable platform every instant in the range of [Date] and
    every twelve-byte identifier make a pair on which the built-ins are
    faithful. *)
Theorem node_platform_faithful (t : Z) (oid : ObjectId) :
  - Node.maxTime <= t <= Node.maxTime ->
  0 <= oid < 2 ^ 96 ->
  faithful_at Node.platform t oid.
Proof.
  intros Ht Hoid.
  destruct (Date_roundtrip Ht) as (iso & Hiso & Hne & Hplain & Hdate).
  destruct (ObjectId_roundtrip Hoid) as (Hhne & Hhplain & Hvalid & Hnew).
  exists iso. cbv zeta.
  change (Date_toISOString Node.platform) with Node.Date_toISOString.
  change (Date_new Node.platform) with Node.Date_new.
  change (ObjectId_toString Node.platform) with Node.ObjectId_toString.
  change (isValidObjectId Node.platform) with Node.isValidObjectId.
  change (ObjectId_new Node.platform) with Node.ObjectId_new.
  change (JSON_parse Node.platform) with Node.JSON_parse.
  change (JSON_stringify Node.platform) with Node.JSON_stringify.
  change (base64_of_utf8 Node.platform) with Node.base64_of_utf8.
  change (utf8_of_base64 Node.platform) with Node.utf8_of_base64.
  split; [exact Hiso|]. split; [exact Hne|]. split; [exact Hdate|].
  split; [exact Hhne|]. split; [exact Hvalid|]. split; [exact Hnew|].
  split; [apply JSON_roundtrip_payload; assumption|].
  split; [apply base64_nonempty; reflexivity|].
  apply base64_roundtrip.
Qed.

(** On the executable platform every pair in range comes back from its
    token. *)
Corollary node_roundtrip (t : Z) (oid : ObjectId) :
  - Node.maxTime <= t <= Node.maxTime ->
  0 <= oid < 2 ^ 96 ->
  exists token,
    encodeCursor Node.platform t oid = Ok token
    /\ decodeCursor Node.platform (Str token)
       = Ok {| createdAt := t; id := oid |}.
Proof.
  intros Ht Hoid.
  destruct (token_roundtrip (node_platform_faithful Ht Hoid))
    as (token & Henc & _ & Hdec).
  exists token. split; assumption.
Qed.

(** On the executable platform the two walks agree on every collection
    of fewer than [2 ^ 53 - 1] documents whose instants and identifiers
    are in range. *)
Corollary node_walks_agree (coll : list Doc) (query : Query)
    (lim : Js.Value) (fuel : nat) :
  NoDup (map Mongo.createdAt coll) ->
  (forall d, In d coll ->
     - Node.maxTime <= d.(Mongo.createdAt) <= Node.maxTime
     /\ 0 <= d.(_id) < 2 ^ 96) ->
  Z.of_nat (List.length coll) + 1 < 2 ^ 53 ->
  (List.length coll < fuel)%nat ->
  offsetWalk Node.platform coll query lim show_page fuel 1
  = resumedWalk Node.platform coll query lim show_page fuel.
Proof.
  intros Hdistinct Hrange Hsize Hfuel.
  assert (Hshow : forall p, 1 <= p <= Z.of_nat (List.length coll) + 1 ->
                    Node.parseInt10 (show_page p) = IntOf p).
  { intros p Hp. apply show_page_parses. lia. }
  assert (Hskip : forall k, 0 <= k <= Z.of_nat (List.length coll) ->
                    Node.skip_accepted (Finite k) = true).
  { intros k Hk. apply (node_skip_accepted Hk). lia. }
  rewrite (@offsetWalk_lists_all Node.platform coll query lim show_page fuel
             Hshow Hskip Hfuel).
  symmetry. apply resumedWalk_lists_all; try assumption.
  - intros d Hd. destruct (Hrange d Hd).
    apply node_platform_faithful; assumption.
  - apply Hshow. lia.
  - apply Hskip. lia.
Qed.

(* ================================================================== *)
(** * Walks on concrete collections *)
(* ================================================================== *)

Ltac distinct_numbers :=
  repeat (constructor;
          [simpl; intros H;
           repeat (destruct H as [H|H]; [discriminate H|]); exact H|]);
  constructor.

Lemma offset_pages_equal_resumed_cursor_pages_witness :
  (NoDup (map Mongo.createdAt five_products)
   /\ (forall d, In d five_products ->
         faithful_at Node.platform d.(Mongo.createdAt) d.(_id))
   /\ (forall p, 1 <= p <= Z.of_nat (List.length five_products) + 1 ->
         Node.parseInt10 (show_page p) = IntOf p)
   /\ (forall k, 0 <= k <= Z.of_nat (List.length five_products) ->
         Node.skip_accepted (Finite k) = true)
   /\ (List.length five_products < 6)%nat)
  /\ offsetWalk Node.platform five_products everything (Str "2") show_page 6 1
     = Some (listing five_products everything)
  /\ resumedWalk Node.platform five_products everything (Str "2") show_page 6
     = Some (listing five_products everything)
  /\ (forall req l,
        truthy req.(cursor) = false ->
        listProducts Node.platform five_products everything req = Ok l ->
        exists total pg n totalPages,
          l.(pagination) = OffsetMode total pg n totalPages).
Proof.
  assert (H1 : NoDup (map Mongo.createdAt five_products)).
  { simpl. distinct_numbers. }
  assert (H2 : forall d, In d five_products ->
                 faithful_at Node.platform d.(Mongo.createdAt) d.(_id)).
  { intros d Hin. simpl in Hin.
    repeat (destruct Hin as [<-|Hin];
            [apply node_platform_faithful; simpl; unfold Node.maxTime; lia|]).
    contradiction. }
  assert (H3 : (List.length five_products < 6)%nat) by (simpl; apply le_n).
  assert (Hshow : forall p,
            1 <= p <= Z.of_nat (List.length five_products) + 1 ->
            Node.parseInt10 (show_page p) = IntOf p).
  { intros p Hp. apply show_page_parses. simpl in Hp. lia. }
  assert (Hskip : forall k,
            0 <= k <= Z.of_nat (List.length five_products) ->
            Node.skip_accepted (Finite k) = true).
  { intros k Hk. apply (node_skip_accepted Hk). simpl. lia. }
  split; [exact (conj H1 (conj H2 (conj Hshow (conj Hskip H3))))|].
  exact (@offset_pages_equal_resumed_cursor_pages Node.platform five_products
           everything (Str "2") show_page 6 H1 H2 Hshow Hskip H3).
Defined.

(** C8 as the claim words it fails: a walk that starts without a cursor
    gets its first page in offset mode, which carries no [nextCursor], so
    following [nextCursor] ends after that page. *)
Lemma cursor_walk_ends_after_first_page :
  NoDup (map Mongo.createdAt five_products)
  /\ offsetWalk Node.platform five_products everything (Str "2") show_page 6 1
     = Some [ doc 0x65a1b2c3d4e5f60718293a04 1705000005000;
              doc 0x65a1b2c3d4e5f60718293a05 1705000004000;
              doc 0x65a1b2c3d4e5f60718293a02 1705000003000;
              doc 0x65a1b2c3d4e5f60718293a03 1705000002000;
              doc 0x65a1b2c3d4e5f60718293a01 1705000000000 ]
  /\ cursorWalk Node.platform five_products everything (Str "2") 6
     = Some [ doc 0x65a1b2c3d4e5f60718293a04 1705000005000;
              doc 0x65a1b2c3d4e5f60718293a05 1705000004000 ]
  /\ listProducts Node.platform five_products everything
       (cursorRequest (Str "2") Undefined)
     = Ok {| items := [ doc 0x65a1b2c3d4e5f60718293a04 1705000005000;
                        doc 0x65a1b2c3d4e5f60718293a05 1705000004000 ];
             pagination := OffsetMode 5 (Finite 1) 2 3 |}
  /\ offsetWalk Node.platform five_products everything (Str "2") show_page 6 1
     <> cursorWalk Node.platform five_products everything (Str "2") 6.
Proof.
  split; [simpl; distinct_numbers|].
  split; [vm_compute; reflexivity|].
  split; [vm_compute; reflexivity|].
  split; [vm_compute; reflexivity|].
  vm_compute. discriminate.
Qed.

(** C2, at the failing input. The sort specification of offset mode never
    names [_id], for any sort key, while the one of cursor mode always
    does.  So offset mode does not order two products created in the same
    millisecond: with page size 1 the first page is the product the
    collection happens to yield first, and the cursor pages that follow it
    never list the other one, which a sort on [(createdAt, _id)] puts
    first. *)
Theorem offset_sort_omits_id :
  (forall sortKey, ~ In "_id" (map fst (buildSort sortKey)))
  /\ (forall sortKey, In "_id" (map fst (cursorSortOf sortKey)))
  /\ compare_by (buildSort Undefined)
       (doc 0x65a1b2c3d4e5f60718293a01 1705000000000)
       (doc 0x65a1b2c3d4e5f60718293a02 1705000000000) = Eq
  /\ Mongo.sort (cursorSortOf Undefined) tied_products
     = [ doc 0x65a1b2c3d4e5f60718293a02 1705000000000;
         doc 0x65a1b2c3d4e5f60718293a01 1705000000000 ]
  /\ resumedWalk Node.platform tied_products everything (Str "1") show_page 6
     = Some [ doc 0x65a1b2c3d4e5f60718293a01 1705000000000 ].
Proof.
  split; [|split; [|split; [|split]]].
  - intros sortKey. unfold buildSort.
    repeat match goal with
           | |- context [if ?b then _ else _] => destruct b
           end; simpl; intros [H|[]]; discriminate.
  - intros sortKey. unfold cursorSortOf.
    destruct (is_string sortKey "oldest"); simpl; auto.
  - reflexivity.
  - vm_compute. reflexivity.
  - vm_compute. reflexivity.
Qed.

(* ================================================================== *)
(** * Properties of the handlers that edit a cart *)
(* ================================================================== *)

Module CartEditFacts.

Import Cart CartSpec CartEdit CartEditSpec CartFacts.

(** One store call, with the wait it consumes written out. *)
(** X1. Whatever the other requests do in between, a run of
    [updateCartItemQuantityController] that fails has written nothing,
    and a run that succeeds has written exactly once: it has set (not
    added) the quantity of an item of the signed-in user to the floor of
    the requested number, which is at least 1 and at most the stock the
    item's product had when it was read.  A quantity that is missing, not
    finite or below 1 is refused before the store is touched. *)
Theorem update_sets_a_checked_quantity (P : Platform)
    (req_user_id : ObjectId) (req_cartItemId req_quantity : Js.Value)
    (st : State) :
  let out :=
    updateCartItemQuantityController P req_user_id req_cartItemId
      req_quantity st in
  (forall e, fst out = Throw e -> (snd out).(writes) = st.(writes))
  /\ (forall resp,
        fst out = Ok resp ->
        exists product,
          normalizeQuantity P req_quantity = Some resp.(data).(quantity)
          /\ resp.(data).(userId) = req_user_id
          /\ P.(ObjectId_new) req_cartItemId = Returns resp.(data).(_id)
          /\ (snd out).(writes)
             = st.(writes)
               ++ [Saved resp.(data).(_id) resp.(data).(quantity)]
          /\ List.find
               (fun p => Z.eqb p.(product_id) resp.(data).(productId))
               (others 2 st.(schedule) st.(store)).(products)
             = Some product
          /\ 1 <= resp.(data).(quantity) <= product.(countInstock))
  /\ (P.(isValidObjectId) req_cartItemId = true ->
      match normalizeQuantity P req_quantity with
      | Some n => n < 1
      | None => True
      end ->
      out = (Throw (ApiError 400 "Quantity must be at least 1"), st)).
Proof.
  cbv zeta.
  pattern (updateCartItemQuantityController P req_user_id req_cartItemId
             req_quantity st).
  match goal with |- ?Q0 _ => set (Q := Q0) end.
  assert (Hrefuse : forall st', writes st' = writes st ->
            forall e,
              (P.(isValidObjectId) req_cartItemId = true ->
               match normalizeQuantity P req_quantity with
               | Some n => n < 1
               | None => True
               end ->
               (@Throw Response e, st')
               = (Throw (ApiError 400 "Quantity must be at least 1"), st)) ->
              Q (Throw e, st')).
  { intros st' Hw e Hthird. subst Q. cbv beta. cbn [fst snd].
    split; [intros _ _; exact Hw|]. split; [discriminate|exact Hthird]. }
  unfold updateCartItemQuantityController.
  destruct (P.(isValidObjectId) req_cartItemId) eqn:Hvalid; cbn [negb].
  2:{ apply Hrefuse; [reflexivity|discriminate]. }
  destruct (normalizeQuantity P req_quantity) as [n|] eqn:Hn.
  2:{ apply Hrefuse; [reflexivity|reflexivity]. }
  destruct (Z.eqb_spec n 0) as [Hz|Hz]; cbn [orb].
  { apply Hrefuse; reflexivity. }
  destruct (Z.ltb_spec n 1) as [Hlt|Hge].
  { apply Hrefuse; reflexivity. }
  assert (Hlate : forall st' e, writes st' = writes st -> Q (Throw e, st')).
  { intros st' e Hw. apply Hrefuse; [exact Hw|]. intros _ Hbad. lia. }
  clear Hrefuse.
  unfold bind at 1, lift, call.
  destruct (P.(ObjectId_new) req_cartItemId) as [cid|name];
    [|apply Hlate; reflexivity].
  unfold bind at 1. rewrite await_run. cbv zeta.
  destruct (rejection (hd quiet (schedule st)));
    [apply Hlate; reflexivity|].
  cbn [CartProduct_findOwned fst snd].
  destruct (List.find _ _) as [item|] eqn:Hitem;
    [|apply Hlate; cbn; apply app_nil_r].
  apply find_some in Hitem. destruct Hitem as [_ Howned].
  unfold owned_item in Howned. apply andb_true_iff in Howned.
  destruct Howned as [Hid Huser].
  apply Z.eqb_eq in Hid, Huser.
  unfold bind at 1. rewrite await_run. cbv zeta. cbn [schedule store writes].
  destruct (rejection (hd quiet (tl (schedule st))));
    [apply Hlate; cbn; apply app_nil_r|].
  cbn [Product_findById fst snd].
  destruct (List.find _ _) as [product|] eqn:Hproduct;
    [|apply Hlate; cbn; rewrite !app_nil_r; reflexivity].
  destruct (Z.gtb_spec n (countInstock product)) as [Hgt|Hle];
    [apply Hlate; cbn; rewrite !app_nil_r; reflexivity|].
  unfold bind at 1. rewrite await_run. cbv zeta. cbn [schedule store writes].
  destruct (rejection (hd quiet (tl (tl (schedule st)))));
    [apply Hlate; cbn; rewrite !app_nil_r; reflexivity|].
  unfold CartItem_save, quantity_valid.
  destruct (Z.leb_spec 1 n) as [_|Hbad]; [|lia]. cbn [negb].
  destruct (existsb _ _); cbn [fst snd ret];
    [|apply Hlate; cbn; rewrite !app_nil_r; reflexivity].
  subst Q. cbv beta. cbn [fst snd writes].
  split; [discriminate|]. split; [|intros _ Hbad; lia].
  intros resp [= <-]. cbn [data quantity userId _id productId].
  exists product. rewrite !app_nil_r.
  rewrite !others_S. cbn [others].
  repeat split; try assumption; try lia.
  congruence.
Qed.

(** A store call of a request that runs alone. *)
Lemma await_idle {A} (op : Store -> Result A * Store * list Write)
    (s : Store) (w : list Write) :
  await op {| store := s; writes := w; schedule := [] |}
  = let '(r, s2, ws) := op s in
    (r, {| store := s2; writes := w ++ ws; schedule := [] |}).
Proof. reflexivity. Qed.

Lemma find_map_user (f : User -> User) (uid : ObjectId) (l : list User) :
  (forall u, user_id (f u) = user_id u) ->
  List.find (fun u => Z.eqb u.(user_id) uid) (map f l)
  = option_map f (List.find (fun u => Z.eqb u.(user_id) uid) l).
Proof.
  intros Hid. induction l as [|u l IH]; simpl; [reflexivity|].
  rewrite Hid. destruct (Z.eqb (user_id u) uid); [reflexivity|exact IH].
Qed.

(** What an update of the user [uid] alone does to the carts. *)
Lemma cart_of_map (g : list ObjectId -> list ObjectId) (uid other : ObjectId)
    (s : Store) (l : list CartItem) (n : ObjectId) :
  cart_of other
    {| cartproducts := l; products := s.(products);
       users :=
         map (fun u =>
                if Z.eqb u.(user_id) uid
                then {| user_id := u.(user_id);
                        shopping_cart := g u.(shopping_cart) |}
                else u) s.(users);
       nextId := n |}
  = match List.find (fun u => Z.eqb u.(user_id) other) s.(users) with
    | Some u => if Z.eqb other uid then g u.(shopping_cart)
                else u.(shopping_cart)
    | None => []
    end.
Proof.
  unfold cart_of. cbn [users].
  rewrite find_map_user.
  2:{ intros u. destruct (Z.eqb (user_id u) uid); reflexivity. }
  destruct (List.find _ _) as [u|] eqn:Hfind; [|reflexivity].
  apply find_some in Hfind. destruct Hfind as [_ Hu].
  apply Z.eqb_eq in Hu. cbn [option_map]. rewrite Hu.
  destruct (Z.eqb other uid); reflexivity.
Qed.

Lemma remove_first_found (p : CartItem -> bool) (l : list CartItem)
    (x : CartItem) :
  List.find p l = Some x ->
  exists pre suf,
    l = pre ++ x :: suf /\ remove_first p l = pre ++ suf
    /\ forallb (fun c => negb (p c)) pre = true.
Proof.
  induction l as [|c l IH]; simpl; [discriminate|].
  destruct (p c) eqn:Hc.
  - intros [= ->]. exists [], l. auto.
  - intros Hfind. destruct (IH Hfind) as (pre & suf & -> & Hrm & Hpre).
    exists (c :: pre), suf. simpl. rewrite Hrm, Hc, Hpre. auto.
Qed.

Lemma remove_first_missing (p : CartItem -> bool) (l : list CartItem) :
  List.find p l = None -> remove_first p l = l.
Proof.
  induction l as [|c l IH]; simpl; [reflexivity|].
  destruct (p c); [discriminate|].
  intros Hfind. rewrite (IH Hfind). reflexivity.
Qed.

(** The run of a removal that no other request interferes with. *)
Lemma delete_alone (P : Platform) (req_user_id : ObjectId)
    (req_cartItemId : Js.Value) (cid : ObjectId) (s : Store) :
  P.(isValidObjectId) req_cartItemId = true ->
  P.(ObjectId_new) req_cartItemId = Returns cid ->
  deleteCartItemQuantityController P req_user_id req_cartItemId (idle s)
  = match List.find (owned_item cid req_user_id) s.(cartproducts) with
    | None => (Throw (ApiError 404 "Cart item not found"), idle s)
    | Some item =>
        (Ok {| status := 200; data := item; message := "Cart item removed" |},
         idle
           (snd (fst
              (User_pull req_user_id item.(_id)
                 (snd (fst
                    (CartProduct_findOneAndDelete cid req_user_id s)))))))
    end.
Proof.
  intros Hvalid Hcast.
  unfold deleteCartItemQuantityController, idle.
  rewrite Hvalid. cbn [negb].
  unfold bind at 1, lift, call. rewrite Hcast.
  unfold bind at 1. rewrite await_idle.
  unfold CartProduct_findOneAndDelete.
  destruct (List.find (owned_item cid req_user_id) (cartproducts s))
    as [item|] eqn:Hfind.
  - unfold bind at 1. rewrite await_idle. reflexivity.
  - cbn [fst snd throw]. rewrite (remove_first_missing _ _ Hfind).
    destruct s; reflexivity.
Qed.

(** X2. A request of [uid] that runs alone and names a valid cart item
    id removes the item with that id when it belongs to [uid], and only
    that item: the other items stay in place, the id leaves the user's
    [shopping_cart], the carts of the other users and the products are
    untouched.  When [uid] has no item with that id, as when the item is
    someone else's, the request fails with the 404 error and the store
    is unchanged. *)
Theorem delete_removes_only_the_named_item (P : Platform)
    (req_user_id : ObjectId) (req_cartItemId : Js.Value) (cid : ObjectId)
    (s : Store) :
  P.(isValidObjectId) req_cartItemId = true ->
  P.(ObjectId_new) req_cartItemId = Returns cid ->
  let out :=
    deleteCartItemQuantityController P req_user_id req_cartItemId (idle s) in
  let after := (snd out).(store) in
  match List.find (owned_item cid req_user_id) s.(cartproducts) with
  | None =>
      fst out = Throw (ApiError 404 "Cart item not found") /\ after = s
  | Some item =>
      fst out = Ok {| status := 200; data := item;
                      message := "Cart item removed" |}
      /\ item.(_id) = cid /\ item.(userId) = req_user_id
      /\ (exists pre suf,
            s.(cartproducts) = pre ++ item :: suf
            /\ after.(cartproducts) = pre ++ suf)
      /\ cart_of req_user_id after
         = filter (fun x => negb (Z.eqb x cid)) (cart_of req_user_id s)
      /\ (forall other, other <> req_user_id ->
            cart_of other after = cart_of other s)
      /\ after.(products) = s.(products)
  end.
Proof.
  intros Hvalid Hcast. cbv zeta.
  rewrite (@delete_alone P req_user_id req_cartItemId cid s Hvalid Hcast).
  destruct (List.find (owned_item cid req_user_id) (cartproducts s))
    as [item|] eqn:Hfind; [|split; reflexivity].
  unfold User_pull, CartProduct_findOneAndDelete, idle.
  cbn [fst snd store cartproducts products users nextId].
  destruct (remove_first_found _ _ Hfind) as (pre & suf & Hsplit & Hrm & _).
  apply find_some in Hfind. destruct Hfind as [_ Howned].
  unfold owned_item in Howned. apply andb_true_iff in Howned.
  destruct Howned as [Hid Huser]. apply Z.eqb_eq in Hid, Huser.
  split; [reflexivity|]. split; [exact Hid|]. split; [exact Huser|].
  split; [exists pre, suf; auto|].
  pose proof (fun other =>
    @cart_of_map (filter (fun x => negb (Z.eqb x (_id item))))
      req_user_id other s
      (remove_first (owned_item cid req_user_id) (cartproducts s))
      (nextId s)) as Hcart.
  split; [|split; [|reflexivity]].
  - rewrite Hcart, Z.eqb_refl, Hid. unfold cart_of.
    destruct (List.find _ _); reflexivity.
  - intros other Hother. rewrite Hcart.
    rewrite (proj2 (Z.eqb_neq other req_user_id) Hother).
    reflexivity.
Qed.

Lemma delete_removes_only_the_named_item_witness :
  (Node.isValidObjectId (Str "00000000000000000000000b") = true
   /\ Node.ObjectId_new (Str "00000000000000000000000b") = Returns 11)
  /\ fst (deleteCartItemQuantityController Node.platform 1
            (Str "00000000000000000000000b") (idle two_carts))
     = Ok {| status := 200;
             data := {| _id := 11; userId := 1; productId := 7;
                        quantity := 2 |};
             message := "Cart item removed" |}
  /\ fst (deleteCartItemQuantityController Node.platform 2
            (Str "00000000000000000000000b") (idle two_carts))
     = Throw (ApiError 404 "Cart item not found").
Proof.
  assert (H1 : Node.isValidObjectId (Str "00000000000000000000000b") = true)
    by reflexivity.
  assert (H2 : Node.ObjectId_new (Str "00000000000000000000000b") = Returns 11)
    by reflexivity.
  split; [exact (conj H1 H2)|]. split.
  - exact (proj1 (@delete_removes_only_the_named_item Node.platform 1
                    (Str "00000000000000000000000b") 11 two_carts H1 H2)).
  - exact (proj1 (@delete_removes_only_the_named_item Node.platform 2
                    (Str "00000000000000000000000b") 11 two_carts H1 H2)).
Defined.

Lemma find_none_existsb (p : CartItem -> bool) (l : list CartItem) :
  List.find p l = None -> existsb p l = false.
Proof.
  induction l as [|c l IH]; simpl; [reflexivity|].
  destruct (p c); [discriminate|exact IH].
Qed.

Lemma find_some_id_exists (p : CartItem -> bool) (l : list CartItem)
    (x : CartItem) :
  List.find p l = Some x ->
  existsb (fun c => Z.eqb c.(_id) x.(_id)) l = true.
Proof.
  intros Hfind. apply find_some in Hfind. destruct Hfind as [Hin _].
  apply existsb_exists. exists x. split; [exact Hin|apply Z.eqb_refl].
Qed.

(** The run of an addition that no other request interferes with. *)
Lemma add_alone (P : Platform) (req_user_id : ObjectId)
    (req_productId req_quantity : Js.Value) (pid : ObjectId) (s : Store) :
  P.(isValidObjectId) req_productId = true ->
  P.(ObjectId_new) req_productId = Returns pid ->
  1 <= nullish_or (normalizeQuantity P req_quantity) 1 ->
  let n := nullish_or (normalizeQuantity P req_quantity) 1 in
  addToCartItemController P req_user_id req_productId req_quantity (idle s)
  = match List.find (fun p => Z.eqb p.(product_id) pid) s.(products) with
    | None => (Throw (ApiError 404 "Product not found"), idle s)
    | Some product =>
        match List.find (same_pair req_user_id pid) s.(cartproducts) with
        | Some item =>
            if Z.gtb (item.(quantity) + n) product.(countInstock)
            then (Throw stockExceeded, idle s)
            else if negb (quantity_valid (item.(quantity) + n))
            then (Throw validationError, idle s)
            else
              (Ok {| status := 200;
                     data := {| _id := item.(_id); userId := item.(userId);
                                productId := item.(productId);
                                quantity := item.(quantity) + n |};
                     message := "Cart item quantity updated" |},
               {| store :=
                    {| cartproducts :=
                         map (set_quantity item.(_id) (item.(quantity) + n))
                           s.(cartproducts);
                       products := s.(products);
                       users := s.(users);
                       nextId := s.(nextId) |};
                  writes := [Saved item.(_id) (item.(quantity) + n)];
                  schedule := [] |})
        | None =>
            if Z.gtb n product.(countInstock)
            then (Throw stockExceeded, idle s)
            else
              let item := {| _id := s.(nextId); userId := req_user_id;
                             productId := pid; quantity := n |} in
              (Ok {| status := 201; data := item;
                     message := "Item added to cart" |},
               {| store :=
                    snd (fst (User_addToSet req_user_id s.(nextId)
                                {| cartproducts := s.(cartproducts) ++ [item];
                                   products := s.(products);
                                   users := s.(users);
                                   nextId := s.(nextId) + 1 |}));
                  writes := [Created item; AddedToSet req_user_id s.(nextId)];
                  schedule := [] |})
        end
    end.
Proof.
  intros Hvalid Hcast Hn. cbv zeta.
  unfold addToCartItemController, idle.
  rewrite Hvalid. cbn [negb].
  set (n := nullish_or (normalizeQuantity P req_quantity) 1) in *.
  destruct (Z.eqb_spec n 0) as [H0|_]; [lia|].
  destruct (Z.ltb_spec n 1) as [H1|_]; [lia|]. cbn [orb].
  unfold bind at 1, lift, call. rewrite Hcast.
  unfold bind at 1. rewrite await_idle. unfold Product_findById.
  destruct (List.find _ (products s)) as [product|]; [|reflexivity].
  unfold addOrIncrement.
  unfold bind at 1. rewrite await_idle. unfold CartProduct_findOne.
  destruct (List.find (same_pair req_user_id pid) (cartproducts s))
    as [item|] eqn:Hfind.
  - destruct (Z.gtb (quantity item + n) (countInstock product));
      [reflexivity|].
    unfold bind at 1. rewrite await_idle. unfold CartItem_save.
    destruct (negb (quantity_valid (quantity item + n))); [reflexivity|].
    rewrite (find_some_id_exists _ _ Hfind). reflexivity.
  - destruct (Z.gtb n (countInstock product)); [reflexivity|].
    unfold try_catch.
    unfold bind at 1. rewrite await_idle. unfold CartProduct_create.
    unfold quantity_valid. destruct (Z.leb_spec 1 n) as [_|Hbad]; [|lia].
    cbn [negb].
    rewrite (find_none_existsb _ _ Hfind).
    unfold bind at 1. rewrite await_idle. reflexivity.
Qed.

Lemma filter_out_added (x : ObjectId) (l : list ObjectId) :
  ~ In x l ->
  filter (fun y => negb (Z.eqb y x)) (add_to_set x l) = l.
Proof.
  intros Hnot. unfold add_to_set.
  assert (Hkeep : filter (fun y => negb (Z.eqb y x)) l = l).
  { apply forallb_filter_id. apply forallb_forall. intros y Hy.
    destruct (Z.eqb_spec y x) as [->|]; [contradiction|reflexivity]. }
  destruct (existsb (Z.eqb x) l); [exact Hkeep|].
  rewrite filter_app. simpl. rewrite Z.eqb_refl. simpl.
  rewrite app_nil_r. exact Hkeep.
Qed.

(** X3. Adding and removing undo each other.  When a request of [uid]
    that runs alone adds a product the user does not have in the cart,
    within the stock, and a second request removes the item by the id
    the first one returned, the cart items and the users are again what
    they were; only the store's id counter has moved on. *)
Theorem add_then_delete_restores_the_cart (P : Platform)
    (req_user_id : ObjectId) (req_productId req_quantity : Js.Value)
    (pid : ObjectId) (product : Product) (req_cartItemId : Js.Value)
    (s : Store) :
  P.(isValidObjectId) req_productId = true ->
  P.(ObjectId_new) req_productId = Returns pid ->
  List.find (fun p => Z.eqb p.(product_id) pid) s.(products) = Some product ->
  1 <= nullish_or (normalizeQuantity P req_quantity) 1
    <= product.(countInstock) ->
  List.find (same_pair req_user_id pid) s.(cartproducts) = None ->
  fresh_id s ->
  P.(isValidObjectId) req_cartItemId = true ->
  P.(ObjectId_new) req_cartItemId = Returns s.(nextId) ->
  let added :=
    addToCartItemController P req_user_id req_productId req_quantity
      (idle s) in
  let removed :=
    deleteCartItemQuantityController P req_user_id req_cartItemId
      (idle (snd added).(store)) in
  let item := {| _id := s.(nextId); userId := req_user_id; productId := pid;
                 quantity := nullish_or (normalizeQuantity P req_quantity) 1 |} in
  fst added = Ok {| status := 201; data := item;
                    message := "Item added to cart" |}
  /\ fst removed = Ok {| status := 200; data := item;
                         message := "Cart item removed" |}
  /\ (snd removed).(store)
     = {| cartproducts := s.(cartproducts); products := s.(products);
          users := s.(users); nextId := s.(nextId) + 1 |}.
Proof.
  intros Hvalid Hcast Hproduct Hn Hnone [Hitems Hcarts] Hvalid' Hcast'.
  cbv zeta.
  rewrite (@add_alone P req_user_id req_productId req_quantity pid s
             Hvalid Hcast (proj1 Hn)).
  rewrite Hproduct, Hnone.
  set (n := nullish_or (normalizeQuantity P req_quantity) 1) in *.
  destruct (Z.gtb_spec n (countInstock product)) as [Hgt|_]; [lia|].
  cbv zeta. cbn [fst snd store].
  split; [reflexivity|].
  set (item := {| _id := nextId s; userId := req_user_id; productId := pid;
                  quantity := n |}).
  rewrite (@delete_alone P req_user_id req_cartItemId (nextId s) _
             Hvalid' Hcast').
  unfold User_addToSet. cbn [fst snd cartproducts].
  assert (Hfind : List.find (owned_item (nextId s) req_user_id)
                    (cartproducts s ++ [item]) = Some item).
  { clear - Hitems. induction (cartproducts s) as [|c l IH]; simpl.
    - unfold owned_item. simpl. rewrite !Z.eqb_refl. reflexivity.
    - unfold owned_item at 1.
      rewrite (proj2 (Z.eqb_neq (_id c) (nextId s)))
        by (apply Hitems; left; reflexivity).
      simpl. apply IH. intros c' Hc'. apply Hitems. right. exact Hc'. }
  rewrite Hfind. cbn [fst snd].
  split; [reflexivity|].
  unfold idle, User_pull, CartProduct_findOneAndDelete.
  cbn [fst snd store cartproducts products users nextId _id].
  f_equal.
  - clear - Hitems. induction (cartproducts s) as [|c l IH]; simpl.
    + unfold owned_item. simpl. rewrite !Z.eqb_refl. reflexivity.
    + unfold owned_item at 1.
      rewrite (proj2 (Z.eqb_neq (_id c) (nextId s)))
        by (apply Hitems; left; reflexivity).
      simpl. f_equal. apply IH. intros c' Hc'. apply Hitems. right. exact Hc'.
  - rewrite map_map.
    rewrite <- (map_id (users s)) at 2.
    apply map_ext_in. intros u Hu.
    destruct (Z.eqb (user_id u) req_user_id) eqn:Hid; cbn [user_id];
      rewrite ?Hid; [|reflexivity].
    cbn [shopping_cart user_id].
    rewrite filter_out_added by (apply Hcarts; exact Hu).
    destruct u; reflexivity.
Qed.

Lemma add_then_delete_restores_the_cart_witness :
  (Node.isValidObjectId product7_id = true
   /\ Node.ObjectId_new product7_id = Returns 7
   /\ 1 <= nullish_or (normalizeQuantity Node.platform (Str "2")) 1 <= 5
   /\ fresh_id empty_cart
   /\ Node.ObjectId_new (Str "000000000000000000000064") = Returns 100)
  /\ (snd (deleteCartItemQuantityController Node.platform 1
             (Str "000000000000000000000064")
             (idle (snd (addToCartItemController Node.platform 1
                           product7_id (Str "2") (idle empty_cart))).(store)))
     ).(store)
     = {| cartproducts := []; products := [product7];
          users := [ {| user_id := 1; shopping_cart := [] |} ];
          nextId := 101 |}.
Proof.
  assert (H1 : Node.isValidObjectId product7_id = true) by reflexivity.
  assert (H2 : Node.ObjectId_new product7_id = Returns 7) by reflexivity.
  assert (H3 : 1 <= nullish_or (normalizeQuantity Node.platform (Str "2")) 1
               <= 5) by (vm_compute; split; discriminate).
  assert (H4 : fresh_id empty_cart).
  { split.
    - intros c [].
    - intros u [<-|[]] []. }
  assert (H5 : Node.ObjectId_new (Str "000000000000000000000064")
               = Returns 100) by reflexivity.
  split; [exact (conj H1 (conj H2 (conj H3 (conj H4 H5))))|].
  exact (proj2 (proj2
    (@add_then_delete_restores_the_cart Node.platform 1 product7_id
       (Str "2") 7 product7 (Str "000000000000000000000064") empty_cart
       H1 H2 eq_refl H3 eq_refl H4 eq_refl H5))).
Defined.

Lemma in_filter_user (uid : ObjectId) (l : list CartItem) (c : CartItem) :
  In c (filter (fun c => negb (Z.eqb c.(userId) uid)) l)
  <-> In c l /\ c.(userId) <> uid.
Proof.
  rewrite filter_In.
  destruct (Z.eqb_spec (userId c) uid); simpl; intuition congruence.
Qed.

(** X4. A request of [uid] that runs alone and clears the cart removes
    the items of [uid] and no others, reports how many it removed, and
    empties the user's [shopping_cart]; the carts of the other users and
    the products are untouched. *)
Theorem clear_empties_only_the_users_cart (req_user_id : ObjectId)
    (s : Store) :
  let out := clearCartController req_user_id (idle s) in
  let after := (snd out).(store) in
  fst out
  = Ok {| cleared_status := 200;
          deletedCount :=
            Z.of_nat (List.length s.(cartproducts))
            - Z.of_nat (List.length after.(cartproducts));
          cleared_message := "Cart cleared" |}
  /\ (forall c, In c after.(cartproducts)
                <-> In c s.(cartproducts) /\ c.(userId) <> req_user_id)
  /\ cart_of req_user_id after = []
  /\ (forall other, other <> req_user_id ->
        cart_of other after = cart_of other s)
  /\ after.(products) = s.(products).
Proof.
  cbv zeta.
  assert (Hrun :
    clearCartController req_user_id (idle s)
    = (Ok {| cleared_status := 200;
             deletedCount :=
               Z.of_nat
                 (List.length
                    (filter (fun c => Z.eqb c.(userId) req_user_id)
                       s.(cartproducts)));
             cleared_message := "Cart cleared" |},
       idle (snd (fst (User_emptyCart req_user_id
                         (snd (fst (CartProduct_deleteMany req_user_id s)))))))).
  { reflexivity. }
  rewrite Hrun. clear Hrun.
  unfold User_emptyCart, CartProduct_deleteMany, idle.
  cbn [fst snd store cartproducts products users nextId].
  pose proof (fun other =>
    @cart_of_map (fun _ => []) req_user_id other s
      (filter (fun c => negb (Z.eqb c.(userId) req_user_id)) (cartproducts s))
      (nextId s)) as Hcart.
  split; [|split; [|split; [|split]]].
  - do 2 f_equal.
    pose proof (filter_length (fun c => Z.eqb c.(userId) req_user_id)
                  (cartproducts s)) as Hlen.
    lia.
  - intros c. apply in_filter_user.
  - rewrite Hcart, Z.eqb_refl. destruct (List.find _ _); reflexivity.
  - intros other Hother. rewrite Hcart.
    rewrite (proj2 (Z.eqb_neq other req_user_id) Hother). reflexivity.
  - reflexivity.
Qed.

Lemma untouched_refl (uid : ObjectId) (s : Store) : untouched uid s s.
Proof. repeat split. Qed.

Lemma same_id_same_item (l : list CartItem) (a b : CartItem) :
  NoDup (map _id l) -> In a l -> In b l -> a.(_id) = b.(_id) -> a = b.
Proof.
  induction l as [|x l IH]; simpl; intros Hnd Ha Hb Heq; [contradiction|].
  inversion Hnd as [|? ? Hnot Hnd']; subst.
  destruct Ha as [<-|Ha]; destruct Hb as [<-|Hb]; auto.
  - exfalso. apply Hnot. rewrite Heq. apply in_map. exact Hb.
  - exfalso. apply Hnot. rewrite <- Heq. apply in_map. exact Ha.
Qed.

Lemma others_after_save (uid : ObjectId) (l : list CartItem)
    (item : CartItem) (qty : Z) :
  NoDup (map _id l) -> In item l -> item.(userId) = uid ->
  filter (fun c => negb (Z.eqb c.(userId) uid))
    (map (set_quantity item.(_id) qty) l)
  = filter (fun c => negb (Z.eqb c.(userId) uid)) l.
Proof.
  intros Hnd Hin Huser.
  assert (Hall : forall c, In c l ->
            set_quantity item.(_id) qty c = c
            \/ (userId (set_quantity item.(_id) qty c) = uid
                /\ userId c = uid)).
  { intros c Hc. unfold set_quantity.
    destruct (Z.eqb_spec (_id c) (_id item)) as [Heq|]; [|left; reflexivity].
    right. rewrite (@same_id_same_item l c item Hnd Hc Hin Heq). auto. }
  clear Hnd Hin. induction l as [|c l IH]; [reflexivity|].
  cbn [map filter].
  rewrite IH by (intros c' Hc'; apply Hall; right; exact Hc').
  destruct (Hall c (or_introl eq_refl)) as [->|[H1 H2]]; [reflexivity|].
  rewrite H1, H2, Z.eqb_refl. reflexivity.
Qed.

Lemma others_after_remove (uid : ObjectId) (p : CartItem -> bool)
    (l : list CartItem) :
  (forall c, p c = true -> c.(userId) = uid) ->
  filter (fun c => negb (Z.eqb c.(userId) uid)) (remove_first p l)
  = filter (fun c => negb (Z.eqb c.(userId) uid)) l.
Proof.
  intros Hp. induction l as [|c l IH]; [reflexivity|].
  cbn [remove_first filter].
  destruct (p c) eqn:Hc.
  - rewrite (Hp c Hc), Z.eqb_refl. reflexivity.
  - cbn [filter]. rewrite IH. reflexivity.
Qed.

Lemma other_users_after (g : list ObjectId -> list ObjectId)
    (uid : ObjectId) (l : list User) :
  filter (fun u => negb (Z.eqb u.(user_id) uid))
    (map (fun u =>
            if Z.eqb u.(user_id) uid
            then {| user_id := u.(user_id);
                    shopping_cart := g u.(shopping_cart) |}
            else u) l)
  = filter (fun u => negb (Z.eqb u.(user_id) uid)) l.
Proof.
  induction l as [|u l IH]; [reflexivity|].
  cbn [map filter]. rewrite IH.
  destruct (Z.eqb (user_id u) uid) eqn:Hu; cbn [user_id]; rewrite Hu;
    reflexivity.
Qed.

Lemma add_untouched (P : Platform) (uid : ObjectId)
    (req_productId req_quantity : Js.Value) (s : Store) :
  NoDup (map _id s.(cartproducts)) ->
  untouched uid s
    (snd (addToCartItemController P uid req_productId req_quantity
            (idle s))).(store).
Proof.
  intros Hnd.
  destruct (P.(isValidObjectId) req_productId) eqn:Hvalid.
  2:{ unfold addToCartItemController. rewrite Hvalid.
      apply untouched_refl. }
  destruct (Z_le_dec 1 (nullish_or (normalizeQuantity P req_quantity) 1))
    as [Hn|Hn].
  2:{ unfold addToCartItemController. rewrite Hvalid. cbn [negb].
      destruct (Z.ltb_spec (nullish_or (normalizeQuantity P req_quantity) 1) 1);
        [|lia].
      rewrite orb_true_r. apply untouched_refl. }
  destruct (P.(ObjectId_new) req_productId) as [pid|name] eqn:Hcast.
  2:{ unfold addToCartItemController. rewrite Hvalid. cbn [negb].
      destruct (Z.eqb_spec (nullish_or (normalizeQuantity P req_quantity) 1) 0);
        [lia|].
      destruct (Z.ltb_spec (nullish_or (normalizeQuantity P req_quantity) 1) 1);
        [lia|].
      cbn [orb]. unfold bind, lift, call. rewrite Hcast.
      apply untouched_refl. }
  rewrite (@add_alone P uid req_productId req_quantity pid s Hvalid Hcast Hn).
  destruct (List.find _ (products s)) as [product|]; [|apply untouched_refl].
  destruct (List.find (same_pair uid pid) (cartproducts s)) as [item|] eqn:Hfind.
  - destruct (Z.gtb _ _); [apply untouched_refl|].
    destruct (negb _); [apply untouched_refl|].
    cbn [snd store]. unfold untouched, items_of_others, other_users.
    cbn [cartproducts users products].
    apply find_some in Hfind. destruct Hfind as [Hin Hpair].
    unfold same_pair in Hpair. apply andb_true_iff in Hpair.
    destruct Hpair as [Huser _]. apply Z.eqb_eq in Huser.
    rewrite (@others_after_save uid (cartproducts s) item _ Hnd Hin Huser). auto.
  - destruct (Z.gtb _ _); [apply untouched_refl|].
    cbv zeta. cbn [snd store]. unfold User_addToSet.
    cbn [fst snd]. unfold untouched, items_of_others, other_users.
    cbn [cartproducts users products].
    rewrite filter_app. cbn [filter userId].
    rewrite Z.eqb_refl. cbn [negb]. rewrite app_nil_r.
    rewrite (other_users_after (add_to_set (nextId s))). auto.
Qed.

Lemma update_untouched (P : Platform) (uid : ObjectId)
    (req_cartItemId req_quantity : Js.Value) (s : Store) :
  NoDup (map _id s.(cartproducts)) ->
  untouched uid s
    (snd (updateCartItemQuantityController P uid req_cartItemId req_quantity
            (idle s))).(store).
Proof.
  intros Hnd. unfold updateCartItemQuantityController, idle.
  destruct (negb _); [apply untouched_refl|].
  destruct (normalizeQuantity P req_quantity) as [n|]; [|apply untouched_refl].
  destruct (_ || _); [apply untouched_refl|].
  unfold bind at 1, lift, call.
  destruct (P.(ObjectId_new) req_cartItemId) as [cid|name];
    [|apply untouched_refl].
  unfold bind at 1. rewrite await_idle. unfold CartProduct_findOwned.
  destruct (List.find (owned_item cid uid) (cartproducts s))
    as [item|] eqn:Hfind; [|apply untouched_refl].
  unfold bind at 1. rewrite await_idle. unfold Product_findById.
  destruct (List.find _ (products s)) as [product|]; [|apply untouched_refl].
  destruct (Z.gtb _ _); [apply untouched_refl|].
  unfold bind at 1. rewrite await_idle. unfold CartItem_save.
  destruct (negb (quantity_valid n)); [apply untouched_refl|].
  destruct (existsb _ _); [|apply untouched_refl].
  cbn [snd store ret]. unfold untouched, items_of_others, other_users.
  cbn [cartproducts users products].
  apply find_some in Hfind. destruct Hfind as [Hin Howned].
  unfold owned_item in Howned. apply andb_true_iff in Howned.
  destruct Howned as [_ Huser]. apply Z.eqb_eq in Huser.
  rewrite (@others_after_save uid (cartproducts s) item _ Hnd Hin Huser). auto.
Qed.

Lemma delete_untouched (P : Platform) (uid : ObjectId)
    (req_cartItemId : Js.Value) (s : Store) :
  untouched uid s
    (snd (deleteCartItemQuantityController P uid req_cartItemId
            (idle s))).(store).
Proof.
  destruct (P.(isValidObjectId) req_cartItemId) eqn:Hvalid.
  2:{ unfold deleteCartItemQuantityController. rewrite Hvalid.
      apply untouched_refl. }
  destruct (P.(ObjectId_new) req_cartItemId) as [cid|name] eqn:Hcast.
  2:{ unfold deleteCartItemQuantityController. rewrite Hvalid. cbn [negb].
      unfold bind, lift, call. rewrite Hcast. apply untouched_refl. }
  rewrite (@delete_alone P uid req_cartItemId cid s Hvalid Hcast).
  destruct (List.find _ _) as [item|]; [|apply untouched_refl].
  unfold User_pull, CartProduct_findOneAndDelete, idle.
  cbn [fst snd store]. unfold untouched, items_of_others, other_users.
  cbn [cartproducts users products].
  rewrite others_after_remove.
  2:{ intros c Hc. unfold owned_item in Hc. apply andb_true_iff in Hc.
      destruct Hc as [_ Hc]. apply Z.eqb_eq in Hc. exact Hc. }
  rewrite (other_users_after
             (filter (fun x => negb (Z.eqb x (_id item))))). auto.
Qed.

Lemma clear_untouched (uid : ObjectId) (s : Store) :
  untouched uid s (snd (clearCartController uid (idle s))).(store).
Proof.
  change (snd (clearCartController uid (idle s))).(store)
    with (snd (fst (User_emptyCart uid
                      (snd (fst (CartProduct_deleteMany uid s)))))).
  unfold User_emptyCart, CartProduct_deleteMany.
  cbn [fst snd]. unfold untouched, items_of_others, other_users.
  cbn [cartproducts users products].
  rewrite (other_users_after (fun _ => [])).
  repeat split.
  induction (cartproducts s) as [|c l IH]; [reflexivity|].
  cbn [filter]. destruct (negb (Z.eqb (userId c) uid)) eqn:Hc; cbn [filter];
    rewrite ?Hc, IH; reflexivity.
Qed.

(** X5. No cart request of one user touches what belongs to another.
    On a store whose cart items have distinct ids, whatever product id,
    cart item id or quantity a request of [uid] names, adding, changing
    a quantity, removing and clearing leave the cart items of every
    other user as they were and in place, and leave the other users'
    documents and the products unchanged. *)
Theorem cart_requests_leave_other_users_alone (P : Platform)
    (req_user_id : ObjectId) (req_id req_quantity : Js.Value) (s : Store) :
  NoDup (map _id s.(cartproducts)) ->
  untouched req_user_id s
    (snd (addToCartItemController P req_user_id req_id req_quantity
            (idle s))).(store)
  /\ untouched req_user_id s
       (snd (updateCartItemQuantityController P req_user_id req_id
               req_quantity (idle s))).(store)
  /\ untouched req_user_id s
       (snd (deleteCartItemQuantityController P req_user_id req_id
               (idle s))).(store)
  /\ untouched req_user_id s
       (snd (clearCartController req_user_id (idle s))).(store).
Proof.
  intros Hnd. split; [|split; [|split]].
  - apply add_untouched. exact Hnd.
  - apply update_untouched. exact Hnd.
  - apply delete_untouched.
  - apply clear_untouched.
Qed.

Lemma cart_requests_leave_other_users_alone_witness :
  NoDup (map _id two_carts.(cartproducts))
  /\ untouched 1 two_carts
       (snd (updateCartItemQuantityController Node.platform 1
               (Str "00000000000000000000000c") (Str "5")
               (idle two_carts))).(store)
  /\ untouched 1 two_carts
       (snd (clearCartController 1 (idle two_carts))).(store).
Proof.
  assert (Hnd : NoDup (map _id two_carts.(cartproducts))).
  { simpl.
    repeat (constructor;
            [simpl; intros H;
             repeat (destruct H as [H|H]; [discriminate H|]); exact H|]).
    constructor. }
  split; [exact Hnd|].
  pose proof (@cart_requests_leave_other_users_alone Node.platform 1
                (Str "00000000000000000000000c") (Str "5") two_carts Hnd)
    as (_ & Hupdate & _ & Hclear).
  exact (conj Hupdate Hclear).
Defined.

End CartEditFacts.

(* ================================================================== *)
(** * Properties of a page *)
(* ================================================================== *)

Lemma in_firstn (n : nat) (l : list Doc) (d : Doc) :
  In d (firstn n l) -> In d l.
Proof.
  intros Hin. rewrite <- (firstn_skipn n l). apply in_or_app. left. exact Hin.
Qed.

Lemma in_skipn (n : nat) (l : list Doc) (d : Doc) :
  In d (skipn n l) -> In d l.
Proof.
  intros Hin. rewrite <- (firstn_skipn n l). apply in_or_app. right. exact Hin.
Qed.

Lemma in_removelast (l : list Doc) (d : Doc) :
  In d (removelast l) -> In d l.
Proof.
  rewrite removelast_firstn_len. apply in_firstn.
Qed.

(** What [find] returns is in the collection and passes the filter. *)
Lemma in_find (coll : list Doc) (q : option Query) (spec : SortSpec)
    (skip limit : Z) (d : Doc) :
  In d (find coll q spec skip limit) ->
  In d coll /\ matches_opt q d = true.
Proof.
  unfold find, Mongo.sort. intros Hin.
  apply in_firstn, in_skipn in Hin.
  apply sort_by_In in Hin. apply filter_In in Hin. exact Hin.
Qed.

Lemma find_length (coll : list Doc) (q : option Query) (spec : SortSpec)
    (skip limit : Z) :
  0 <= limit ->
  Z.of_nat (List.length (find coll q spec skip limit)) <= limit.
Proof.
  intros Hl. unfold find.
  pose proof (firstn_le_length (Z.to_nat limit)
                (skipn (Z.to_nat skip)
                   (Mongo.sort spec (filter (matches_opt q) coll)))).
  lia.
Qed.

Lemma in_find_from (coll : list Doc) (q : option Query) (spec : SortSpec)
    (skip : Js.Count) (limit : Z) (d : Doc) :
  In d (find_from coll q spec skip limit) ->
  In d coll /\ matches_opt q d = true.
Proof.
  destruct skip as [k|]; [apply in_find|intros []].
Qed.

Lemma find_from_length (coll : list Doc) (q : option Query)
    (spec : SortSpec) (skip : Js.Count) (limit : Z) :
  0 <= limit ->
  Z.of_nat (List.length (find_from coll q spec skip limit)) <= limit.
Proof.
  intros Hl. destruct skip as [k|]; [apply find_length; exact Hl|exact Hl].
Qed.

Lemma parsePagination_range (P : Platform) (pg lim : Js.Value) :
  count_le (Finite 1) (fst (parsePagination P pg lim))
  /\ 1 <= snd (parsePagination P pg lim) <= 100.
Proof.
  unfold parsePagination, at_most, or_default_max_1; simpl. split.
  - destruct (P.(parseInt10) pg) as [| | |z]; simpl; lia.
  - destruct (P.(parseInt10) lim) as [| | |z]; lia.
Qed.

Lemma ceil_div_covers (a b : Z) : 0 < b -> a <= ceil_div a b * b.
Proof.
  intros Hb.
  destruct (Z_lt_le_dec (ceil_div a b * b) a) as [Hlt|Hge]; [|exact Hge].
  apply (ceil_div_gt a (ceil_div a b) Hb) in Hlt. lia.
Qed.

(** A request without cursor is answered exactly when the store takes
    the skip of its page. *)
Lemma offset_answered (P : Platform) (coll : list Doc)
    (query : option Query) (offsetSort : SortSpec) (req : ListQuery) :
  let pageNumber := fst (parsePagination P req.(page) req.(limit)) in
  let limitNumber := snd (parsePagination P req.(page) req.(limit)) in
  truthy req.(cursor) = false ->
  ((exists listing, paginate P coll query offsetSort req = Ok listing)
   <-> P.(skip_accepted) (skip_of pageNumber limitNumber) = true)
  /\ (P.(skip_accepted) (skip_of pageNumber limitNumber) = false ->
      paginate P coll query offsetSort req = Throw serverError).
Proof.
  cbv zeta. intros Hcur. unfold paginate.
  destruct (parsePagination P req.(page) req.(limit)) as [pn ln].
  cbn [fst snd]. rewrite Hcur.
  destruct (P.(skip_accepted) (skip_of pn ln)); cbn [negb].
  - split; [|discriminate]. split; [reflexivity|]. intros _. eauto.
  - split; [|reflexivity]. split; [intros [l Hl]|]; discriminate.
Qed.

(** What both list handlers return, in either mode. *)
Lemma paginate_spec (P : Platform) (coll : list Doc) (query : option Query)
    (offsetSort : SortSpec) (req : ListQuery) (listing : Listing) :
  paginate P coll query offsetSort req = Ok listing ->
  let pageNumber := fst (parsePagination P req.(page) req.(limit)) in
  let limitNumber := snd (parsePagination P req.(page) req.(limit)) in
  (forall d, In d listing.(items) ->
             In d coll /\ matches_opt query d = true)
  /\ Z.of_nat (List.length listing.(items)) <= limitNumber
  /\ match listing.(pagination) with
     | CursorMode lim next more =>
         truthy req.(cursor) = true
         /\ lim = limitNumber
         /\ (more = true <-> next <> None)
         /\ (more = true ->
             Z.of_nat (List.length listing.(items)) = limitNumber)
     | OffsetMode total pg lim totalPages =>
         truthy req.(cursor) = false
         /\ total = countDocuments coll query
         /\ pg = pageNumber
         /\ lim = limitNumber
         /\ totalPages = ceil_div total limitNumber
         /\ (count_lt (Finite totalPages) pageNumber -> listing.(items) = [])
         /\ (count_lt pageNumber (Finite totalPages) ->
             Z.of_nat (List.length listing.(items)) = limitNumber)
     end.
Proof.
  pose proof (parsePagination_range P req.(page) req.(limit)) as [Hpn Hln].
  cbv zeta. unfold paginate.
  destruct (parsePagination P req.(page) req.(limit)) as [pn ln].
  cbn [fst snd] in *.
  destruct (truthy req.(cursor)) eqn:Hcur.
  - destruct (truthy req.(sort) && negb (is_string req.(sort) "oldest"));
      [discriminate|].
    destruct (decodeCursor P req.(cursor)) as [c|e]; [|discriminate].
    cbn [Js.bind].
    set (products := find coll
           (combineQuery query (buildCursorFilter (Some c) req.(sort)))
           (cursorSortOf req.(sort)) 0 (ln + 1)).
    assert (Hsound : forall d, In d products ->
                       In d coll /\ matches_opt query d = true).
    { intros d Hd. apply in_find in Hd. destruct Hd as [Hin Hm].
      rewrite combineQuery_matches in Hm. apply andb_true_iff in Hm.
      tauto. }
    assert (Hlen : Z.of_nat (List.length products) <= ln + 1)
      by (apply find_length; lia).
    destruct (Z.ltb_spec ln (Z.of_nat (List.length products))) as [Hmore|Hlast].
    + destruct (rev (removelast products)) as [|lastDoc r]; [discriminate|].
      destruct (encodeCursor P (Mongo.createdAt lastDoc) (_id lastDoc))
        as [next|e]; [|discriminate].
      cbn [Js.bind]. intros [= <-]. cbn [items pagination].
      assert (Hrl : Z.of_nat (List.length (removelast products)) = ln).
      { rewrite removelast_firstn_len, length_firstn. lia. }
      split; [intros d Hd; apply Hsound, in_removelast, Hd|].
      split; [lia|]. split; [reflexivity|]. split; [reflexivity|].
      split; [|intros _; exact Hrl].
      split; [discriminate|reflexivity].
    + cbn [Js.bind]. intros [= <-]. cbn [items pagination].
      split; [exact Hsound|]. split; [exact Hlast|].
      split; [reflexivity|]. split; [reflexivity|].
      split; [|discriminate].
      split; [discriminate|intros H; exfalso; apply H; reflexivity].
  - destruct (negb _); [discriminate|].
    intros [= <-]. cbn [items pagination].
    set (total := countDocuments coll query).
    assert (Htotal : total
              = Z.of_nat (List.length
                            (Mongo.sort offsetSort
                               (filter (matches_opt query) coll)))).
    { unfold total, countDocuments, Mongo.sort. f_equal.
      symmetry. apply Permutation_length. apply sort_by_perm. }
    split; [intros d Hd; apply in_find_from in Hd; exact Hd|].
    split; [apply find_from_length; lia|].
    split; [reflexivity|]. split; [reflexivity|]. split; [reflexivity|].
    split; [reflexivity|]. split; [reflexivity|].
    pose proof (ceil_div_covers total (b := ln)) as Hcover.
    destruct pn as [pn|]; cbn [skip_of find_from count_lt count_le] in *.
    2:{ split; [reflexivity|intros []]. }
    unfold find.
    split.
    + intros Hbeyond.
      rewrite skipn_all2; [destruct (Z.to_nat ln); reflexivity|].
      rewrite Htotal in *. nia.
    + intros Hbefore.
      apply (ceil_div_gt total pn) in Hbefore; [|lia].
      rewrite length_firstn, length_skipn. rewrite Htotal in *. nia.
Qed.

(** X6. A page of products.  The page size [limit] is at least 1 and
    at most 100 whatever the request asks for, and the page number is at
    least 1.  A request without cursor is answered exactly when the
    store takes the skip of its page, and is refused with the store's
    error when it does not.  On a page that is answered, in either
    mode, every product is in the collection and passes the request's
    filter, and there are at most [limit] of them.  In cursor mode
    [hasNextPage] is true exactly when there is a [nextCursor], and then
    the page is full; in offset mode [total] counts the products that
    pass the filter, [totalPages] is [total / limit] rounded up, a page
    before the last one is full and a page past the last one is
    empty. *)
Theorem page_of_products_is_sound_and_bounded (P : Platform)
    (coll : list Doc) (query : Query) (req : ListQuery) :
  let pageNumber := fst (parsePagination P req.(page) req.(limit)) in
  let limitNumber := snd (parsePagination P req.(page) req.(limit)) in
  count_le (Finite 1) pageNumber /\ 1 <= limitNumber <= 100
  /\ (truthy req.(cursor) = false ->
      ((exists listing, listProducts P coll query req = Ok listing)
       <-> P.(skip_accepted) (skip_of pageNumber limitNumber) = true)
      /\ (P.(skip_accepted) (skip_of pageNumber limitNumber) = false ->
          listProducts P coll query req = Throw serverError))
  /\ (forall listing,
        listProducts P coll query req = Ok listing ->
        (forall d, In d listing.(items) ->
                   In d coll /\ matches query d = true)
        /\ Z.of_nat (List.length listing.(items)) <= limitNumber
        /\ match listing.(pagination) with
           | CursorMode lim next more =>
               truthy req.(cursor) = true
               /\ lim = limitNumber
               /\ (more = true <-> next <> None)
               /\ (more = true ->
                   Z.of_nat (List.length listing.(items)) = limitNumber)
           | OffsetMode total pg lim totalPages =>
               truthy req.(cursor) = false
               /\ total
                  = Z.of_nat (List.length (filter (matches query) coll))
               /\ pg = pageNumber
               /\ lim = limitNumber
               /\ totalPages = ceil_div total limitNumber
               /\ (count_lt (Finite totalPages) pageNumber ->
                   listing.(items) = [])
               /\ (count_lt pageNumber (Finite totalPages) ->
                   Z.of_nat (List.length listing.(items)) = limitNumber)
           end).
Proof.
  cbv zeta.
  pose proof (parsePagination_range P req.(page) req.(limit)) as [Hpn Hln].
  split; [exact Hpn|]. split; [exact Hln|]. split.
  - intros Hcur. unfold listProducts.
    exact (offset_answered P coll (Some query) (buildSort req.(sort)) req
             Hcur).
  - intros listing Hok. exact (paginate_spec _ _ _ _ _ Hok).
Qed.

Lemma page_of_products_is_sound_and_bounded_witness :
  listProducts Node.platform five_products everything
    {| page := Str "4"; limit := Str "1000"; sort := Undefined;
       cursor := Undefined |}
  = Ok {| items := []; pagination := OffsetMode 5 (Finite 4) 100 1 |}
  /\ Z.of_nat (List.length (@nil Doc)) <= 100.
Proof.
  assert (Hok :
    listProducts Node.platform five_products everything
      {| page := Str "4"; limit := Str "1000"; sort := Undefined;
         cursor := Undefined |}
    = Ok {| items := []; pagination := OffsetMode 5 (Finite 4) 100 1 |})
    by (vm_compute; reflexivity).
  split; [exact Hok|].
  exact (proj1 (proj2 (proj2 (proj2 (proj2
           (page_of_products_is_sound_and_bounded Node.platform
              five_products everything
              {| page := Str "4"; limit := Str "1000"; sort := Undefined;
                 cursor := Undefined |})))
           _ Hok))).
Defined.

(** X7. A page of [getCartItemController], in either mode and whatever
    cursor, sort key, page and limit the request carries, lists only cart
    items of the signed-in user, and at most 100 of them. *)
Theorem cart_page_lists_only_own_items (P : Platform) (coll : list Doc)
    (req_user_id : ObjectId) (req : ListQuery) (listing : Listing) :
  getCartItemController P coll req_user_id req = Ok listing ->
  (forall d, In d listing.(items) ->
             In d coll /\ getField "userId" d = Some (VId req_user_id))
  /\ (List.length listing.(items) <= 100)%nat.
Proof.
  intros Hok. unfold getCartItemController in Hok.
  pose proof (parsePagination_range P req.(page) req.(limit)) as [_ Hln].
  destruct (paginate_spec _ _ _ _ _ Hok) as (Hsound & Hlen & _).
  split; [|lia].
  intros d Hd. destruct (Hsound d Hd) as [Hin Hm].
  split; [exact Hin|].
  cbn [matches_opt matches forallb fst snd cond_holds] in Hm.
  rewrite andb_true_r in Hm. unfold eq_holds in Hm.
  destruct (getField "userId" d) as [v|]; [|discriminate].
  destruct v as [|b|n|s|t|o]; try discriminate.
  cbn [compare_value] in Hm.
  destruct (Z.compare_spec o req_user_id); [congruence|discriminate..].
Qed.

Lemma cart_page_lists_only_own_items_witness :
  getCartItemController Node.platform cart_docs 1
    {| page := Undefined; limit := Undefined; sort := Undefined;
       cursor := Undefined |}
  = Ok {| items := [ cart_doc 13 1705000002000 1;
                     cart_doc 11 1705000000000 1 ];
          pagination := OffsetMode 2 (Finite 1) 10 1 |}
  /\ (forall d, In d [ cart_doc 13 1705000002000 1;
                       cart_doc 11 1705000000000 1 ] ->
        In d cart_docs /\ getField "userId" d = Some (VId 1)).
Proof.
  assert (Hok :
    getCartItemController Node.platform cart_docs 1
      {| page := Undefined; limit := Undefined; sort := Undefined;
         cursor := Undefined |}
    = Ok {| items := [ cart_doc 13 1705000002000 1;
                       cart_doc 11 1705000000000 1 ];
            pagination := OffsetMode 2 (Finite 1) 10 1 |})
    by (vm_compute; reflexivity).
  split; [exact Hok|].
  exact (proj1 (cart_page_lists_only_own_items _ _ _ _ Hok)).
Defined.

(* ================================================================== *)
(** * Cursor mode on creation times that tie *)
(* ================================================================== *)

Lemma leb_by_cursorSortOf (sortKey : Js.Value) (a b : Doc) :
  leb_by (cursorSortOf sortKey) a b
  = keyset_leb (is_string sortKey "oldest") a b.
Proof.
  unfold leb_by, keyset_leb, cursorSortOf.
  destruct (is_string sortKey "oldest"); simpl; unfold getField; simpl;
    rewrite Z.eqb_compare, !Z.leb_compare;
    rewrite ?(Z.compare_antisym (Mongo.createdAt a)),
            ?(Z.compare_antisym (_id a));
    destruct (Mongo.createdAt a ?= Mongo.createdAt b) eqn:Hc;
    destruct (_id a ?= _id b) eqn:Hi; simpl;
    rewrite ?Hc, ?Hi; reflexivity.
Qed.

Lemma keyset_leb_total (oldest : bool) (a b : Doc) :
  keyset_leb oldest a b = true \/ keyset_leb oldest b a = true.
Proof.
  unfold keyset_leb.
  rewrite (Z.eqb_sym (Mongo.createdAt b)).
  destruct (Z.eqb (Mongo.createdAt a) (Mongo.createdAt b)), oldest;
    rewrite !Z.leb_le; lia.
Qed.

Lemma keyset_leb_trans (oldest : bool) (a b c : Doc) :
  keyset_leb oldest a b = true -> keyset_leb oldest b c = true ->
  keyset_leb oldest a c = true.
Proof.
  unfold keyset_leb.
  destruct (Z.eqb_spec (Mongo.createdAt a) (Mongo.createdAt b)),
           (Z.eqb_spec (Mongo.createdAt b) (Mongo.createdAt c)),
           (Z.eqb_spec (Mongo.createdAt a) (Mongo.createdAt c)),
           oldest;
    rewrite !Z.leb_le; lia.
Qed.

(** Of two documents with different ids, the one the order puts first
    has the other one after its cursor, and not the other way round. *)
Lemma keyset_leb_strict (oldest : bool) (a b : Doc) :
  keyset_leb oldest a b = true -> a.(_id) <> b.(_id) ->
  after_cursor oldest (cursor_of a) b = true
  /\ after_cursor oldest (cursor_of b) a = false.
Proof.
  unfold keyset_leb, after_cursor, cursor_of. cbn [createdAt id].
  intros Hle Hne.
  rewrite (Z.eqb_sym (Mongo.createdAt b)).
  destruct (Z.eqb_spec (Mongo.createdAt a) (Mongo.createdAt b)) as [Heq|Hneq],
           oldest;
    apply Z.leb_le in Hle; cbn [andb];
    rewrite ?orb_false_r;
    repeat match goal with
           | |- context [Z.ltb ?x ?y] => destruct (Z.ltb_spec x y)
           end; cbn [orb]; try lia; auto.
Qed.

Lemma after_own_cursor (oldest : bool) (d : Doc) :
  after_cursor oldest (cursor_of d) d = false.
Proof.
  unfold after_cursor, cursor_of. cbn [createdAt id].
  rewrite !Z.ltb_irrefl, !andb_false_r. destruct oldest; reflexivity.
Qed.

(** In a list sorted in the order of cursor mode, with distinct ids, the
    keyset filter of an element keeps exactly what follows it. *)
Lemma filter_after_keyset (oldest : bool) (pre suf : list Doc) (d : Doc) :
  StronglySorted (fun a b => keyset_leb oldest a b = true) (pre ++ d :: suf) ->
  NoDup (map _id (pre ++ d :: suf)) ->
  filter (after_cursor oldest (cursor_of d)) (pre ++ d :: suf) = suf.
Proof.
  induction pre as [|x pre IH]; cbn [app filter map]; intros Hs Hnd.
  - inversion Hs as [|? ? Hs' Hall]; subst.
    inversion Hnd as [|? ? Hnot _]; subst.
    rewrite after_own_cursor.
    apply forallb_filter_id. apply forallb_forall.
    intros y Hy. rewrite Forall_forall in Hall.
    apply keyset_leb_strict; [apply Hall; exact Hy|].
    intros Heq. apply Hnot. rewrite Heq. apply in_map. exact Hy.
  - inversion Hs as [|? ? Hs' Hall]; subst.
    inversion Hnd as [|? ? Hnot Hnd']; subst.
    rewrite (IH Hs' Hnd').
    rewrite Forall_forall in Hall.
    assert (Hx : after_cursor oldest (cursor_of d) x = false).
    { apply (@keyset_leb_strict oldest x d).
      - apply Hall. apply in_elt.
      - intros Heq. apply Hnot. rewrite Heq. apply in_map. apply in_elt. }
    rewrite Hx. reflexivity.
Qed.

Lemma distinct_ids_filter (keep : Doc -> bool) (coll : list Doc) :
  NoDup (map _id coll) -> NoDup (map _id (filter keep coll)).
Proof.
  induction coll as [|x coll IH]; simpl; intros Hnd; [constructor|].
  inversion Hnd as [|? ? Hnot Hnd']; subst.
  destruct (keep x); simpl; [|auto].
  constructor; [|auto].
  intros Hin. apply Hnot. apply in_map_iff in Hin.
  destruct Hin as (y & Hy & Hin). apply filter_In in Hin.
  apply in_map_iff. exists y. tauto.
Qed.

Section KeysetFacts.

Variable P : Platform.
Variable coll : list Doc.
Variable query : Query.
Variable lim : Js.Value.
Variable sortKey : Js.Value.

Hypothesis admitted_key :
  truthy sortKey && negb (is_string sortKey "oldest") = false.
Hypothesis distinct_ids : NoDup (map _id coll).
Hypothesis faithful :
  forall d, In d coll -> faithful_at P d.(Mongo.createdAt) d.(_id).

Lemma keyset_listing_In (d : Doc) :
  In d (keyset_listing coll query sortKey) -> In d coll.
Proof.
  unfold keyset_listing, Mongo.sort. rewrite sort_by_In.
  intros H. apply filter_In in H. tauto.
Qed.

(** What the store returns for the filter and sort of cursor mode: the
    part of the listing after the cursor's document. *)
Lemma keyset_find (pre suf : list Doc) (d : Doc) :
  keyset_listing coll query sortKey = pre ++ d :: suf ->
  Mongo.sort (cursorSortOf sortKey)
    (filter
       (matches_opt
          (combineQuery (Some query)
             (buildCursorFilter (Some (cursor_of d)) sortKey))) coll)
  = suf.
Proof.
  intros Hsplit.
  set (oldest := is_string sortKey "oldest").
  rewrite (filter_ext _ (fun x => matches query x
                                  && after_cursor oldest (cursor_of d) x)).
  2:{ intros x. rewrite combineQuery_matches, buildCursorFilter_matches.
      reflexivity. }
  rewrite filter_andb. unfold Mongo.sort.
  assert (Htotal : forall a b, leb_by (cursorSortOf sortKey) a b = true
                               \/ leb_by (cursorSortOf sortKey) b a = true).
  { intros a b. rewrite !leb_by_cursorSortOf. apply keyset_leb_total. }
  assert (Htrans : forall a b c,
            leb_by (cursorSortOf sortKey) a b = true ->
            leb_by (cursorSortOf sortKey) b c = true ->
            leb_by (cursorSortOf sortKey) a c = true).
  { intros a b c. rewrite !leb_by_cursorSortOf. apply keyset_leb_trans. }
  rewrite (@sort_by_filter (leb_by (cursorSortOf sortKey)) Htotal Htrans).
  change (sort_by (leb_by (cursorSortOf sortKey)) (filter (matches query) coll))
    with (keyset_listing coll query sortKey).
  rewrite Hsplit. apply filter_after_keyset.
  - rewrite <- Hsplit. unfold keyset_listing, Mongo.sort.
    pose proof (@sort_by_sorted (leb_by (cursorSortOf sortKey)) Htotal Htrans
                  (filter (matches query) coll))
      as Hsorted.
    eapply StronglySorted_ind with (P := StronglySorted _); [| |exact Hsorted].
    + constructor.
    + intros a l _ IH Hall. constructor; [exact IH|].
      eapply Forall_impl; [|exact Hall].
      intros b Hab. cbv beta in Hab. rewrite leb_by_cursorSortOf in Hab.
      exact Hab.
  - rewrite <- Hsplit. unfold keyset_listing, Mongo.sort.
    apply Permutation_NoDup
      with (l := map _id (filter (matches query) coll)).
    + apply Permutation_map. apply Permutation_sym. apply sort_by_perm.
    + apply distinct_ids_filter. exact distinct_ids.
Qed.

(** What a request with the cursor of a listed document returns. *)
Lemma keyset_page (pre suf : list Doc) (d : Doc) (token : string) :
  keyset_listing coll query sortKey = pre ++ d :: suf ->
  encodeCursor P d.(Mongo.createdAt) d.(_id) = Ok token ->
  let n := Z.to_nat (limitNumber P lim) in
  exists next,
    listProducts P coll query (keyedRequest lim sortKey (Str token))
    = Ok {| items := firstn n suf;
            pagination :=
              CursorMode (limitNumber P lim) next
                (Nat.ltb n (List.length suf)) |}
    /\ (if Nat.ltb n (List.length suf)
        then exists mid lastDoc nextToken,
               firstn n suf = mid ++ [lastDoc]
               /\ encodeCursor P lastDoc.(Mongo.createdAt) lastDoc.(_id)
                  = Ok nextToken
               /\ next = Some nextToken
        else next = None).
Proof.
  intros Hsplit Henc n.
  pose proof (limitNumber_range P lim) as Hl.
  assert (Hd : In d coll).
  { apply keyset_listing_In. rewrite Hsplit. apply in_elt. }
  destruct (token_roundtrip (faithful d Hd)) as (token' & Henc' & Htruthy & Hdec).
  rewrite Henc in Henc'. inversion Henc'; subst token'.
  unfold listProducts, paginate, keyedRequest.
  cbn [page limit sort cursor].
  pose proof (limitNumber_any_page P lim Undefined) as Hlim.
  destruct (parsePagination P Undefined lim) as [pn ln].
  simpl in Hlim. subst ln.
  rewrite Htruthy, admitted_key. rewrite Hdec. cbn [Js.bind].
  unfold find.
  change {| createdAt := Mongo.createdAt d; id := _id d |} with (cursor_of d).
  rewrite (keyset_find _ _ _ Hsplit).
  cbn [skipn Z.to_nat].
  replace (Z.to_nat ((limitNumber P lim) + 1)) with (S n) by (unfold n; lia).
  rewrite length_firstn.
  destruct (Nat.ltb_spec n (List.length suf)) as [Hlt|Hge].
  - destruct (Z.ltb_spec (limitNumber P lim)
                (Z.of_nat (Nat.min (S n) (List.length suf)))) as [_|Hbad];
      [|unfold n in *; lia].
    rewrite (@removelast_firstn _ n suf Hlt).
    assert (Hne : firstn n suf <> []).
    { intros Hnil. apply (f_equal (@List.length Doc)) in Hnil.
      rewrite length_firstn in Hnil. simpl in Hnil. unfold n in *. lia. }
    destruct (rev (firstn n suf)) as [|lastDoc r] eqn:Hrev.
    { exfalso. apply Hne. rewrite <- (rev_involutive (firstn n suf)), Hrev.
      reflexivity. }
    assert (Hlast : firstn n suf = rev r ++ [lastDoc]).
    { rewrite <- (rev_involutive (firstn n suf)), Hrev. reflexivity. }
    assert (Hin : In lastDoc coll).
    { apply keyset_listing_In. rewrite Hsplit. apply in_or_app. right. right.
      rewrite <- (firstn_skipn n suf). apply in_or_app. left.
      rewrite Hlast. apply in_or_app. right. left. reflexivity. }
    destruct (token_roundtrip (faithful lastDoc Hin))
      as (nextToken & Hnext & _ & _).
    rewrite Hnext. cbn [Js.bind].
    exists (Some nextToken). split; [reflexivity|].
    exists (rev r), lastDoc, nextToken. auto.
  - destruct (Z.ltb_spec (limitNumber P lim)
                (Z.of_nat (Nat.min (S n) (List.length suf)))) as [Hbad|_];
      [unfold n in *; lia|].
    cbn [Js.bind]. exists None. split; [|reflexivity].
    rewrite (firstn_all2 (n := S n)) by lia.
    rewrite (firstn_all2 (n := n)) by lia. reflexivity.
Qed.

Lemma followNextCursor_from (fuel : nat) :
  forall pre suf d token,
    keyset_listing coll query sortKey = pre ++ d :: suf ->
    encodeCursor P d.(Mongo.createdAt) d.(_id) = Ok token ->
    (List.length suf < fuel)%nat ->
    followNextCursor P coll query lim sortKey fuel (Str token) = Some suf.
Proof.
  pose proof (limitNumber_range P lim) as Hl.
  induction fuel as [|fuel IH]; intros pre suf d token Hsplit Henc Hfuel;
    [lia|].
  cbn [followNextCursor].
  destruct (keyset_page _ _ _ Hsplit Henc) as (next & Hpage & Hnext).
  rewrite Hpage. cbn [pagination items].
  set (n := Z.to_nat (limitNumber P lim)) in *.
  destruct (Nat.ltb_spec n (List.length suf)) as [Hlt|Hge].
  - destruct Hnext as (mid & lastDoc & nextToken & Hlast & Hnenc & ->).
    rewrite (IH (pre ++ d :: mid) (skipn n suf) lastDoc nextToken).
    + simpl. rewrite firstn_skipn. reflexivity.
    + rewrite Hsplit, <- app_assoc. cbn [app]. do 2 f_equal.
      rewrite <- (firstn_skipn n suf) at 1. rewrite Hlast, <- app_assoc.
      reflexivity.
    + exact Hnenc.
    + rewrite length_skipn. unfold n in *. lia.
  - subst next. rewrite firstn_all2 by lia. reflexivity.
Qed.

End KeysetFacts.

(** X8. Cursor mode is complete even when creation times tie.  On a
    static collection whose documents have distinct ids (and on which
    the built-ins are faithful), under every sort key that cursor mode
    admits, the pages reached from the cursor of a listed document by
    following [nextCursor] until [hasNextPage] is false are, put end to
    end, exactly the documents that follow it in the order
    [(createdAt, _id)] of that sort key: none is skipped and none comes
    twice. *)
Theorem cursor_pages_are_complete_with_ties (P : Platform)
    (coll : list Doc) (query : Query) (lim sortKey : Js.Value)
    (fuel : nat) (pre suf : list Doc) (d : Doc) (token : string) :
  truthy sortKey && negb (is_string sortKey "oldest") = false ->
  NoDup (map _id coll) ->
  (forall x, In x coll -> faithful_at P x.(Mongo.createdAt) x.(_id)) ->
  keyset_listing coll query sortKey = pre ++ d :: suf ->
  encodeCursor P d.(Mongo.createdAt) d.(_id) = Ok token ->
  (List.length suf < fuel)%nat ->
  followNextCursor P coll query lim sortKey fuel (Str token) = Some suf.
Proof.
  intros Hkey Hnd Hfaithful Hsplit Henc Hfuel.
  exact (@followNextCursor_from P coll query lim sortKey Hkey Hnd Hfaithful
           fuel pre suf d token Hsplit Henc Hfuel).
Qed.

Lemma cursor_pages_are_complete_with_ties_witness :
  NoDup (map _id products_with_tie)
  /\ keyset_listing products_with_tie everything (Str "oldest")
     = [ doc 0x65a1b2c3d4e5f60718293a01 1705000000000;
         doc 0x65a1b2c3d4e5f60718293a02 1705000000000;
         doc 0x65a1b2c3d4e5f60718293a03 1705000001000 ]
  /\ exists token,
       encodeCursor Node.platform 1705000000000 0x65a1b2c3d4e5f60718293a01
       = Ok token
       /\ followNextCursor Node.platform products_with_tie everything
            (Str "1") (Str "oldest") 3 (Str token)
          = Some [ doc 0x65a1b2c3d4e5f60718293a02 1705000000000;
                   doc 0x65a1b2c3d4e5f60718293a03 1705000001000 ].
Proof.
  assert (H1 : NoDup (map _id products_with_tie)).
  { simpl.
    repeat (constructor;
            [simpl; intros H;
             repeat (destruct H as [H|H]; [discriminate H|]); exact H|]).
    constructor. }
  assert (H2 : forall x, In x products_with_tie ->
                 faithful_at Node.platform x.(Mongo.createdAt) x.(_id)).
  { intros x Hin. simpl in Hin.
    repeat (destruct Hin as [<-|Hin];
            [apply node_platform_faithful; simpl; unfold Node.maxTime; lia|]).
    contradiction. }
  assert (H3 : keyset_listing products_with_tie everything (Str "oldest")
               = [] ++ doc 0x65a1b2c3d4e5f60718293a01 1705000000000
                    :: [ doc 0x65a1b2c3d4e5f60718293a02 1705000000000;
                         doc 0x65a1b2c3d4e5f60718293a03 1705000001000 ])
    by (vm_compute; reflexivity).
  split; [exact H1|]. split; [exact H3|].
  eexists. split; [vm_compute; reflexivity|].
  apply (@cursor_pages_are_complete_with_ties Node.platform products_with_tie
           everything (Str "1") (Str "oldest") 3 []
           [ doc 0x65a1b2c3d4e5f60718293a02 1705000000000;
             doc 0x65a1b2c3d4e5f60718293a03 1705000001000 ]
           (doc 0x65a1b2c3d4e5f60718293a01 1705000000000) _
           eq_refl H1 H2 H3).
  - vm_compute. reflexivity.
  - simpl. apply le_n.
Defined.

(* ================================================================== *)
(** * The resolver computes the descendants *)
(* ================================================================== *)

Section ResolverFacts.

Variable categories : list Category.
Variable a : ObjectId.

(** The children of a set of ids are the categories one step further. *)
Lemma findChildIds_step (queue : list ObjectId) (k : nat) :
  (forall x, In x queue <-> reaches categories a k x) ->
  forall x, In x (findChildIds categories queue)
            <-> reaches categories a (S k) x.
Proof.
  intros Hqueue x. unfold findChildIds. rewrite in_map_iff. split.
  - intros (c & <- & Hc). apply filter_In in Hc. destruct Hc as [Hin Hp].
    destruct (parentCategoryId c) as [p|] eqn:Hparent; [|discriminate].
    apply existsb_exists in Hp. destruct Hp as (q & Hq & Heq).
    apply Z.eqb_eq in Heq. subst q.
    apply reaches_child with (p := p); auto. apply Hqueue. exact Hq.
  - intros Hr. inversion Hr as [|k' c p Hin Hparent Hp]; subst.
    exists c. split; [reflexivity|].
    apply filter_In. split; [exact Hin|]. rewrite Hparent.
    apply existsb_exists. exists p. split; [|apply Z.eqb_refl].
    apply Hqueue. exact Hp.
Qed.

Lemma reaches_frontier (k : nat) (x : ObjectId) :
  In x (frontier categories a k) <-> reaches categories a k x.
Proof.
  revert x. induction k as [|k IH]; intros x.
  - simpl. split.
    + intros [<-|[]]. constructor.
    + intros Hr. inversion Hr. left. reflexivity.
  - simpl. apply findChildIds_step. exact IH.
Qed.

(** Past an empty level there is nothing. *)
Lemma reaches_beyond (k j : nat) (x : ObjectId) :
  (forall y, ~ reaches categories a k y) ->
  (k <= j)%nat -> ~ reaches categories a j x.
Proof.
  intros Hempty Hle. revert x.
  induction Hle as [|j Hle IH]; intros x; [apply Hempty|].
  intros Hr. inversion Hr as [|k' c p _ _ Hp]; subst.
  exact (IH p Hp).
Qed.

Lemma empty_list_no_member (l : list ObjectId) :
  Nat.ltb 0 (List.length l) = false \/ Nat.eqb (List.length l) 0 = true ->
  forall y, ~ In y l.
Proof.
  destruct l; [intros _ y []|].
  simpl. intros [H|H]; discriminate.
Qed.

Variable maxDepth : option Js.Count.
Variable self : list ObjectId.

(** What the loop returns from its [k]-th round on. *)
Lemma descend_spec (fuel : nat) :
  forall acc queue (k : nat) r,
    (forall x, In x queue <-> reaches categories a k x) ->
    (forall x, In x acc
               <-> In x self
                   \/ exists j, (1 <= j <= k)%nat /\ reaches categories a j x) ->
    descend fuel categories maxDepth acc queue (Z.of_nat k) = Some r ->
    exists n : nat,
      r.(depth) = Z.of_nat n /\ (k <= n)%nat
      /\ (forall x, In x r.(ids)
                    <-> In x self
                        \/ exists j, (1 <= j <= n)%nat
                                     /\ reaches categories a j x)
      /\ (depth_reached maxDepth r.(depth) = false ->
          forall j x, reaches categories a j x -> (j <= n)%nat).
Proof.
  induction fuel as [|fuel IH]; intros acc queue k r Hqueue Hids;
    [discriminate|].
  cbn [descend].
  assert (Hdone : forall acc0 : list ObjectId,
            (forall y, ~ reaches categories a (S k) y) ->
            forall j x, reaches categories a j x -> (j <= k)%nat).
  { intros _ Hnone j x Hr.
    destruct (Nat.le_gt_cases j k) as [Hle|Hgt]; [exact Hle|].
    exfalso. exact (@reaches_beyond (S k) j x Hnone Hgt Hr). }
  destruct (Nat.ltb 0 (List.length queue)) eqn:Hq.
  - destruct (depth_reached maxDepth (Z.of_nat k)) eqn:Hreached.
    + intros [= <-]. exists k. cbn [depth ids].
      split; [reflexivity|]. split; [lia|]. split; [exact Hids|].
      rewrite Hreached. discriminate.
    + destruct (Nat.eqb (List.length (findChildIds categories queue)) 0)
        eqn:Hchildren.
      * intros [= <-]. exists k. cbn [depth ids].
        split; [reflexivity|]. split; [lia|]. split; [exact Hids|].
        intros _. apply (Hdone acc).
        intros y Hy. apply (findChildIds_step _ Hqueue) in Hy.
        revert Hy. apply empty_list_no_member. right. exact Hchildren.
      * replace (Z.of_nat k + 1) with (Z.of_nat (S k)) by lia.
        intros Hrun.
        assert (Hids' :
          forall x, In x (acc ++ findChildIds categories queue)
                    <-> In x self
                        \/ exists j, (1 <= j <= S k)%nat
                                     /\ reaches categories a j x).
        { intros x. rewrite in_app_iff, Hids.
          rewrite (findChildIds_step _ Hqueue x). split.
          - intros [[H|(j & Hj & Hr)]|Hr]; auto.
            + right. exists j. split; [lia|exact Hr].
            + right. exists (S k). split; [lia|exact Hr].
          - intros [H|(j & Hj & Hr)]; auto.
            destruct (Nat.eq_dec j (S k)) as [->|Hne]; [right; exact Hr|].
            left. right. exists j. split; [lia|exact Hr]. }
        destruct (IH (acc ++ findChildIds categories queue)
                    (findChildIds categories queue) (S k) r
                    (findChildIds_step _ Hqueue) Hids' Hrun)
          as (n & Hdepth & Hle & Hall & Hcomplete).
        exists n. split; [exact Hdepth|]. split; [lia|]. auto.
  - intros [= <-]. exists k. cbn [depth ids].
    split; [reflexivity|]. split; [lia|]. split; [exact Hids|].
    intros _. apply (Hdone acc).
    intros y Hy. inversion Hy as [|k' c p _ _ Hp]; subst.
    apply Hqueue in Hp. revert Hp.
    apply empty_list_no_member. left. exact Hq.
Qed.

(** When some level is empty the loop ends before it, with or without
    [maxDepth]. *)
Lemma descend_ends (n : nat) (fuel : nat) :
  (forall x, ~ reaches categories a n x) ->
  forall acc queue (k : nat),
    (forall x, In x queue <-> reaches categories a k x) ->
    (k < n)%nat -> (n - k <= fuel)%nat ->
    exists r,
      descend fuel categories maxDepth acc queue (Z.of_nat k) = Some r
      /\ Z.of_nat k <= r.(depth) < Z.of_nat n.
Proof.
  intros Hempty.
  induction fuel as [|fuel IH]; intros acc queue k Hqueue Hk Hfuel; [lia|].
  cbn [descend].
  destruct (Nat.ltb 0 (List.length queue)).
  2:{ eexists. split; [reflexivity|]. cbn [depth]. lia. }
  destruct (depth_reached maxDepth (Z.of_nat k)).
  { eexists. split; [reflexivity|]. cbn [depth]. lia. }
  destruct (Nat.eqb (List.length (findChildIds categories queue)) 0)
    eqn:Hchildren.
  { eexists. split; [reflexivity|]. cbn [depth]. lia. }
  assert (Hnext : (S k < n)%nat).
  { destruct (Nat.eq_dec (S k) n) as [Heq|Hne]; [|lia].
    exfalso. subst n.
    destruct (findChildIds categories queue) as [|y l] eqn:Hc;
      [discriminate|].
    apply (Hempty y). apply (findChildIds_step _ Hqueue).
    rewrite Hc. left. reflexivity. }
  replace (Z.of_nat k + 1) with (Z.of_nat (S k)) by lia.
  destruct (IH (acc ++ findChildIds categories queue)
              (findChildIds categories queue) (S k)
              (findChildIds_step _ Hqueue) Hnext) as (r & Hr & Hd); [lia|].
  exists r. split; [exact Hr|lia].
Qed.

End ResolverFacts.

(** X9. Whenever [getDescendantCategoryIds] returns, on any collection
    of categories, the ids it returns are exactly the ancestor itself
    (when [includeSelf] is set) and the categories from which following
    [parentCategoryId] leads to the ancestor in at least one and at most
    [depth] steps, where [depth] counts the expansions made.  When the
    loop was not stopped by [maxDepth], no category is further away than
    that: the result holds every descendant. *)
Theorem resolver_returns_the_descendants (categories : list Category)
    (ancestorId : ObjectId) (maxDepth : option Js.Count) (includeSelf : bool)
    (fuel : nat) (r : Descendants) :
  getDescendantCategoryIds fuel categories ancestorId maxDepth includeSelf
  = Some r ->
  exists n : nat,
    r.(depth) = Z.of_nat n
    /\ (forall x,
          In x r.(ids)
          <-> (includeSelf = true /\ x = ancestorId)
              \/ exists j, (1 <= j <= n)%nat
                           /\ reaches categories ancestorId j x)
    /\ (depth_reached maxDepth r.(depth) = false ->
        forall j x, reaches categories ancestorId j x -> (j <= n)%nat).
Proof.
  unfold getDescendantCategoryIds. intros Hrun.
  destruct (@descend_spec categories ancestorId maxDepth
              (if includeSelf then [ancestorId] else []) fuel
              (if includeSelf then [ancestorId] else []) [ancestorId] 0%nat r)
    as (n & Hdepth & _ & Hall & Hcomplete).
  - intros x. apply (reaches_frontier categories ancestorId 0 x).
  - intros x. split; [auto|].
    intros [H|(j & Hj & _)]; [exact H|lia].
  - exact Hrun.
  - exists n. split; [exact Hdepth|]. split; [|exact Hcomplete].
    intros x. rewrite Hall.
    destruct includeSelf; simpl; intuition congruence.
Qed.

Lemma resolver_returns_the_descendants_witness :
  getDescendantCategoryIds 4 (chain 10 20 30 40) 10 None true
  = Some {| ids := [10; 20; 30; 40]; depth := 3 |}
  /\ exists n : nat,
       3 = Z.of_nat n
       /\ (forall x,
             In x [10; 20; 30; 40]
             <-> (true = true /\ x = 10)
                 \/ exists j, (1 <= j <= n)%nat
                              /\ reaches (chain 10 20 30 40) 10 j x)
       /\ (depth_reached None 3 = false ->
           forall j x, reaches (chain 10 20 30 40) 10 j x -> (j <= n)%nat).
Proof.
  assert (Hrun :
    getDescendantCategoryIds 4 (chain 10 20 30 40) 10 None true
    = Some {| ids := [10; 20; 30; 40]; depth := 3 |}) by reflexivity.
  split; [exact Hrun|].
  exact (@resolver_returns_the_descendants (chain 10 20 30 40) 10 None true 4
           {| ids := [10; 20; 30; 40]; depth := 3 |} Hrun).
Defined.

(** X10. On a collection in which no category is [n] steps below the
    ancestor, as in every tree of height less than [n], the resolver
    returns, with or without [maxDepth], after fewer than [n]
    expansions; [n] rounds of fuel are enough. *)
Theorem resolver_ends_on_a_finite_tree (categories : list Category)
    (ancestorId : ObjectId) (maxDepth : option Js.Count) (includeSelf : bool)
    (n fuel : nat) :
  (forall x, ~ reaches categories ancestorId n x) ->
  (n <= fuel)%nat ->
  exists r,
    getDescendantCategoryIds fuel categories ancestorId maxDepth includeSelf
    = Some r
    /\ 0 <= r.(depth) < Z.of_nat n.
Proof.
  intros Hempty Hfuel. unfold getDescendantCategoryIds.
  assert (Hn : (0 < n)%nat).
  { destruct n; [|lia]. exfalso. apply (Hempty ancestorId). constructor. }
  apply (@descend_ends categories ancestorId maxDepth n fuel Hempty
           (if includeSelf then [ancestorId] else []) [ancestorId] 0%nat).
  - intros x. apply (reaches_frontier categories ancestorId 0 x).
  - exact Hn.
  - lia.
Qed.

Lemma resolver_ends_on_a_finite_tree_witness :
  (forall x, ~ reaches (chain 10 20 30 40) 10 4 x)
  /\ exists r,
       getDescendantCategoryIds 4 (chain 10 20 30 40) 10 None false = Some r
       /\ 0 <= r.(depth) < 4.
Proof.
  assert (Hempty : forall x, ~ reaches (chain 10 20 30 40) 10 4 x).
  { intros x Hr. apply reaches_frontier in Hr. exact Hr. }
  split; [exact Hempty|].
  exact (@resolver_ends_on_a_finite_tree (chain 10 20 30 40) 10 None false
           4 4 Hempty (le_n 4)).
Defined.

(* ================================================================== *)
(** * Properties of the text helpers *)
(* ================================================================== *)

(** Escaping, then reading the pattern, gives back the text. *)
Lemma pattern_literal_escaped (l : list ascii) :
  pattern_literal
    (flat_map (fun c => if regex_special c then [Node.backslash; c] else [c])
       l)
  = Some l.
Proof.
  induction l as [|c l IH]; [reflexivity|].
  cbn [flat_map].
  destruct (regex_special c) eqn:Hc.
  - cbn [app pattern_literal].
    change (Z.eqb (Node.code Node.backslash) 92) with true. cbv iota.
    rewrite Hc, IH. reflexivity.
  - cbn [app pattern_literal]. rewrite Hc.
    destruct (Z.eqb_spec (Node.code c) 92) as [H92|_].
    + exfalso. unfold regex_special in Hc. rewrite H92 in Hc. discriminate.
    + rewrite IH. reflexivity.
Qed.

(** X11. What [escapeRegex] returns is a pattern without an unescaped
    syntax character, and the text that pattern matches literally is the
    input: a search text can never change the shape of the pattern it is
    put into.  The pattern is at most twice as long as the text. *)
Theorem escapeRegex_is_literal (value : string) :
  pattern_literal (Node.chars (escapeRegex value)) = Some (Node.chars value)
  /\ (List.length (Node.chars (escapeRegex value))
      <= 2 * List.length (Node.chars value))%nat.
Proof.
  unfold escapeRegex. rewrite chars_text.
  split; [apply pattern_literal_escaped|].
  induction (Node.chars value) as [|c l IH]; [apply le_n|].
  cbn [flat_map]. rewrite length_app.
  destruct (regex_special c); simpl in *; lia.
Qed.

Lemma split_on_nonempty (sep : ascii) (l : list ascii) :
  split_on sep l <> [].
Proof.
  destruct l as [|c r]; simpl; [discriminate|].
  destruct (Z.eqb _ _); [discriminate|].
  destruct (split_on sep r); discriminate.
Qed.

(** A text without separator is one piece. *)
Lemma split_on_free (sep : ascii) (l : list ascii) :
  free_of sep l = true -> split_on sep l = [l].
Proof.
  induction l as [|c r IH]; [reflexivity|].
  cbn [free_of forallb]. intros H. apply andb_true_iff in H.
  destruct H as [Hc Hr]. cbn [split_on].
  apply negb_true_iff in Hc. rewrite Hc.
  rewrite (IH Hr). reflexivity.
Qed.

(** Splitting at a separator splits the two sides. *)
Lemma split_on_app (sep : ascii) (l rest : list ascii) :
  split_on sep (l ++ sep :: rest) = split_on sep l ++ split_on sep rest.
Proof.
  induction l as [|c r IH]; cbn [app split_on].
  - rewrite Z.eqb_refl. reflexivity.
  - rewrite IH. destruct (Z.eqb (Node.code c) (Node.code sep));
      [reflexivity|].
    pose proof (@split_on_nonempty sep r) as Hne.
    destruct (split_on sep r) as [|piece pieces]; [contradiction|].
    reflexivity.
Qed.

Lemma last_of_app (l1 l2 : list (list ascii)) :
  l2 <> [] -> last (l1 ++ l2) [] = last l2 [].
Proof.
  intros Hne. induction l1 as [|x l1 IH]; [reflexivity|].
  cbn [app]. destruct (l1 ++ l2) as [|y r] eqn:Happ.
  - apply app_eq_nil in Happ. destruct Happ as [_ H2]. contradiction.
  - exact IH.
Qed.

Lemma free_of_pieces (sep : ascii) (l : list ascii) :
  Forall (fun piece => free_of sep piece = true) (split_on sep l).
Proof.
  induction l as [|c r IH]; cbn [split_on].
  - constructor; [reflexivity|constructor].
  - destruct (Z.eqb (Node.code c) (Node.code sep)) eqn:Hc.
    + constructor; [reflexivity|exact IH].
    + destruct (split_on sep r) as [|piece pieces].
      * constructor; [|constructor]. simpl. rewrite Hc. reflexivity.
      * inversion IH as [|? ? Hpiece Hrest]; subst.
        constructor; [|exact Hrest].
        simpl. rewrite Hc. exact Hpiece.
Qed.

(** A piece of a text free of [c] is free of [c]. *)
Lemma free_of_split (c sep : ascii) (l : list ascii) :
  free_of c l = true ->
  Forall (fun piece => free_of c piece = true) (split_on sep l).
Proof.
  induction l as [|x r IH]; cbn [split_on free_of forallb].
  - intros _. constructor; [reflexivity|constructor].
  - intros H. apply andb_true_iff in H. destruct H as [Hx Hr].
    specialize (IH Hr).
    destruct (Z.eqb (Node.code x) (Node.code sep)).
    + constructor; [reflexivity|exact IH].
    + destruct (split_on sep r) as [|piece pieces].
      * constructor; [|constructor]. simpl. rewrite Hx. reflexivity.
      * inversion IH as [|? ? Hpiece Hrest]; subst.
        constructor; [|exact Hrest].
        simpl. rewrite Hx. exact Hpiece.
Qed.

(** X12. The public id [getPublicIdFromUrl] derives from an image url
    never holds a slash or a dot; and from a url that ends in
    [/<id>.<extension>], where the id holds neither and the extension no
    slash, it is that id.  An empty url gives [null]. *)
Theorem public_id_of_an_image_url (url : string) :
  (forall publicId,
     getPublicIdFromUrl url = Some publicId ->
     free_of "/"%char (Node.chars publicId) = true
     /\ free_of "."%char (Node.chars publicId) = true)
  /\ (forall base id extension,
        free_of "/"%char id = true -> free_of "."%char id = true ->
        free_of "/"%char extension = true ->
        url = Node.text (base ++ "/"%char :: id ++ "."%char :: extension) ->
        getPublicIdFromUrl url = Some (Node.text id))
  /\ (getPublicIdFromUrl url = None <-> url = EmptyString).
Proof.
  split; [|split].
  - unfold getPublicIdFromUrl.
    destruct (string_nonempty url); [|discriminate]. cbn [negb].
    intros publicId [= <-]. rewrite chars_text.
    pose proof (free_of_pieces "/"%char (Node.chars url)) as Hparts.
    pose proof (@split_on_nonempty "/"%char (Node.chars url)) as Hne.
    assert (Hfile : free_of "/"%char
                      (last (split_on "/"%char (Node.chars url)) []) = true).
    { rewrite Forall_forall in Hparts. apply Hparts.
      destruct (split_on "/"%char (Node.chars url)) as [|x l] eqn:Hs;
        [contradiction|].
      rewrite <- Hs at 2. rewrite Hs. clear.
      revert x. induction l as [|y l IH]; intros x; [left; reflexivity|].
      right. apply IH. }
    set (fileName := last (split_on "/"%char (Node.chars url)) []) in *.
    pose proof (free_of_pieces "."%char fileName) as Hdots.
    pose proof (@free_of_split "/"%char "."%char fileName Hfile) as Hslashes.
    destruct (split_on "."%char fileName) as [|x l];
      [split; reflexivity|].
    inversion Hdots; subst. inversion Hslashes; subst. auto.
  - intros base id extension Hid1 Hid2 Hext ->.
    unfold getPublicIdFromUrl.
    assert (Hne : string_nonempty
                    (Node.text (base ++ "/"%char :: id ++ "."%char :: extension))
                  = true).
    { destruct base; reflexivity. }
    rewrite Hne. cbn [negb]. rewrite chars_text.
    rewrite split_on_app.
    assert (Hfree : free_of "/"%char (id ++ "."%char :: extension) = true).
    { unfold free_of in *. rewrite forallb_app. cbn [forallb].
      rewrite Hid1, Hext. reflexivity. }
    rewrite last_of_app by (apply split_on_nonempty).
    rewrite (split_on_free _ _ Hfree). cbn [last].
    rewrite split_on_app. rewrite (split_on_free _ _ Hid2).
    reflexivity.
  - unfold getPublicIdFromUrl. destruct url; simpl; split;
      intros H; try reflexivity; discriminate.
Qed.

Lemma public_id_of_an_image_url_witness :
  getPublicIdFromUrl
    "https://res.cloudinary.com/demo/image/upload/v1700000000/products/category_1700000000000_k3j9x2lq0.jpg"
  = Some "category_1700000000000_k3j9x2lq0".
Proof.
  exact (proj1 (proj2 (public_id_of_an_image_url
    "https://res.cloudinary.com/demo/image/upload/v1700000000/products/category_1700000000000_k3j9x2lq0.jpg"))
    (Node.chars
       "https://res.cloudinary.com/demo/image/upload/v1700000000/products")
    (Node.chars "category_1700000000000_k3j9x2lq0")
    (Node.chars "jpg") eq_refl eq_refl eq_refl eq_refl).
Defined.

(* ================================================================== *)
(** * Properties of [trim] and [normalizeArray] *)
(* ================================================================== *)

Lemma after_bytes_app (bytes : list Z) (l r t : list ascii) :
  Text.after_bytes bytes l = Some r ->
  Text.after_bytes bytes (l ++ t) = Some (r ++ t).
Proof.
  revert l. induction bytes as [|b bs IH]; intros l; simpl.
  - intros [= <-]. reflexivity.
  - destruct l as [|c l]; [discriminate|]. simpl.
    destruct (Z.eqb (Node.code c) b); [apply IH|discriminate].
Qed.

Lemma after_one_app (seqs : list (list Z)) (l r t : list ascii) :
  Text.after_one seqs l = Some r ->
  Text.after_one seqs (l ++ t) <> None.
Proof.
  induction seqs as [|bytes rest IH]; simpl; [discriminate|].
  destruct (Text.after_bytes bytes l) as [r'|] eqn:Hb.
  - intros _. rewrite (after_bytes_app _ _ t Hb). discriminate.
  - intros Hrest. destruct (Text.after_bytes bytes (l ++ t)); [discriminate|].
    apply IH. exact Hrest.
Qed.

(** What is left after some bytes is a proper end of the text. *)
Lemma after_bytes_suffix (bytes : list Z) (l r : list ascii) :
  Text.after_bytes bytes l = Some r ->
  exists pre, l = pre ++ r /\ List.length pre = List.length bytes.
Proof.
  revert l. induction bytes as [|b bs IH]; intros l; simpl.
  - intros [= <-]. exists []. auto.
  - destruct l as [|c l]; [discriminate|].
    destruct (Z.eqb (Node.code c) b); [|discriminate].
    intros H. destruct (IH _ H) as (pre & -> & Hlen).
    exists (c :: pre). simpl. auto.
Qed.

Lemma after_one_suffix (seqs : list (list Z)) (l r : list ascii) :
  Forall (fun bytes => bytes <> []) seqs ->
  Text.after_one seqs l = Some r ->
  exists pre, l = pre ++ r /\ pre <> [].
Proof.
  induction seqs as [|bytes rest IH]; simpl; intros Hne; [discriminate|].
  inversion Hne as [|? ? Hb Hrest]; subst.
  destruct (Text.after_bytes bytes l) as [r'|] eqn:Hab.
  - intros [= <-]. destruct (after_bytes_suffix _ _ Hab) as (pre & -> & Hlen).
    exists pre. split; [reflexivity|].
    intros ->. destruct bytes; [contradiction|discriminate].
  - apply IH. exact Hrest.
Qed.

Lemma drop_all_suffix (seqs : list (list Z)) (fuel : nat) (l : list ascii) :
  exists pre, l = pre ++ Text.drop_all seqs fuel l.
Proof.
  revert l. induction fuel as [|f IH]; intros l; simpl; [exists []; reflexivity|].
  destruct (Text.after_one seqs l) as [r|] eqn:Hone; [|exists []; reflexivity].
  assert (Hsuf : exists pre, l = pre ++ r).
  { clear - Hone. induction seqs as [|bytes rest IHs]; simpl in Hone;
      [discriminate|].
    destruct (Text.after_bytes bytes l) as [r'|] eqn:Hab.
    - inversion Hone; subst.
      destruct (after_bytes_suffix _ _ Hab) as (pre & -> & _). eauto.
    - apply IHs. exact Hone. }
  destruct Hsuf as (pre & ->). destruct (IH r) as (pre' & Hr).
  exists (pre ++ pre'). rewrite <- app_assoc, <- Hr. reflexivity.
Qed.

(** With fuel for every byte, nothing is left to drop. *)
Lemma drop_all_done (seqs : list (list Z)) (fuel : nat) (l : list ascii) :
  Forall (fun bytes => bytes <> []) seqs ->
  (List.length l <= fuel)%nat ->
  Text.after_one seqs (Text.drop_all seqs fuel l) = None.
Proof.
  intros Hne. revert l. induction fuel as [|f IH]; intros l Hlen; simpl.
  - destruct l; [|simpl in Hlen; lia].
    destruct (Text.after_one seqs []) as [r|] eqn:Hone; [|reflexivity].
    destruct (after_one_suffix _ Hne Hone) as (pre & Hsplit & Hpre).
    destruct pre; [contradiction|discriminate].
  - destruct (Text.after_one seqs l) as [r|] eqn:Hone; [|exact Hone].
    apply IH.
    destruct (after_one_suffix _ Hne Hone) as (pre & -> & Hpre).
    rewrite length_app in Hlen. destruct pre; [contradiction|].
    simpl in Hlen. lia.
Qed.

Lemma drop_all_fixed (seqs : list (list Z)) (fuel : nat) (l : list ascii) :
  Text.after_one seqs l = None -> Text.drop_all seqs fuel l = l.
Proof.
  intros Hnone. destruct fuel; simpl; [reflexivity|].
  rewrite Hnone. reflexivity.
Qed.

Lemma spaces_nonempty : Forall (fun bytes => bytes <> []) Text.spaces.
Proof. repeat (constructor; [discriminate|]). constructor. Qed.

Lemma rev_spaces_nonempty :
  Forall (fun bytes => bytes <> []) (map (@rev Z) Text.spaces).
Proof. repeat (constructor; [discriminate|]). constructor. Qed.

(** A text [trim] has been through has no white space at either end. *)
Lemma trim_ends (l : list ascii) :
  let t := Text.trimEnd (Text.trimStart l) in
  Text.after_one Text.spaces t = None
  /\ Text.after_one (map (@rev Z) Text.spaces) (rev t) = None.
Proof.
  cbv zeta. unfold Text.trimEnd.
  set (l1 := Text.trimStart l).
  assert (Hstart : Text.after_one Text.spaces l1 = None).
  { apply drop_all_done; [apply spaces_nonempty|lia]. }
  split.
  - destruct (drop_all_suffix (map (@rev Z) Text.spaces) (List.length l1)
                (rev l1)) as (pre & Hsplit).
    set (l2 := Text.drop_all (map (@rev Z) Text.spaces) (List.length l1)
                 (rev l1)) in *.
    assert (Hl1 : l1 = rev l2 ++ rev pre).
    { rewrite <- rev_app_distr, <- Hsplit, rev_involutive. reflexivity. }
    destruct (Text.after_one Text.spaces (rev l2)) as [r|] eqn:Hone;
      [|reflexivity].
    exfalso. apply (after_one_app _ _ (rev pre) Hone).
    rewrite <- Hl1. exact Hstart.
  - rewrite rev_involutive.
    apply drop_all_done; [apply rev_spaces_nonempty|].
    rewrite length_rev. lia.
Qed.

Lemma trim_idempotent (s : string) : Text.trim (Text.trim s) = Text.trim s.
Proof.
  unfold Text.trim. rewrite chars_text. f_equal.
  destruct (trim_ends (Node.chars s)) as [Hstart Hend].
  set (t := Text.trimEnd (Text.trimStart (Node.chars s))) in *.
  unfold Text.trimStart. rewrite (@drop_all_fixed _ _ _ Hstart).
  unfold Text.trimEnd. rewrite (@drop_all_fixed _ _ _ Hend).
  apply rev_involutive.
Qed.

Lemma free_of_suffix (c : ascii) (pre l : list ascii) :
  free_of c (pre ++ l) = true -> free_of c l = true.
Proof.
  unfold free_of. rewrite forallb_app. intros H.
  apply andb_true_iff in H. tauto.
Qed.

Lemma free_of_rev (c : ascii) (l : list ascii) :
  free_of c (rev l) = free_of c l.
Proof.
  unfold free_of. induction l as [|x l IH]; [reflexivity|].
  simpl. rewrite forallb_app, IH. simpl.
  rewrite andb_true_r. apply andb_comm.
Qed.

Lemma free_of_trim (c : ascii) (l : list ascii) :
  free_of c l = true ->
  free_of c (Text.trimEnd (Text.trimStart l)) = true.
Proof.
  intros Hfree. unfold Text.trimEnd, Text.trimStart.
  rewrite free_of_rev.
  match goal with
  | |- free_of c (Text.drop_all ?seqs ?n ?x) = true =>
      destruct (drop_all_suffix seqs n x) as (pre & Hsplit);
      apply (free_of_suffix c pre); rewrite <- Hsplit
  end.
  rewrite free_of_rev.
  match goal with
  | |- free_of c (Text.drop_all ?seqs ?n ?x) = true =>
      destruct (drop_all_suffix seqs n x) as (pre' & Hsplit');
      apply (free_of_suffix c pre'); rewrite <- Hsplit'
  end.
  exact Hfree.
Qed.

Lemma split_join (sep : ascii) (items : list string) :
  items <> [] ->
  Forall (fun item => free_of sep (Node.chars item) = true) items ->
  split_on sep (join_with sep items) = map Node.chars items.
Proof.
  induction items as [|item rest IH]; intros Hne Hfree; [contradiction|].
  inversion Hfree as [|? ? Hitem Hrest]; subst.
  destruct rest as [|item2 rest].
  - simpl. apply split_on_free. exact Hitem.
  - change (join_with sep (item :: item2 :: rest))
      with (Node.chars item ++ sep :: join_with sep (item2 :: rest)).
    rewrite split_on_app, (split_on_free _ _ Hitem).
    rewrite IH by (discriminate || exact Hrest). reflexivity.
Qed.

(** X13. From a text, [normalizeArray] makes an array of texts that are
    not empty, have no white space at either end and hold no comma; and
    it gives back, one for one and in order, any such texts joined with
    commas.  An array passes through unchanged, and anything else gives
    [undefined]. *)
Theorem normalizeArray_cleans_a_comma_list (value : Js.Value) :
  (forall s, value = Str s ->
     exists items,
       normalizeArray value = Arr (map Str items)
       /\ Forall clean_item items)
  /\ (forall items,
        Forall clean_item items ->
        value = Str (Node.text (join_with ","%char items)) ->
        normalizeArray value = Arr (map Str items))
  /\ (forall items, value = Arr items -> normalizeArray value = value)
  /\ (match value with Str _ | Arr _ => True | _ => False end
      \/ normalizeArray value = Undefined).
Proof.
  split; [|split; [|split]].
  - intros s ->. eexists. split; [reflexivity|].
    apply Forall_forall. intros item Hin.
    apply filter_In in Hin. destruct Hin as [Hin Hne].
    apply in_map_iff in Hin. destruct Hin as (piece & <- & Hpiece).
    split; [exact Hne|]. split; [apply trim_idempotent|].
    unfold Text.trim. rewrite !chars_text. apply free_of_trim.
    pose proof (free_of_pieces ","%char (Node.chars s)) as Hall.
    rewrite Forall_forall in Hall. apply Hall. exact Hpiece.
  - intros items Hclean ->. unfold normalizeArray. rewrite chars_text.
    do 2 f_equal.
    destruct items as [|item rest]; [reflexivity|].
    rewrite split_join.
    + rewrite map_map.
      induction Hclean as [|x l (Hne & Htrim & _) _ IH]; [reflexivity|].
      cbn [map filter]. rewrite text_chars, Htrim, Hne, IH. reflexivity.
    + discriminate.
    + eapply Forall_impl; [|exact Hclean]. intros x (_ & _ & Hx). exact Hx.
  - intros items ->. reflexivity.
  - destruct value; auto.
Qed.

Lemma normalizeArray_cleans_a_comma_list_witness :
  normalizeArray (Str " 8GB, ,16GB ,")
  = Arr [Str "8GB"; Str "16GB"]
  /\ normalizeArray (Str "8GB,16GB") = Arr [Str "8GB"; Str "16GB"]
  /\ normalizeArray (Str EmptyString) = Arr [].
Proof.
  split; [reflexivity|]. split; [|reflexivity].
  apply (proj1 (proj2 (normalizeArray_cleans_a_comma_list
                         (Str "8GB,16GB"))) ["8GB"; "16GB"]).
  - repeat constructor.
  - reflexivity.
Defined.

(* ================================================================== *)
(** * Properties of the removal of an image and of a product *)
(* ================================================================== *)

Module ImagesFacts.

Import Images.

Lemma filter_all_same (url : string) (imgs : list string) :
  (forall img, In img imgs -> img = url) ->
  filter (fun img => negb (String.eqb img url)) imgs = [].
Proof.
  intros Hall. induction imgs as [|img imgs IH]; [reflexivity|].
  cbn [filter]. rewrite (Hall img (or_introl eq_refl)), String.eqb_refl.
  apply IH. intros x Hx. apply Hall. right. exact Hx.
Qed.

(** X14. [deleteProductImage] never leaves a product without an image.
    When it succeeds, the product had at least two images, the named url
    among them; the stored product now has the images that differ from
    that url, in their order, and at least one; the other products are
    as before.  When it refuses with an [ApiError], nothing has
    happened.  When every image of the product is the named url, the
    validator of the model refuses the empty list: the request fails and
    the stored product keeps its images, although the asset has already
    been asked to be destroyed. *)
Theorem deleteProductImage_keeps_an_image (P : Platform)
    (body_productId query_productId body_imageUrl query_imageUrl : Js.Value)
    (s : Catalogue) :
  let out :=
    deleteProductImage P body_productId query_productId body_imageUrl
      query_imageUrl s in
  match fst out with
  | Ok resp =>
      exists product url,
        or_else body_imageUrl query_imageUrl = Str url
        /\ List.find (fun p => Z.eqb p.(product_id) resp.(data).(product_id))
             s.(products) = Some product
        /\ In url product.(images)
        /\ (2 <= List.length product.(images))%nat
        /\ resp.(data).(images)
           = filter (fun img => negb (String.eqb img url)) product.(images)
        /\ resp.(data).(images) <> []
        /\ (snd out).(products)
           = map (fun p => if Z.eqb p.(product_id) resp.(data).(product_id)
                           then resp.(data) else p) s.(products)
  | Throw (ApiError _ _) => snd out = s
  | Throw _ => (snd out).(products) = s.(products)
  end
  /\ (forall pid product url publicId,
        truthy (or_else body_productId query_productId) = true ->
        P.(isValidObjectId) (or_else body_productId query_productId) = true ->
        P.(ObjectId_new) (or_else body_productId query_productId)
        = Returns pid ->
        List.find (fun p => Z.eqb p.(product_id) pid) s.(products)
        = Some product ->
        or_else body_imageUrl query_imageUrl = Str url ->
        string_nonempty url = true ->
        (2 <= List.length product.(images))%nat ->
        (forall img, In img product.(images) -> img = url) ->
        getPublicIdFromUrl url = Some publicId ->
        string_nonempty publicId = true ->
        out = (Throw (JsError "ValidationError"),
               {| products := s.(products);
                  destroy_requests :=
                    s.(destroy_requests)
                    ++ [("products/" ++ publicId)%string] |})).
Proof.
  cbv zeta. unfold deleteProductImage.
  set (productId := or_else body_productId query_productId).
  set (imageUrl := or_else body_imageUrl query_imageUrl).
  split.
  - destruct (negb (truthy productId) || negb (truthy imageUrl));
      [reflexivity|].
    destruct (negb (P.(isValidObjectId) productId)); [reflexivity|].
    unfold call.
    destruct (P.(ObjectId_new) productId) as [pid|name]; [|reflexivity].
    destruct (List.find _ (products s)) as [product|] eqn:Hfind;
      [|reflexivity].
    destruct (Nat.eqb (List.length (images product)) 0); [reflexivity|].
    destruct (includes (images product) imageUrl) eqn:Hinc; cbn [negb];
      [|reflexivity].
    destruct (Nat.leb_spec (List.length (images product)) 1) as [Hle|Hgt];
      [reflexivity|].
    unfold includes in Hinc.
    destruct imageUrl as [| | | |url| |] eqn:Hurl; try discriminate.
    apply existsb_exists in Hinc. destruct Hinc as (img & Himg & Heq).
    apply String.eqb_eq in Heq. subst img.
    set (s1 := match getPublicIdFromUrl url with
               | Some publicId =>
                   if string_nonempty publicId
                   then deleteFromCloudinary publicId "products" s
                   else s
               | None => s
               end).
    assert (Hs1 : products s1 = products s).
    { unfold s1. destruct (getPublicIdFromUrl url) as [publicId|];
        [|reflexivity].
      destruct (string_nonempty publicId); reflexivity. }
    unfold Product_save, differs.
    destruct (images_valid _) eqn:Hvalid; cbn [fst snd].
    + pose proof (find_some _ _ Hfind) as [_ Hpid]. apply Z.eqb_eq in Hpid.
      cbn [data product_id images products].
      exists product, url. rewrite Hs1. rewrite <- Hpid in Hfind.
      repeat split; auto; try lia.
      intros Hnil. rewrite Hnil in Hvalid. discriminate.
    + exact Hs1.
  - intros pid product url publicId Htruthy Hvalid Hcast Hfind Hurl Hne Hlen
      Hall Hpublic Hpne.
    rewrite Htruthy, Hurl. cbn [truthy]. rewrite Hne, Hvalid. cbn [negb orb].
    unfold call. rewrite Hcast, Hfind.
    destruct (Nat.eqb_spec (List.length (images product)) 0) as [H0|_];
      [lia|].
    assert (Hinc : includes (images product) (Str url) = true).
    { unfold includes. apply existsb_exists.
      destruct (images product) as [|img imgs] eqn:Himgs;
        [simpl in Hlen; lia|].
      exists img. split; [left; reflexivity|].
      rewrite (Hall img (or_introl eq_refl)). apply String.eqb_refl. }
    rewrite Hinc. cbn [negb].
    destruct (Nat.leb_spec (List.length (images product)) 1) as [Hle|_];
      [lia|].
    rewrite Hpublic, Hpne. unfold Product_save, differs.
    rewrite (filter_all_same _ Hall). reflexivity.
Qed.

Lemma deleteProductImage_keeps_an_image_witness :
  deleteProductImage Node.platform (Str "000000000000000000000007") Undefined
    (Str "https://cdn.example/products/a1.jpg") Undefined
    twice_the_same_image
  = (Throw (JsError "ValidationError"),
     {| products := twice_the_same_image.(products);
        destroy_requests := ["products/a1"] |}).
Proof.
  assert (Hall : forall img,
            In img [ "https://cdn.example/products/a1.jpg";
                     "https://cdn.example/products/a1.jpg" ] ->
            img = "https://cdn.example/products/a1.jpg").
  { intros img [<-|[<-|[]]]; reflexivity. }
  exact (proj2 (deleteProductImage_keeps_an_image Node.platform
                  (Str "000000000000000000000007") Undefined
                  (Str "https://cdn.example/products/a1.jpg") Undefined
                  twice_the_same_image)
           7
           {| product_id := 7;
              images := [ "https://cdn.example/products/a1.jpg";
                          "https://cdn.example/products/a1.jpg" ] |}
           "https://cdn.example/products/a1.jpg" "a1"
           eq_refl eq_refl eq_refl eq_refl eq_refl eq_refl (le_n 2) Hall
           eq_refl eq_refl).
Defined.

(** The assets asked for while the images of a product are walked. *)
Lemma destroy_walk (imgs : list string) (s : Catalogue) :
  fold_left
    (fun acc imageUrl =>
       match getPublicIdFromUrl imageUrl with
       | Some publicId =>
           if string_nonempty publicId
           then deleteFromCloudinary publicId "products" acc
           else acc
       | None => acc
       end) imgs s
  = {| products := s.(products);
       destroy_requests :=
         s.(destroy_requests)
         ++ flat_map
              (fun imageUrl =>
                 match getPublicIdFromUrl imageUrl with
                 | Some publicId =>
                     if string_nonempty publicId
                     then [("products/" ++ publicId)%string]
                     else []
                 | None => []
                 end) imgs |}.
Proof.
  revert s. induction imgs as [|img imgs IH]; intros s.
  - cbn [fold_left flat_map]. rewrite app_nil_r. destruct s; reflexivity.
  - cbn [fold_left flat_map]. rewrite IH.
    destruct (getPublicIdFromUrl img) as [publicId|];
      [destruct (string_nonempty publicId)|];
      cbn [deleteFromCloudinary products destroy_requests app];
      try reflexivity.
    rewrite <- app_assoc. reflexivity.
Qed.

Lemma remove_product_found (pid : ObjectId) (l : list ProductDoc)
    (product : ProductDoc) :
  List.find (fun p => Z.eqb p.(product_id) pid) l = Some product ->
  exists pre suf,
    l = pre ++ product :: suf
    /\ (forall p, In p pre -> p.(product_id) <> pid)
    /\ remove_product pid l = pre ++ suf.
Proof.
  induction l as [|p l IH]; [discriminate|].
  cbn [List.find remove_product].
  destruct (Z.eqb_spec (product_id p) pid) as [Heq|Hne].
  - intros [= ->]. exists [], l. repeat split. intros q [].
  - intros Hfind. destruct (IH Hfind) as (pre & suf & -> & Hpre & Hrem).
    exists (p :: pre), suf. rewrite Hrem. repeat split.
    intros q [<-|Hq]; [exact Hne|exact (Hpre q Hq)].
Qed.

(** X19. [deleteProduct] removes the product the id names and nothing
    else.  When it succeeds, the product was the first with that id; the
    products before and after it stay, in their order; and one asset has
    been asked to be destroyed, in folder [products], for each image of
    the product whose public id is not empty, in the order of the
    images.  When it fails, nothing has been removed and nothing asked
    for. *)
Theorem deleteProduct_removes_one_product (P : Platform) (id : Js.Value)
    (s : Catalogue) :
  let out := deleteProduct P id s in
  match fst out with
  | Ok resp =>
      resp = {| deleted_status := 200;
                deleted_message := "Product deleted successfully" |}
      /\ exists pid product pre suf,
           P.(isValidObjectId) id = true
           /\ P.(ObjectId_new) id = Returns pid
           /\ product.(product_id) = pid
           /\ s.(products) = pre ++ product :: suf
           /\ (forall p, In p pre -> p.(product_id) <> pid)
           /\ (snd out).(products) = pre ++ suf
           /\ (snd out).(destroy_requests)
              = s.(destroy_requests)
                ++ flat_map
                     (fun imageUrl =>
                        match getPublicIdFromUrl imageUrl with
                        | Some publicId =>
                            if string_nonempty publicId
                            then [("products/" ++ publicId)%string]
                            else []
                        | None => []
                        end) product.(images)
  | Throw _ => snd out = s
  end.
Proof.
  cbv zeta. unfold deleteProduct.
  destruct (P.(isValidObjectId) id) eqn:Hvalid; cbn [negb]; [|reflexivity].
  unfold call.
  destruct (P.(ObjectId_new) id) as [pid|name] eqn:Hcast; [|reflexivity].
  destruct (List.find _ (products s)) as [product|] eqn:Hfind;
    [|reflexivity].
  cbn [fst snd]. split; [reflexivity|].
  rewrite destroy_walk. unfold Product_findByIdAndDelete.
  cbn [products destroy_requests].
  destruct (remove_product_found _ _ Hfind) as (pre & suf & Hl & Hpre & Hrem).
  pose proof (find_some _ _ Hfind) as [_ Hpid]. apply Z.eqb_eq in Hpid.
  exists pid, product, pre, suf. rewrite Hrem. repeat split; auto.
Qed.

End ImagesFacts.

(* ================================================================== *)
(** * Properties of the filter of a product listing *)
(* ================================================================== *)

Module CatalogFacts.

Import Catalog.

(** The category condition [buildProductQuery] sets. *)
Lemma buildProductQuery_category (args : FilterArgs) (pq : ProductQuery) :
  buildProductQuery args = Ok pq ->
  pq.(category)
  = match args.(arg_categoryIds) with
    | Some (id :: ids) => Some (CategoryIn (id :: ids))
    | _ =>
        if truthy_id args.(arg_categoryId)
        then Some (CategoryIs args.(arg_categoryId))
        else None
    end.
Proof.
  unfold buildProductQuery.
  destruct (truthy (arg_search args)).
  - destruct (arg_search args); try discriminate.
    intros [= <-]. reflexivity.
  - intros [= <-]. reflexivity.
Qed.

(** X15. The category filter of an ancestor listing.  When a request
    names an ancestor, by id or by name, and [listProducts] gets as far
    as its filter, the filter's condition on [category] is membership in
    exactly this set: the ancestor itself, unless [includeSelf] is
    ['false'], and the categories from which [parentCategoryId] leads to
    the ancestor in at least one and at most [n] steps, [n] being the
    expansions made; without [maxDepth] no category is further away.
    When that set is empty, as for a category without children and
    [includeSelf=false], the filter has no condition on [category] at
    all: the listing is not narrowed. *)
Theorem ancestor_filter_is_the_descendant_set (P : Platform)
    (categories : list Category) (byName : string -> option ObjectId)
    (fuel : nat) (over : Overrides) (q : Params) (pq : ProductQuery) :
  let ancestorCategoryId :=
    coalesce over.(over_ancestorCategoryId) q.(ancestorCategoryId) in
  let ancestorCategoryName :=
    coalesce over.(over_ancestorCategoryName) q.(ancestorCategoryName) in
  truthy ancestorCategoryId || truthy ancestorCategoryName = true ->
  requestQuery P categories byName fuel over q = Some (Ok pq) ->
  exists (a : ObjectId) (n : nat),
    (if truthy ancestorCategoryName
     then findCategoryIdByName byName ancestorCategoryName = Ok a
     else P.(ObjectId_new) ancestorCategoryId = Returns a)
    /\ (parsePositiveInt P q.(maxDepth) "maxDepth" = Ok None ->
        forall j x, reaches categories a j x -> (j <= n)%nat)
    /\ let wanted x :=
         (is_string q.(includeSelf) "false" = false /\ x = a)
         \/ exists j, (1 <= j <= n)%nat /\ reaches categories a j x in
       match pq.(category) with
       | Some (CategoryIn ids) => forall x, In x ids <-> wanted x
       | Some (CategoryIs _) => False
       | None => forall x, ~ wanted x
       end.
Proof.
  cbv zeta. intros Hancestor. unfold requestQuery.
  set (categoryId := coalesce_id over.(over_categoryId) q.(categoryId)).
  set (ancestorCategoryId :=
         coalesce over.(over_ancestorCategoryId) q.(ancestorCategoryId)) in *.
  set (ancestorCategoryName :=
         coalesce over.(over_ancestorCategoryName) q.(ancestorCategoryName))
    in *.
  rewrite Hancestor, andb_true_r.
  destruct (truthy_id categoryId) eqn:Hcat; [discriminate|].
  destruct (if truthy ancestorCategoryId
            then validateObjectId P (IdValue ancestorCategoryId)
                   "Invalid ancestor category id"
            else Ok tt) as [[]|e]; [|discriminate].
  (* the resolver's result, on either path *)
  assert (Hdesc : forall ancestor cids,
            option_map (fun r => x <- r ;; Ok (Some x))
              (descendantsOf P categories fuel q ancestor)
            = Some (Ok cids) ->
            exists a n l,
              cast_id P ancestor = Ok a /\ cids = Some l
              /\ (parsePositiveInt P q.(maxDepth) "maxDepth" = Ok None ->
                  forall j x, reaches categories a j x -> (j <= n)%nat)
              /\ forall x,
                   In x l
                   <-> (is_string q.(includeSelf) "false" = false /\ x = a)
                       \/ exists j, (1 <= j <= n)%nat
                                    /\ reaches categories a j x).
  { intros ancestor cids. unfold descendantsOf.
    destruct (parsePositiveInt P q.(maxDepth) "maxDepth") as [maxDepth|e];
      [|discriminate].
    destruct (cast_id P ancestor) as [a|e]; [|discriminate].
    destruct (getDescendantCategoryIds fuel categories a maxDepth _)
      as [r|] eqn:Hrun; [|discriminate].
    cbn [option_map Js.bind]. intros [= <-].
    unfold getDescendantCategoryIds in Hrun.
    destruct (@descend_spec categories a maxDepth
                (if negb (is_string q.(includeSelf) "false") then [a] else [])
                fuel
                (if negb (is_string q.(includeSelf) "false") then [a] else [])
                [a] 0%nat r)
      as (n & Hdepth & _ & Hall & Hcomplete).
    - intros x. apply (reaches_frontier categories a 0 x).
    - intros x. split; [auto|]. intros [H|(j & Hj & _)]; [exact H|lia].
    - exact Hrun.
    - exists a, n, (ids r). split; [reflexivity|]. split; [reflexivity|].
      split.
      + intros [= ->]. apply Hcomplete. reflexivity.
      + intros x. rewrite Hall.
        destruct (is_string q.(includeSelf) "false"); simpl;
          intuition congruence. }
  assert (Hfinish : forall a n l,
            (forall x,
               In x l
               <-> (is_string q.(includeSelf) "false" = false /\ x = a)
                   \/ exists j, (1 <= j <= n)%nat
                                /\ reaches categories a j x) ->
            forall r : Result ProductQuery,
              (exists args, r = buildProductQuery args
                            /\ arg_categoryId args = categoryId
                            /\ arg_categoryIds args = Some l)
              \/ (exists e, r = Throw e) ->
              r = Ok pq ->
              match pq.(category) with
              | Some (CategoryIn ids) =>
                  forall x,
                    In x ids
                    <-> (is_string q.(includeSelf) "false" = false /\ x = a)
                        \/ exists j, (1 <= j <= n)%nat
                                     /\ reaches categories a j x
              | Some (CategoryIs _) => False
              | None =>
                  forall x,
                    ~ ((is_string q.(includeSelf) "false" = false /\ x = a)
                       \/ exists j, (1 <= j <= n)%nat
                                    /\ reaches categories a j x)
              end).
  { intros a n l Hl r [(args & -> & Hid & Hids)|(e & ->)] Hok;
      [|discriminate].
    rewrite (buildProductQuery_category _ Hok), Hid, Hids, Hcat.
    destruct l as [|id ids]; [|exact Hl].
    intros x Hx. apply Hl in Hx. exact Hx. }
  assert (Hshape : forall cids l,
            cids = Some l ->
            forall r : Result ProductQuery,
              r = (minPrice <-
                     parseNumber P
                       (coalesce over.(over_minPrice) q.(minPrice))
                       "minPrice" ;;
                   maxPrice <-
                     parseNumber P
                       (coalesce over.(over_maxPrice) q.(maxPrice))
                       "maxPrice" ;;
                   minRating <-
                     parseNumber P
                       (coalesce over.(over_minRating) q.(minRating))
                       "minRating" ;;
                   buildProductQuery
                     {| arg_categoryId := categoryId;
                        arg_categoryIds := cids;
                        arg_minPrice := minPrice;
                        arg_maxPrice := maxPrice;
                        arg_minRating := minRating;
                        arg_featured :=
                          coalesce over.(over_featured) q.(featured);
                        arg_search :=
                          coalesce over.(over_search) q.(search) |}) ->
              (exists args, r = buildProductQuery args
                            /\ arg_categoryId args = categoryId
                            /\ arg_categoryIds args = Some l)
              \/ (exists e, r = Throw e)).
  { intros cids l -> r ->.
    destruct (parseNumber P _ "minPrice") as [lo|e]; [|right; eexists; reflexivity].
    destruct (parseNumber P _ "maxPrice") as [hi|e]; [|right; eexists; reflexivity].
    destruct (parseNumber P _ "minRating") as [rt|e]; [|right; eexists; reflexivity].
    left. eexists. split; [reflexivity|]. split; reflexivity. }
  destruct (truthy ancestorCategoryName) eqn:Hname.
  - destruct (findCategoryIdByName byName ancestorCategoryName)
      as [resolvedId|e] eqn:Hfound; [|discriminate].
    destruct (option_map _ (descendantsOf P categories fuel q
                              (IdObject resolvedId)))
      as [[cids|e]|] eqn:Hd; try discriminate.
    destruct (Hdesc _ _ Hd) as (a & n & l & Hcast & Hcids & Hcomplete & Hl).
    cbn [cast_id] in Hcast. injection Hcast as <-.
    intros [= Hok]. exists resolvedId, n.
    split; [reflexivity|]. split; [exact Hcomplete|].
    eapply Hfinish; [exact Hl| |exact Hok].
    eapply Hshape; [exact Hcids|reflexivity].
  - rewrite orb_false_r in Hancestor. rewrite Hancestor.
    destruct (option_map _ (descendantsOf P categories fuel q
                              (IdValue ancestorCategoryId)))
      as [[cids|e]|] eqn:Hd; try discriminate.
    destruct (Hdesc _ _ Hd) as (a & n & l & Hcast & Hcids & Hcomplete & Hl).
    cbn [cast_id] in Hcast. unfold call in Hcast.
    destruct (P.(ObjectId_new) ancestorCategoryId) as [a'|name] eqn:Ha;
      [|discriminate].
    injection Hcast as <-.
    intros [= Hok]. exists a', n.
    split; [reflexivity|]. split; [exact Hcomplete|].
    eapply Hfinish; [exact Hl| |exact Hok].
    eapply Hshape; [exact Hcids|reflexivity].
Qed.

Lemma ancestor_filter_is_the_descendant_set_witness :
  requestQuery Node.platform (chain 10 20 30 40) (fun _ => None) 2
    no_overrides below_the_leaf
  = Some (Ok no_condition)
  /\ exists (a : ObjectId) (n : nat),
       Node.ObjectId_new (Str "000000000000000000000028") = Returns a
       /\ forall x,
            ~ ((false = false /\ x = a) /\ False
               \/ (is_string (Str "false") "false" = false /\ x = a)
               \/ exists j, (1 <= j <= n)%nat
                            /\ reaches (chain 10 20 30 40) a j x).
Proof.
  assert (Hrun :
    requestQuery Node.platform (chain 10 20 30 40) (fun _ => None) 2
      no_overrides below_the_leaf
    = Some (Ok no_condition)) by reflexivity.
  split; [exact Hrun|].
  destruct (@ancestor_filter_is_the_descendant_set Node.platform
              (chain 10 20 30 40) (fun _ => None) 2 no_overrides
              below_the_leaf no_condition eq_refl Hrun)
    as (a & n & Ha & _ & Hnone).
  exists a, n. split; [exact Ha|].
  intros x [[_ []]|H]. exact (Hnone x H).
Defined.

(** X16. What a route fixes, the query string cannot change.  The
    filter of [getAllFeaturedProducts] always asks for featured
    products, whatever [featured] the query string carries; the filter
    of [getAllProductsByCatId] always asks for the category of the path,
    whose id has passed [isValidObjectId], and the filter of
    [getAllProductsByCatName] for the category found by the name;
    neither request succeeds when the query string names an ancestor as
    well. *)
Theorem route_overrides_win (P : Platform) (categories : list Category)
    (byName : string -> option ObjectId) (fuel : nat) (id name : Js.Value)
    (q : Params) (pq : ProductQuery) :
  (getAllFeaturedProducts P categories byName fuel q = Some (Ok pq) ->
   pq.(isfeatured) = Some true)
  /\ (truthy id = true ->
      getAllProductsByCatId P categories byName fuel id q = Some (Ok pq) ->
      pq.(category) = Some (CategoryIs (IdValue id))
      /\ P.(isValidObjectId) id = true
      /\ truthy q.(ancestorCategoryId) = false
      /\ truthy q.(ancestorCategoryName) = false)
  /\ (getAllProductsByCatName P categories byName fuel name q
      = Some (Ok pq) ->
      exists found,
        findCategoryIdByName byName name = Ok found
        /\ pq.(category) = Some (CategoryIs (IdObject found))
        /\ truthy q.(ancestorCategoryId) = false
        /\ truthy q.(ancestorCategoryName) = false).
Proof.
  split; [|split].
  - unfold getAllFeaturedProducts, requestQuery.
    cbn [over_categoryId over_ancestorCategoryId over_ancestorCategoryName
         over_minPrice over_maxPrice over_minRating over_featured over_search
         coalesce nullish coalesce_id].
    destruct (truthy_id (IdValue (categoryId q))
              && (truthy (ancestorCategoryId q)
                  || truthy (ancestorCategoryName q))); [discriminate|].
    destruct (if truthy_id (IdValue (categoryId q)) then _ else _)
      as [[]|e]; [|discriminate].
    destruct (if truthy (ancestorCategoryId q) then _ else _)
      as [[]|e]; [|discriminate].
    match goal with
    | |- match ?resolved with _ => _ end = _ -> _ =>
        destruct resolved as [[cids|e]|]; try discriminate
    end.
    destruct (parseNumber P _ "minPrice") as [lo|e]; [|discriminate].
    destruct (parseNumber P _ "maxPrice") as [hi|e]; [|discriminate].
    destruct (parseNumber P _ "minRating") as [rt|e]; [|discriminate].
    cbn [Js.bind]. unfold buildProductQuery.
    cbn [arg_featured arg_search defined is_string].
    destruct (truthy (search q)).
    + destruct (search q); try discriminate.
      intros [= <-]. reflexivity.
    + intros [= <-]. reflexivity.
  - intros Htruthy. unfold getAllProductsByCatId.
    cbn [validateObjectId].
    destruct (P.(isValidObjectId) id) eqn:Hvalid; [|discriminate].
    unfold requestQuery.
    cbn [over_categoryId over_ancestorCategoryId over_ancestorCategoryName
         over_minPrice over_maxPrice over_minRating over_featured over_search
         coalesce nullish].
    assert (Hid : coalesce_id (IdValue id) (categoryId q) = IdValue id).
    { unfold coalesce_id. destruct id; try reflexivity; discriminate. }
    rewrite Hid. cbn [truthy_id]. rewrite Htruthy. cbn [andb].
    destruct (truthy (ancestorCategoryId q)) eqn:Hanc; [discriminate|].
    destruct (truthy (ancestorCategoryName q)) eqn:Hname; [discriminate|].
    cbn [orb validateObjectId]. rewrite Hvalid.
    destruct (parseNumber P _ "minPrice") as [lo|e]; [|discriminate].
    destruct (parseNumber P _ "maxPrice") as [hi|e]; [|discriminate].
    destruct (parseNumber P _ "minRating") as [rt|e]; [|discriminate].
    cbn [Js.bind]. intros [= Hok].
    rewrite (buildProductQuery_category _ Hok).
    cbn [arg_categoryIds arg_categoryId truthy_id]. rewrite Htruthy.
    auto.
  - unfold getAllProductsByCatName.
    destruct (findCategoryIdByName byName name) as [found|e];
      [|discriminate].
    unfold requestQuery.
    cbn [over_categoryId over_ancestorCategoryId over_ancestorCategoryName
         over_minPrice over_maxPrice over_minRating over_featured over_search
         coalesce nullish coalesce_id truthy_id andb].
    destruct (truthy (ancestorCategoryId q)) eqn:Hanc; [discriminate|].
    destruct (truthy (ancestorCategoryName q)) eqn:Hname; [discriminate|].
    cbn [orb validateObjectId].
    destruct (parseNumber P _ "minPrice") as [lo|e]; [|discriminate].
    destruct (parseNumber P _ "maxPrice") as [hi|e]; [|discriminate].
    destruct (parseNumber P _ "minRating") as [rt|e]; [|discriminate].
    cbn [Js.bind]. intros [= Hok].
    rewrite (buildProductQuery_category _ Hok).
    cbn [arg_categoryIds arg_categoryId truthy_id].
    exists found. auto.
Qed.

Lemma route_overrides_win_witness :
  let byPath := Str "000000000000000000000028" in
  let wanted := Some (CategoryIs (IdValue byPath)) in
  (getAllFeaturedProducts Node.platform [] (fun _ => None) 2 priced_search
   = Some (Ok (priced_filter None true))
   /\ (priced_filter None true).(isfeatured) = Some true)
  /\ (getAllProductsByCatId Node.platform [] (fun _ => None) 2 byPath
        priced_search
      = Some (Ok (priced_filter wanted false))
      /\ (priced_filter wanted false).(category) = wanted).
Proof.
  intros byPath wanted. split.
  - split; [reflexivity|].
    exact (proj1 (route_overrides_win Node.platform [] (fun _ => None) 2
                    byPath Undefined priced_search (priced_filter None true))
             eq_refl).
  - split; [reflexivity|].
    exact (proj1 (proj1 (proj2 (route_overrides_win Node.platform []
                                  (fun _ => None) 2 byPath Undefined
                                  priced_search
                                  (priced_filter wanted false)))
                    eq_refl eq_refl)).
Defined.

(** The numbers [parseNumber] lets through. *)
Lemma parseNumber_not_NaN (P : Platform) (value : Js.Value) (label : string)
    (n : Js.Num) :
  parseNumber P value label = Ok (Some n) -> n <> NaN.
Proof.
  unfold parseNumber.
  assert (Hparse :
    match P.(ToNumber) value with
    | NaN => Throw (ApiError 400 (label ++ " must be a number")%string)
    | parsed => Ok (Some parsed)
    end = Ok (Some n) -> n <> NaN).
  { destruct (P.(ToNumber) value); try discriminate;
      intros [= <-]; discriminate. }
  destruct value as [| |b|m|s|items|fs]; try exact Hparse; try discriminate.
  destruct s; [discriminate|exact Hparse].
Qed.

(** X17. What a filter can hold.  Whenever [listProducts] builds its
    filter, a bound on [price] or [rating] in it is a number, never NaN:
    a parameter that is not a number has been refused with a 400 error;
    and the pattern the filter puts on [name] has no unescaped syntax
    character and matches, literally, the trimmed search text. *)
Theorem filter_holds_numbers_and_literal_text (P : Platform)
    (categories : list Category) (byName : string -> option ObjectId)
    (fuel : nat) (over : Overrides) (q : Params) (pq : ProductQuery) :
  requestQuery P categories byName fuel over q = Some (Ok pq) ->
  (forall r, pq.(price) = Some r ->
             r.(gte) <> Some NaN /\ r.(lte) <> Some NaN)
  /\ pq.(rating) <> Some NaN
  /\ (forall pattern,
        pq.(name) = Some pattern ->
        exists text,
          coalesce over.(over_search) q.(search) = Str text
          /\ pattern_literal (Node.chars pattern)
             = Some (Node.chars (Text.trim text))).
Proof.
  unfold requestQuery.
  destruct (truthy_id _ && _); [discriminate|].
  destruct (if truthy_id _ then _ else _) as [[]|e]; [|discriminate].
  destruct (if truthy (coalesce _ (ancestorCategoryId q)) then _ else _)
    as [[]|e]; [|discriminate].
  match goal with
  | |- match ?resolved with _ => _ end = _ -> _ =>
      destruct resolved as [[cids|e]|]; try discriminate
  end.
  destruct (parseNumber P _ "minPrice") as [lo|e] eqn:Hlo; [|discriminate].
  destruct (parseNumber P _ "maxPrice") as [hi|e] eqn:Hhi; [|discriminate].
  destruct (parseNumber P _ "minRating") as [rt|e] eqn:Hrt; [|discriminate].
  cbn [Js.bind]. unfold buildProductQuery.
  cbn [arg_minPrice arg_maxPrice arg_minRating arg_search].
  assert (Hlo' : lo <> Some NaN).
  { destruct lo as [n|]; [|discriminate].
    intros [= ->]. exact (parseNumber_not_NaN _ _ _ Hlo eq_refl). }
  assert (Hhi' : hi <> Some NaN).
  { destruct hi as [n|]; [|discriminate].
    intros [= ->]. exact (parseNumber_not_NaN _ _ _ Hhi eq_refl). }
  assert (Hrating : rt <> Some NaN).
  { destruct rt as [n|]; [|discriminate].
    intros [= ->]. exact (parseNumber_not_NaN _ _ _ Hrt eq_refl). }
  destruct (truthy (coalesce (over_search over) (search q))).
  - destruct (coalesce (over_search over) (search q)) as [| | | |text| |];
      try discriminate.
    intros [= <-]. cbn [price rating name].
    split; [intros r Hr; destruct lo, hi; inversion Hr; subst; auto|].
    split; [exact Hrating|].
    intros pattern [= <-]. exists text. split; [reflexivity|].
    unfold escapeRegex. rewrite chars_text. apply pattern_literal_escaped.
  - intros [= <-]. cbn [price rating name].
    split; [intros r Hr; destruct lo, hi; inversion Hr; subst; auto|].
    split; [exact Hrating|]. discriminate.
Qed.

Lemma filter_holds_numbers_and_literal_text_witness :
  requestQuery Node.platform [] (fun _ => None) 2 no_overrides priced_search
  = Some (Ok (priced_filter None false))
  /\ exists text,
       priced_search.(search) = Str text
       /\ pattern_literal (Node.chars "a\.b")
          = Some (Node.chars (Text.trim text)).
Proof.
  split; [reflexivity|].
  exact (proj2 (proj2 (@filter_holds_numbers_and_literal_text Node.platform
                         [] (fun _ => None) 2 no_overrides priced_search
                         (priced_filter None false) eq_refl))
           "a\.b"%string eq_refl).
Defined.

Lemma coalesce_same (v : Js.Value) : coalesce v v = v.
Proof. unfold coalesce. destruct (nullish v); reflexivity. Qed.

(** X18. The routes by price and by rating are the plain listing.  The
    only overrides [getAllProductsByPrice] and [getAllProductsByRating]
    pass are the values the query string already holds, so for every
    request they build the filter, or raise the error, of
    [getAllProducts]: a request without [minPrice], [maxPrice] or
    [minRating] is not refused, it is not narrowed. *)
Theorem price_and_rating_routes_are_the_plain_listing (P : Platform)
    (categories : list Category) (byName : string -> option ObjectId)
    (fuel : nat) (q : Params) :
  getAllProductsByPrice P categories byName fuel q
  = getAllProducts P categories byName fuel q
  /\ getAllProductsByRating P categories byName fuel q
     = getAllProducts P categories byName fuel q.
Proof.
  unfold getAllProductsByPrice, getAllProductsByRating, getAllProducts,
    requestQuery, no_overrides.
  cbn [over_categoryId over_ancestorCategoryId over_ancestorCategoryName
       over_minPrice over_maxPrice over_minRating over_featured
       over_search].
  rewrite !coalesce_same.
  assert (Hundefined : forall v, coalesce Undefined v = v)
    by reflexivity.
  rewrite !Hundefined. split; reflexivity.
Qed.

End CatalogFacts.
